(** * Controls of the chaos toolkit: the Python control provider

    A shallow embedding of [chaoslib/control/python.py] and a verification
    of its documented behaviour.

    The module is glue code around three host facilities (the module
    loader, the substitution engine, signature introspection) and around
    Python's mutable dictionaries.  The embedding therefore has

    - a small universe of Python values: atoms, functions, and references
      to dictionaries and lists living in a heap, so that aliasing, copies
      and in-place mutation are visible;
    - a state-and-exception monad [M] threading the heap and a trace of the
      calls that leave the module (log lines, [copy.deepcopy], the
      substitution engine, hooks);
    - a record [Host] for the facilities the module only calls. *)

From Stdlib Require Import Ascii.
From stdpp Require Import base numbers list strings.

Local Open Scope string_scope.
Local Open Scope list_scope.
Local Open Scope nat_scope.

(** ** Python values *)

Abbreviation loc := nat (only parsing).

(** A function object, as far as [inspect] shows it: the names of its
    declared parameters ([inspect.signature(f).parameters]) and the file
    it was defined in ([inspect.getfile(f)], which raises [TypeError] for
    a built-in: [None] here). *)
Record func := Func {
  fn_name : string;
  fn_params : list string;
  fn_file : option string
}.

Inductive value :=
| VNone
| VBool (b : bool)
| VInt (z : Z)
| VStr (s : string)
| VFunc (f : func)
| VRef (l : loc).

(** Heap objects.  Dictionaries keep insertion order and have string keys,
    as the structured configuration a control is read from has. *)
Inductive obj :=
| ODict (items : list (string * value))
| OList (elems : list value).

Abbreviation heap := (list obj) (only parsing).

(** A module object is the table of its attributes. *)
Definition module := list (string * value).

(** ** Exceptions *)

(** The text of a message built with [str.format]: literal text and the
    [str()] of the values spliced in. *)
Inductive piece :=
| Text (s : string)
| Shown (v : value).

Inductive exn :=
| InvalidControl (msg : list piece)
| InvalidActivity (msg : list piece)
| ModuleNotFoundError
| KeyError (k : string)
| TypeError
| AttributeError
| ValueError
| OtherError (name : string).

(** The message as Python prints it, when every spliced value is a string
    (the [str()] of a string is the string). *)
Fixpoint render (msg : list piece) : option string :=
  match msg with
  | [] => Some ""
  | Text s :: msg => option_map (String.append s) (render msg)
  | Shown (VStr s) :: msg => option_map (String.append s) (render msg)
  | Shown _ :: _ => None
  end.

Definition mentions (v : value) (msg : list piece) : Prop := In (Shown v) msg.

(** ** Events and machine state *)

Inductive event :=
| EvLog (msg : list piece)
| EvDeepcopy (src dst : value) (h : heap)
| EvSubstitute (data conf secr : value) (h : heap)
| EvCall (f : func) (args : list value) (kwargs : list (string * value)) (h : heap).

Record state := State { st_heap : heap; st_trace : list event }.

(** [Wrong] is not a Python behaviour: the embedding got stuck on a
    dangling location or left the fragment of Python it covers. *)
Inductive outcome (A : Type) :=
| Return (a : A)
| Raise (e : exn)
| Wrong.
Arguments Return {A} a.
Arguments Raise {A} e.
Arguments Wrong {A}.

Definition M (A : Type) : Type := state → outcome A * state.

Definition ret {A} (a : A) : M A := λ st, (Return a, st).

Definition bind {A B} (m : M A) (k : A → M B) : M B := λ st,
  match m st with
  | (Return a, st') => k a st'
  | (Raise e, st') => (Raise e, st')
  | (Wrong, st') => (Wrong, st')
  end.

Definition raise {A} (e : exn) : M A := λ st, (Raise e, st).
Definition wrong {A} : M A := λ st, (Wrong, st).

(** [try: m  except e if handles e: h e] *)
Definition catch {A} (m : M A) (handler : exn → option (M A)) : M A := λ st,
  match m st with
  | (Raise e, st') =>
      match handler e with
      | Some h => h st'
      | None => (Raise e, st')
      end
  | r => r
  end.

Declare Scope py_scope.
Delimit Scope py_scope with py.
Notation "x <- c1 ;; c2" := (bind c1 (λ x, c2))
  (at level 100, c1 at next level, right associativity) : py_scope.
Notation "c1 ;;; c2" := (bind c1 (λ _, c2))
  (at level 100, right associativity) : py_scope.
Local Open Scope py_scope.

Definition get_heap : M heap := λ st, (Return (st_heap st), st).
Definition put_heap (h : heap) : M unit := λ st, (Return tt, State h (st_trace st)).
Definition emit (e : event) : M unit := λ st,
  (Return tt, State (st_heap st) (st_trace st ++ [e])).

(** [logger.debug(msg)] *)
Definition log_debug (msg : list piece) : M unit := emit (EvLog msg).

Definition alloc (o : obj) : M value :=
  h <- get_heap ;; put_heap (h ++ [o]) ;;; ret (VRef (length h)).

Definition deref (l : loc) : M obj :=
  h <- get_heap ;;
  match h !! l with
  | Some o => ret o
  | None => wrong
  end.

Definition store (l : loc) (o : obj) : M unit :=
  h <- get_heap ;; put_heap (<[l := o]> h).

(** ** Dictionaries as ordered association lists *)

Fixpoint assoc_get {A} (k : string) (kvs : list (string * A)) : option A :=
  match kvs with
  | [] => None
  | (k', v) :: kvs => if String.eqb k k' then Some v else assoc_get k kvs
  end.

(** [d[k] = v]: an existing key keeps its place, a new one goes last. *)
Fixpoint assoc_set {A} (k : string) (v : A) (kvs : list (string * A))
  : list (string * A) :=
  match kvs with
  | [] => [(k, v)]
  | (k', v') :: kvs =>
      if String.eqb k k' then (k, v) :: kvs else (k', v') :: assoc_set k v kvs
  end.

Definition assoc_mem {A} (k : string) (kvs : list (string * A)) : bool :=
  match assoc_get k kvs with Some _ => true | None => false end.

(** [d.update(src)] for a dictionary [src]. *)
Definition assoc_update {A} (d src : list (string * A)) : list (string * A) :=
  fold_left (λ acc kv, assoc_set (fst kv) (snd kv) acc) src d.

(** ** Python primitives the module uses *)

Definition is_str (k : string) (v : value) : bool :=
  match v with VStr s => String.eqb k s | _ => false end.

(** [needle in hay] for strings. *)
Fixpoint is_substring (needle hay : string) : bool :=
  String.prefix needle hay ||
  match hay with
  | EmptyString => false
  | String _ hay' => is_substring needle hay'
  end.

Definition is_empty_string (s : string) : bool :=
  match s with EmptyString => true | _ => false end.

(** A [string] holds the UTF-8 encoding of a Python string, so one
    character is a leading byte with the continuation bytes (10xxxxxx)
    that follow it. *)
Definition is_continuation (a : ascii) : bool :=
  (128 <=? nat_of_ascii a) && (nat_of_ascii a <? 192).

Definition starts_with_continuation (s : string) : bool :=
  match s with
  | String b _ => is_continuation b
  | EmptyString => false
  end.

(** The characters of a string, each as a string of one character. *)
Fixpoint characters (s : string) : list string :=
  match s with
  | EmptyString => []
  | String a s' =>
      match characters s' with
      | c :: cs =>
          if starts_with_continuation s' then String a c :: cs
          else String a EmptyString :: c :: cs
      | [] => [String a EmptyString]
      end
  end.

(** Truth value of an object ([bool(v)]). *)
Definition truthy (v : value) : M bool :=
  match v with
  | VNone => ret false
  | VBool b => ret b
  | VInt z => ret (negb (Z.eqb z 0%Z))
  | VStr s => ret (negb (is_empty_string s))
  | VFunc _ => ret true
  | VRef l =>
      o <- deref l ;;
      match o with
      | ODict [] | OList [] => ret false
      | _ => ret true
      end
  end.

(** [k in c] for a string [k]. *)
Definition contains (k : string) (c : value) : M bool :=
  match c with
  | VRef l =>
      o <- deref l ;;
      match o with
      | ODict items => ret (assoc_mem k items)
      | OList elems => ret (existsb (is_str k) elems)
      end
  | VStr s => ret (is_substring k s)
  | _ => raise TypeError
  end.

(** [c[k]] for a string [k]. *)
Definition getitem (c : value) (k : string) : M value :=
  match c with
  | VRef l =>
      o <- deref l ;;
      match o with
      | ODict items =>
          match assoc_get k items with
          | Some v => ret v
          | None => raise (KeyError k)
          end
      | OList _ => raise TypeError
      end
  | _ => raise TypeError
  end.

(** [c.get(k, d)]: only dictionaries have [get] (the attribute is looked up
    before the arguments are evaluated, so [d] is a computation); the key
    must be hashable; a hashable key that is not a string is in no
    dictionary. *)
Definition dict_get (c : value) (k : value) (d : M value) : M value :=
  match c with
  | VRef l =>
      o <- deref l ;;
      match o with
      | ODict items =>
          dv <- d ;;
          match k with
          | VStr s => ret (default dv (assoc_get s items))
          | VRef _ => raise TypeError
          | _ => ret dv
          end
      | OList _ => raise AttributeError
      end
  | _ => raise AttributeError
  end.

(** [c[k] = v] for a string [k]. *)
Definition setitem (c : value) (k : string) (v : value) : M unit :=
  match c with
  | VRef l =>
      o <- deref l ;;
      match o with
      | ODict items => store l (ODict (assoc_set k v items))
      | OList _ => raise TypeError
      end
  | _ => raise TypeError
  end.

(** [c.copy()]: a new object with the same entries (a shallow copy). *)
Definition shallow_copy (c : value) : M value :=
  match c with
  | VRef l => o <- deref l ;; alloc o
  | _ => raise AttributeError
  end.

(** [for x in c]: the elements a loop over [c] visits. *)
Definition iterate (c : value) : M (list value) :=
  match c with
  | VRef l =>
      o <- deref l ;;
      match o with
      | ODict items => ret (map (λ kv, VStr (fst kv)) items)
      | OList elems => ret elems
      end
  | VStr s => ret (map VStr (characters s))
  | _ => raise TypeError
  end.

Fixpoint for_each {A} (xs : list A) (body : A → M unit) : M unit :=
  match xs with
  | [] => ret tt
  | x :: xs => body x ;;; for_each xs body
  end.

(** [tgt.update(src)] when [src] is a sequence: every element must itself
    be a two-element sequence (key, value). *)
Definition pair_of (e : value) : M (value * value) :=
  match e with
  | VStr s =>
      match characters s with
      | [a; b] => ret (VStr a, VStr b)
      | _ => raise ValueError
      end
  | VRef l =>
      o <- deref l ;;
      match o with
      | OList [a; b] => ret (a, b)
      | ODict [(k1, _); (k2, _)] => ret (VStr k1, VStr k2)
      | _ => raise ValueError
      end
  | _ => raise TypeError
  end.

(** A key that is hashable but not a string would leave the universe of
    string-keyed dictionaries: [wrong]. *)
Definition put_entry (tgt : loc) (kv : value * value) : M unit :=
  match fst kv with
  | VStr s =>
      o <- deref tgt ;;
      match o with
      | ODict items => store tgt (ODict (assoc_set s (snd kv) items))
      | OList _ => wrong
      end
  | VRef _ => raise TypeError
  | _ => wrong
  end.

(** [tgt.update(src)] *)
Definition dict_update (tgt src : value) : M unit :=
  match tgt with
  | VRef lt =>
      o <- deref lt ;;
      match o with
      | ODict _ =>
          match src with
          | VRef ls =>
              so <- deref ls ;;
              match so with
              | ODict sitems =>
                  o' <- deref lt ;;
                  match o' with
                  | ODict items => store lt (ODict (assoc_update items sitems))
                  | OList _ => wrong
                  end
              | OList elems =>
                  for_each elems (λ e, kv <- pair_of e ;; put_entry lt kv)
              end
          | VStr EmptyString => ret tt
          | VStr _ => raise ValueError
          | _ => raise TypeError
          end
      | OList _ => raise AttributeError
      end
  | _ => raise AttributeError
  end.

(** ** [copy.deepcopy]

    The copy of a container is registered in the memo before its children
    are copied, so shared and cyclic structure is copied once.  Atoms and
    functions are returned as they are.  The fuel bounds the nesting of the
    recursion; [length h] is enough on a heap without dangling locations
    ([deepcopy_rec_total] below). *)

Definition memo := list (loc * loc).

Fixpoint memo_find (l : loc) (m : memo) : option loc :=
  match m with
  | [] => None
  | (a, b) :: m => if Nat.eqb l a then Some b else memo_find l m
  end.

Fixpoint copy_each (cp : value → memo → heap → option (value * memo * heap))
    (vs : list value) (m : memo) (h : heap)
  : option (list value * memo * heap) :=
  match vs with
  | [] => Some ([], m, h)
  | v :: vs =>
      match cp v m h with
      | Some (v', m1, h1) =>
          match copy_each cp vs m1 h1 with
          | Some (vs', m2, h2) => Some (v' :: vs', m2, h2)
          | None => None
          end
      | None => None
      end
  end.

Definition obj_children (o : obj) : list value :=
  match o with
  | ODict items => map snd items
  | OList elems => elems
  end.

(** The object with the same shape (keys, length) and the given children. *)
Definition obj_rebuild (o : obj) (vs : list value) : obj :=
  match o with
  | ODict items => ODict (zip (map fst items) vs)
  | OList _ => OList vs
  end.

Definition obj_blank (o : obj) : obj :=
  match o with
  | ODict _ => ODict []
  | OList _ => OList []
  end.

Fixpoint deepcopy_rec (fuel : nat) (v : value) (m : memo) (h : heap)
  : option (value * memo * heap) :=
  match v with
  | VRef l =>
      match memo_find l m with
      | Some l' => Some (VRef l', m, h)
      | None =>
          match fuel, h !! l with
          | S fuel, Some o =>
              let l' := length h in
              match copy_each (deepcopy_rec fuel) (obj_children o)
                              ((l, l') :: m) (h ++ [obj_blank o]) with
              | Some (vs, m', h') =>
                  Some (VRef l', m', <[l' := obj_rebuild o vs]> h')
              | None => None
              end
          | _, _ => None
          end
      end
  | _ => Some (v, m, h)
  end.

(** [deepcopy(v)]; the event records the source, the copy and the heap
    the copy was left in. *)
Definition deepcopy (v : value) : M value :=
  h <- get_heap ;;
  match deepcopy_rec (length h) v [] h with
  | Some (v', _, h') => put_heap h' ;;; emit (EvDeepcopy v v' h') ;;; ret v'
  | None => wrong
  end.

(** ** The host: what the module calls but does not implement *)

Inductive import_result :=
| Loaded (m : module)
| ImportFails (e : exn).

(** - [host_import]: [importlib.import_module] on a module path;
    - [host_substitute]: [chaoslib.substitute], the substitution engine;
    - [host_call]: running the body of a function object on positional and
      keyword arguments, Python's binding of arguments to parameters
      included. *)
Record Host := {
  host_import : string → import_result;
  host_substitute : value → value → value → heap → outcome value * heap;
  host_call : func → list value → list (string * value) → heap
              → outcome value * heap
}.

Definition _level_mapping : list (string * string) := [
  ("experiment-before", "before_experiment_control");
  ("experiment-after", "after_experiment_control");
  ("hypothesis-before", "before_hypothesis_control");
  ("hypothesis-after", "after_hypothesis_control");
  ("method-before", "before_method_control");
  ("method-after", "after_method_control");
  ("rollback-before", "before_rollback_control");
  ("rollback-after", "after_rollback_control");
  ("activity-before", "before_activity_control");
  ("activity-after", "after_activity_control")
].

(** [_level_mapping.get(level)] *)
Definition level_mapping_get (level : string) : value :=
  match assoc_get level _level_mapping with
  | Some name => VStr name
  | None => VNone
  end.

Section Control.

Context (host : Host).

(** [importlib.import_module(name)]: a name that is not a string has no
    [startswith]; the empty name and a relative name without a package are
    refused before any lookup. *)
Definition resolve_module (s : string) : import_result :=
  match s with
  | EmptyString => ImportFails ValueError
  | String a _ =>
      if Ascii.eqb a "."%char then ImportFails TypeError else host_import host s
  end.

Definition import_module (name : value) : M module :=
  match name with
  | VStr s =>
      match resolve_module s with
      | Loaded m => ret m
      | ImportFails e => raise e
      end
  | _ => raise AttributeError
  end.

(** [getattr(mod, name, d)]: the attribute name must be a string. *)
Definition getattr_or (m : module) (name : value) (d : value) : M value :=
  match name with
  | VStr s => ret (default d (assoc_get s m))
  | _ => raise TypeError
  end.

(** [inspect.signature(f).parameters], as the list of parameter names. *)
Definition signature (f : value) : M (list string) :=
  match f with
  | VFunc fn => ret (fn_params fn)
  | _ => raise TypeError
  end.

(** [inspect.getfile(f)] *)
Definition getfile (f : value) : M string :=
  match f with
  | VFunc (Func _ _ (Some path)) => ret path
  | _ => raise TypeError
  end.

(** [substitute(data, configuration, secrets)] *)
Definition substitute (data conf secr : value) : M value := λ st,
  let h := st_heap st in
  let r := host_substitute host data conf secr h in
  (fst r, State (snd r) (st_trace st ++ [EvSubstitute data conf secr h])).

(** [f( *args, **kwargs)] *)
Definition call (f : value) (args : list value) (kwargs : list (string * value))
  : M value :=
  match f with
  | VFunc fn => λ st,
      let h := st_heap st in
      let r := host_call host fn args kwargs h in
      (fst r, State (snd r) (st_trace st ++ [EvCall fn args kwargs h]))
  | _ => raise TypeError
  end.

(** [f(context=context, **arguments)]: [arguments] must be a mapping and
    must not bind [context] a second time. *)
Definition call_with_context (f context arguments : value) : M value :=
  match arguments with
  | VRef l =>
      o <- deref l ;;
      match o with
      | ODict items =>
          if assoc_mem "context" items then raise TypeError
          else call f [] (("context", context) :: items)
      | OList _ => raise TypeError
      end
  | _ => raise TypeError
  end.

(** *** The module's functions *)

Definition load_func (control : value) (func_name : value) : M value :=
  provider <- getitem control "provider" ;;
  mod_path <- getitem provider "module" ;;
  found <- catch (m <- import_module mod_path ;; ret (Some m))
    (λ e, match e with
          | ModuleNotFoundError => Some (
              log_debug [Text "Control module '"; Shown mod_path;
                         Text "' could not be loaded. Have you installed it?"] ;;;
              ret None)
          | _ => None
          end) ;;
  match found with
  | None => ret VNone
  | Some md =>
      func <- getattr_or md func_name VNone ;;
      t <- truthy func ;;
      if negb t then
        log_debug [Text "Control module '"; Shown mod_path;
                   Text "' does not declare '"; Shown func_name; Text "'"] ;;;
        ret VNone
      else
        catch (file <- getfile func ;;
               log_debug [Text "Control '"; Shown func_name;
                          Text "' loaded from '"; Shown (VStr file); Text "'"])
          (λ e, match e with TypeError => Some (ret tt) | _ => None end) ;;;
        ret func
  end.

Definition initialize_control (control configuration secrets : value) : M unit :=
  func <- load_func control (VStr "configure_control") ;;
  t <- truthy func ;;
  if negb t then ret tt
  else call func [configuration; secrets] [] ;;; ret tt.

Definition cleanup_control (control : value) : M unit :=
  func <- load_func control (VStr "cleanup_control") ;;
  t <- truthy func ;;
  if negb t then ret tt
  else call func [] [] ;;; ret tt.

Definition validate_python_control (control : value) : M unit :=
  has_name <- contains "name" control ;;
  if negb has_name then
    raise (InvalidControl [Text "A control must have a `name` property"])
  else
  name <- getitem control "name" ;;
  has_provider <- contains "provider" control ;;
  if negb has_provider then
    raise (InvalidControl [Text "Control '"; Shown name;
                           Text "' must have a `provider` property"])
  else
  provider <- getitem control "provider" ;;
  mod_name <- dict_get control (VStr "module") (ret VNone) ;;
  t <- truthy mod_name ;;
  if negb t then
    raise (InvalidActivity [Text "Control '"; Shown name;
                            Text "' must have a module path"])
  else
  catch (import_module mod_name ;;; ret tt)
    (λ e, match e with
          | ModuleNotFoundError => Some (raise (InvalidActivity
              [Text "could not find Python module '"; Shown mod_name;
               Text "' in control '"; Shown name; Text "'"]))
          | _ => None
          end).

Definition apply_python_control (level : string)
    (control context state configuration secrets : value) : M unit :=
  provider <- getitem control "provider" ;;
  let func_name := level_mapping_get level in
  func <- load_func control func_name ;;
  t <- truthy func ;;
  if negb t then ret tt
  else
  template <- dict_get provider (VStr "arguments") (alloc (ODict [])) ;;
  arguments <- deepcopy template ;;
  tc <- truthy configuration ;;
  ts <- (if tc then ret true else truthy secrets) ;;
  arguments <- (if ts then substitute arguments configuration secrets
                else ret arguments) ;;
  params <- signature func ;;
  has_secrets <- contains "secrets" provider ;;
  (if has_secrets && bool_decide ("secrets" ∈ params) then
     fresh <- alloc (ODict []) ;;
     setitem arguments "secrets" fresh ;;;
     names <- getitem provider "secrets" ;;
     items <- iterate names ;;
     for_each items (λ s,
       target <- getitem arguments "secrets" ;;
       group <- dict_get secrets s (alloc (ODict [])) ;;
       group_copy <- shallow_copy group ;;
       dict_update target group_copy)
   else ret tt) ;;;
  (if bool_decide ("configuration" ∈ params) then
     conf_copy <- shallow_copy configuration ;;
     setitem arguments "configuration" conf_copy
   else ret tt) ;;;
  (if bool_decide ("state" ∈ params) then setitem arguments "state" state
   else ret tt) ;;;
  call_with_context func context arguments ;;;
  ret tt.

End Control.

(** * Verification *)

(** ** Running the monad *)

Lemma bind_Return {A B} (m : M A) (k : A → M B) st a st' :
  m st = (Return a, st') → bind m k st = k a st'.
Proof. intros E. unfold bind. by rewrite E. Qed.

Lemma bind_Raise {A B} (m : M A) (k : A → M B) st e st' :
  m st = (Raise e, st') → bind m k st = (Raise e, st').
Proof. intros E. unfold bind. by rewrite E. Qed.

Lemma bind_Wrong {A B} (m : M A) (k : A → M B) st st' :
  m st = (Wrong, st') → bind m k st = (Wrong, st').
Proof. intros E. unfold bind. by rewrite E. Qed.

Lemma bind_ret {A B} (a : A) (k : A → M B) st : bind (ret a) k st = k a st.
Proof. reflexivity. Qed.

Lemma deref_ok l o st :
  st_heap st !! l = Some o → deref l st = (Return o, st).
Proof. intros E. unfold deref, bind, get_heap. simpl. by rewrite E. Qed.

Lemma contains_dict k l items st :
  st_heap st !! l = Some (ODict items) →
  contains k (VRef l) st = (Return (assoc_mem k items), st).
Proof. intros E. unfold contains. by rewrite (bind_Return _ _ _ _ _ (deref_ok _ _ _ E)). Qed.

Lemma getitem_dict k l items v st :
  st_heap st !! l = Some (ODict items) → assoc_get k items = Some v →
  getitem (VRef l) k st = (Return v, st).
Proof.
  intros E Ek. unfold getitem.
  rewrite (bind_Return _ _ _ _ _ (deref_ok _ _ _ E)). by rewrite Ek.
Qed.

Lemma getitem_missing k l items st :
  st_heap st !! l = Some (ODict items) → assoc_get k items = None →
  getitem (VRef l) k st = (Raise (KeyError k), st).
Proof.
  intros E Ek. unfold getitem.
  rewrite (bind_Return _ _ _ _ _ (deref_ok _ _ _ E)). by rewrite Ek.
Qed.

Lemma assoc_mem_true {A} k (kvs : list (string * A)) v :
  assoc_get k kvs = Some v → assoc_mem k kvs = true.
Proof. unfold assoc_mem. by intros ->. Qed.

Lemma assoc_mem_false {A} k (kvs : list (string * A)) :
  assoc_get k kvs = None → assoc_mem k kvs = false.
Proof. unfold assoc_mem. by intros ->. Qed.

Section Validate.

Context (host : Host).

(** C4. [validate_python_control] checks the structure of a control
    descriptor in order: without a [name] key it raises [InvalidControl];
    with a [name] but without a [provider] key it raises [InvalidControl]
    with a message that splices the control's name in. *)
Theorem validate_structural_checks_in_order (l : loc) items st :
  st_heap st !! l = Some (ODict items) →
  (assoc_get "name" items = None →
   validate_python_control host (VRef l) st =
     (Raise (InvalidControl [Text "A control must have a `name` property"]), st))
  ∧ (∀ name, assoc_get "name" items = Some name →
     assoc_get "provider" items = None →
     ∃ msg, validate_python_control host (VRef l) st = (Raise (InvalidControl msg), st)
            ∧ mentions name msg
            ∧ msg = [Text "Control '"; Shown name;
                     Text "' must have a `provider` property"]).
Proof.
  intros Hl. split.
  - intros Hn. unfold validate_python_control.
    rewrite (bind_Return _ _ _ _ _ (contains_dict "name" _ _ _ Hl)).
    by rewrite (assoc_mem_false _ _ Hn).
  - intros name Hn Hp. eexists. split; [|split; [|reflexivity]].
    + unfold validate_python_control.
      rewrite (bind_Return _ _ _ _ _ (contains_dict "name" _ _ _ Hl)).
      rewrite (assoc_mem_true _ _ _ Hn). simpl.
      rewrite (bind_Return _ _ _ _ _ (getitem_dict "name" _ _ _ _ Hl Hn)).
      rewrite (bind_Return _ _ _ _ _ (contains_dict "provider" _ _ _ Hl)).
      by rewrite (assoc_mem_false _ _ Hp).
    + unfold mentions. simpl. auto.
Qed.

End Validate.

(** ** Hook resolution *)

Section LoadFunc.

Context (host : Host).

(** A control descriptor at [lc] whose provider, at [lp], names the module
    path [mp]. *)
Definition control_at (h : heap) (lc lp : loc) (mp : value) : Prop :=
  ∃ citems pitems,
    h !! lc = Some (ODict citems) ∧ assoc_get "provider" citems = Some (VRef lp) ∧
    h !! lp = Some (ODict pitems) ∧ assoc_get "module" pitems = Some mp.

Definition loaded_log (fname : string) (f : func) : list event :=
  match fn_file f with
  | Some path => [EvLog [Text "Control '"; Shown (VStr fname);
                         Text "' loaded from '"; Shown (VStr path); Text "'"]]
  | None => []
  end.

Definition add_events (st : state) (evs : list event) : state :=
  State (st_heap st) (st_trace st ++ evs).

Lemma add_events_nil st : add_events st [] = st.
Proof. destruct st. unfold add_events. simpl. by rewrite app_nil_r. Qed.

Lemma load_func_prefix lc lp mp func_name st :
  control_at (st_heap st) lc lp mp →
  load_func host (VRef lc) func_name st =
  (found <- catch (m <- import_module host mp ;; ret (Some m))
    (λ e, match e with
          | ModuleNotFoundError => Some (
              log_debug [Text "Control module '"; Shown mp;
                         Text "' could not be loaded. Have you installed it?"] ;;;
              ret None)
          | _ => None
          end) ;;
   match found with
   | None => ret VNone
   | Some md =>
      func <- getattr_or md func_name VNone ;;
      t <- truthy func ;;
      if negb t then
        log_debug [Text "Control module '"; Shown mp;
                   Text "' does not declare '"; Shown func_name; Text "'"] ;;;
        ret VNone
      else
        catch (file <- getfile func ;;
               log_debug [Text "Control '"; Shown func_name;
                          Text "' loaded from '"; Shown (VStr file); Text "'"])
          (λ e, match e with TypeError => Some (ret tt) | _ => None end) ;;;
        ret func
   end) st.
Proof.
  intros (citems & pitems & Hc & Hp & Hpo & Hm). unfold load_func.
  rewrite (bind_Return _ _ _ _ _ (getitem_dict _ _ _ _ _ Hc Hp)).
  by rewrite (bind_Return _ _ _ _ _ (getitem_dict _ _ _ _ _ Hpo Hm)).
Qed.

Lemma load_func_not_found lc lp mp func_name st :
  control_at (st_heap st) lc lp (VStr mp) →
  resolve_module host mp = ImportFails ModuleNotFoundError →
  load_func host (VRef lc) func_name st =
    (Return VNone,
     add_events st [EvLog [Text "Control module '"; Shown (VStr mp);
                           Text "' could not be loaded. Have you installed it?"]]).
Proof.
  intros Hc Hr. rewrite (load_func_prefix _ _ _ _ _ Hc).
  unfold bind, catch, import_module. by rewrite Hr.
Qed.

Lemma load_func_absent lc lp mp md fname st :
  control_at (st_heap st) lc lp (VStr mp) →
  resolve_module host mp = Loaded md →
  assoc_get fname md = None →
  load_func host (VRef lc) (VStr fname) st =
    (Return VNone,
     add_events st [EvLog [Text "Control module '"; Shown (VStr mp);
                           Text "' does not declare '"; Shown (VStr fname);
                           Text "'"]]).
Proof.
  intros Hc Hr Ha. rewrite (load_func_prefix _ _ _ _ _ Hc).
  unfold bind, catch, import_module, getattr_or. rewrite Hr. simpl.
  by rewrite Ha.
Qed.

Lemma load_func_found lc lp mp md fname f st :
  control_at (st_heap st) lc lp (VStr mp) →
  resolve_module host mp = Loaded md →
  assoc_get fname md = Some (VFunc f) →
  load_func host (VRef lc) (VStr fname) st =
    (Return (VFunc f), add_events st (loaded_log fname f)).
Proof.
  intros Hc Hr Ha. rewrite (load_func_prefix _ _ _ _ _ Hc).
  unfold bind, catch, import_module, getattr_or. rewrite Hr. simpl.
  rewrite Ha. simpl. unfold loaded_log.
  destruct f as [nm ps [path|]]; simpl; [done|].
  by rewrite add_events_nil.
Qed.

(** [getattr] refuses an attribute name that is not a string: resolving
    "no function name" in a module that did load raises [TypeError]. *)
Lemma load_func_no_name lc lp mp md st :
  control_at (st_heap st) lc lp (VStr mp) →
  resolve_module host mp = Loaded md →
  load_func host (VRef lc) VNone st = (Raise TypeError, st).
Proof.
  intros Hc Hr. rewrite (load_func_prefix _ _ _ _ _ Hc).
  unfold bind, catch, import_module, getattr_or. by rewrite Hr.
Qed.

End LoadFunc.

(** ** Dispatch: misses, unknown levels, initialisation and clean-up *)

Section Dispatch.

Context (host : Host).

Lemma control_at_provider lc lp mp st :
  control_at (st_heap st) lc lp mp →
  getitem (VRef lc) "provider" st = (Return (VRef lp), st).
Proof. intros (citems & pitems & Hc & Hp & _). by eapply getitem_dict. Qed.

(** The operation returned, left the heap as it was, and the only event
    is one log line: no hook was called. *)
Definition silent_noop (m : M unit) (st : state) : Prop :=
  ∃ msg, m st = (Return tt, add_events st [EvLog msg]).

Lemma apply_after_miss level lc lp mp context stt conf secr st st' :
  control_at (st_heap st) lc lp mp →
  load_func host (VRef lc) (level_mapping_get level) st = (Return VNone, st') →
  apply_python_control host level (VRef lc) context stt conf secr st = (Return tt, st').
Proof.
  intros Hc Hl. unfold apply_python_control.
  rewrite (bind_Return _ _ _ _ _ (control_at_provider _ _ _ _ Hc)).
  by rewrite (bind_Return _ _ _ _ _ Hl).
Qed.

Lemma level_mapping_get_known level fname :
  assoc_get level _level_mapping = Some fname →
  level_mapping_get level = VStr fname.
Proof. unfold level_mapping_get. by intros ->. Qed.

Lemma level_mapping_get_unknown level :
  assoc_get level _level_mapping = None → level_mapping_get level = VNone.
Proof. unfold level_mapping_get. by intros ->. Qed.

(** C5. When the provider's module is not found, and when the module loads
    but has no attribute of the hook's name, [initialize_control],
    [cleanup_control] and [apply_python_control] at a recognised level all
    return without calling a hook and without raising. *)
Theorem hook_resolution_misses_are_silent lc lp mp context stt conf secr st :
  control_at (st_heap st) lc lp (VStr mp) →
  (resolve_module host mp = ImportFails ModuleNotFoundError →
     silent_noop (initialize_control host (VRef lc) conf secr) st
     ∧ silent_noop (cleanup_control host (VRef lc)) st
     ∧ ∀ level fname, assoc_get level _level_mapping = Some fname →
         silent_noop (apply_python_control host level (VRef lc) context stt conf secr) st)
  ∧ (∀ md, resolve_module host mp = Loaded md →
       (assoc_get "configure_control" md = None →
          silent_noop (initialize_control host (VRef lc) conf secr) st)
       ∧ (assoc_get "cleanup_control" md = None →
          silent_noop (cleanup_control host (VRef lc)) st)
       ∧ ∀ level fname, assoc_get level _level_mapping = Some fname →
           assoc_get fname md = None →
           silent_noop (apply_python_control host level (VRef lc) context stt conf secr) st).
Proof.
  intros Hc. split.
  - intros Hr. repeat split.
    + eexists. unfold initialize_control.
      by rewrite (bind_Return _ _ _ _ _ (load_func_not_found _ _ _ _ _ _ Hc Hr)).
    + eexists. unfold cleanup_control.
      by rewrite (bind_Return _ _ _ _ _ (load_func_not_found _ _ _ _ _ _ Hc Hr)).
    + intros level fname Hlv. eexists.
      eapply apply_after_miss; [exact Hc|].
      by eapply load_func_not_found.
  - intros md Hr. repeat split.
    + intros Ha. eexists. unfold initialize_control.
      by rewrite (bind_Return _ _ _ _ _ (load_func_absent _ _ _ _ _ _ _ Hc Hr Ha)).
    + intros Ha. eexists. unfold cleanup_control.
      by rewrite (bind_Return _ _ _ _ _ (load_func_absent _ _ _ _ _ _ _ Hc Hr Ha)).
    + intros level fname Hlv Ha. eexists.
      eapply apply_after_miss; [exact Hc|].
      rewrite (level_mapping_get_known _ _ Hlv). by eapply load_func_absent.
Qed.

(** C2, as the code has it.  For a control whose module loads, a level
    outside the table resolves to no function name, and [getattr] raises
    [TypeError] on it: [apply_python_control] raises instead of doing
    nothing. *)
Theorem apply_unknown_level_raises level lc lp mp md context stt conf secr st :
  control_at (st_heap st) lc lp (VStr mp) →
  resolve_module host mp = Loaded md →
  assoc_get level _level_mapping = None →
  apply_python_control host level (VRef lc) context stt conf secr st
  = (Raise TypeError, st).
Proof.
  intros Hc Hr Hlv. unfold apply_python_control.
  rewrite (bind_Return _ _ _ _ _ (control_at_provider _ _ _ _ Hc)).
  rewrite (level_mapping_get_unknown _ Hlv).
  by rewrite (bind_Raise _ _ _ _ _ (load_func_no_name _ _ _ _ _ _ Hc Hr)).
Qed.

(** The outcome of a statement [f(...)] whose value is dropped. *)
Definition discard (r : outcome value) : outcome unit :=
  match r with
  | Return _ => Return tt
  | Raise e => Raise e
  | Wrong => Wrong
  end.

Lemma call_then_ret f args kwargs st :
  (call host (VFunc f) args kwargs ;;; ret tt) st =
  (discard (fst (host_call host f args kwargs (st_heap st))),
   State (snd (host_call host f args kwargs (st_heap st)))
         (st_trace st ++ [EvCall f args kwargs (st_heap st)])).
Proof.
  unfold bind, call. simpl.
  by destruct (host_call host f args kwargs (st_heap st)) as [[?|?|] ?].
Qed.

(** C8. When the control's module has the hook, [initialize_control] calls
    [configure_control] on exactly the two positional arguments
    (configuration, secrets) and [cleanup_control] calls [cleanup_control]
    on no argument; the outcome of the operation is the outcome of the hook,
    so an exception the hook raises reaches the caller. *)
Theorem initialize_and_cleanup_call_their_hook lc lp mp md conf secr st :
  control_at (st_heap st) lc lp (VStr mp) →
  resolve_module host mp = Loaded md →
  (∀ f, assoc_get "configure_control" md = Some (VFunc f) →
     let r := host_call host f [conf; secr] [] (st_heap st) in
     initialize_control host (VRef lc) conf secr st =
       (discard (fst r),
        State (snd r) (st_trace st ++ loaded_log "configure_control" f
                         ++ [EvCall f [conf; secr] [] (st_heap st)])))
  ∧ (∀ f, assoc_get "cleanup_control" md = Some (VFunc f) →
     let r := host_call host f [] [] (st_heap st) in
     cleanup_control host (VRef lc) st =
       (discard (fst r),
        State (snd r) (st_trace st ++ loaded_log "cleanup_control" f
                         ++ [EvCall f [] [] (st_heap st)]))).
Proof.
  intros Hc Hr. split; intros f Ha r.
  - unfold initialize_control.
    rewrite (bind_Return _ _ _ _ _ (load_func_found _ _ _ _ _ _ _ _ Hc Hr Ha)).
    cbn [truthy]. rewrite bind_ret. cbn [negb]. rewrite call_then_ret. simpl.
    by rewrite <- app_assoc.
  - unfold cleanup_control.
    rewrite (bind_Return _ _ _ _ _ (load_func_found _ _ _ _ _ _ _ _ Hc Hr Ha)).
    cbn [truthy]. rewrite bind_ret. cbn [negb]. rewrite call_then_ret. simpl.
    by rewrite <- app_assoc.
Qed.

End Dispatch.

(** ** [copy.deepcopy] is total, fresh and faithful *)

Definition agree_below (n : nat) (h h' : heap) : Prop :=
  ∀ l, l < n → h' !! l = h !! l.

Definition value_in (S : loc → Prop) (v : value) : Prop :=
  match v with VRef l => S l | _ => True end.

(** [S] is a set of allocated locations closed under "is a child of". *)
Definition reach_closed (S : loc → Prop) (h : heap) : Prop :=
  ∀ l, S l → ∃ o, h !! l = Some o ∧ Forall (value_in S) (obj_children o).

(** How many locations below [k] the memo has not seen yet. *)
Fixpoint count_unseen (m : memo) (k : nat) : nat :=
  match k with
  | 0 => 0
  | S k => (match memo_find k m with Some _ => 0 | None => 1 end)
           + count_unseen m k
  end.

Definition memo_ext (m m' : memo) : Prop :=
  ∀ a a', memo_find a m = Some a' → memo_find a m' = Some a'.

(** The copy of an atom is the atom; the copy of a reference is what the
    memo says. *)
Definition corr (m : memo) (c c' : value) : Prop :=
  match c with
  | VRef a => ∃ a', memo_find a m = Some a' ∧ c' = VRef a'
  | _ => c' = c
  end.

Lemma agree_below_refl n h : agree_below n h h.
Proof. by intros l _. Qed.

Lemma agree_below_trans n h1 h2 h3 :
  agree_below n h1 h2 → agree_below n h2 h3 → agree_below n h1 h3.
Proof. intros H1 H2 l Hl. rewrite (H2 l Hl). by apply H1. Qed.

Lemma agree_below_le (n n' : nat) h h' : n ≤ n' → agree_below n' h h' → agree_below n h h'.
Proof. intros Hle H l Hl. apply H. lia. Qed.

Lemma agree_below_app (n : nat) (h : heap) o : n ≤ length h → agree_below n h (h ++ [o]).
Proof. intros Hn l Hl. apply lookup_app_l. lia. Qed.

Lemma agree_below_insert (n : nat) (h : heap) (l : loc) o : n ≤ l → agree_below n h (<[l := o]> h).
Proof. intros Hn a Ha. apply list_lookup_insert_ne. lia. Qed.

Lemma memo_ext_refl m : memo_ext m m.
Proof. by intros a a'. Qed.

Lemma memo_ext_trans m1 m2 m3 : memo_ext m1 m2 → memo_ext m2 m3 → memo_ext m1 m3.
Proof. intros H1 H2 a a' H. by apply H2, H1. Qed.

Lemma memo_find_cons l l' m a :
  memo_find a ((l, l') :: m) = if Nat.eqb a l then Some l' else memo_find a m.
Proof. reflexivity. Qed.

Lemma memo_ext_cons l l' m : memo_find l m = None → memo_ext m ((l, l') :: m).
Proof.
  intros Hm a a' Ha. rewrite memo_find_cons.
  destruct (Nat.eqb_spec a l) as [->|]; [congruence|done].
Qed.

Lemma corr_ext m m' c c' : memo_ext m m' → corr m c c' → corr m' c c'.
Proof.
  intros He. destruct c; simpl; try done.
  intros (a' & Ha & ->). exists a'. split; [by apply He|done].
Qed.

Lemma count_unseen_ext m m' (k : nat) : memo_ext m m' → count_unseen m' k ≤ count_unseen m k.
Proof.
  intros He. induction k as [|k IH]; simpl; [done|].
  destruct (memo_find k m) as [x|] eqn:E.
  - by rewrite (He _ _ E).
  - destruct (memo_find k m'); lia.
Qed.

Lemma count_unseen_cons (l l' : loc) m (k : nat) :
  memo_find l m = None → l < k →
  count_unseen ((l, l') :: m) k < count_unseen m k.
Proof.
  intros Hm. induction k as [|k IH]; intros Hl; [lia|].
  cbn [count_unseen]. rewrite memo_find_cons.
  destruct (Nat.eqb_spec k l) as [->|Hne].
  - rewrite Hm. pose proof (count_unseen_ext m ((l, l') :: m) l (memo_ext_cons _ _ _ Hm)).
    lia.
  - assert (l < k) as Hlt by lia. specialize (IH Hlt).
    destruct (memo_find k m); lia.
Qed.

Lemma obj_children_rebuild o vs :
  length vs = length (obj_children o) → obj_children (obj_rebuild o vs) = vs.
Proof.
  destruct o as [items|elems]; simpl; [|done].
  rewrite length_map. revert vs. induction items as [|[k v] items IH]; intros [|x vs]; simpl; try done.
  intros [= H]. f_equal. by apply IH.
Qed.

Section Deepcopy.

Variable h : heap.
Variable S : loc → Prop.
Hypothesis HS : reach_closed S h.

(** The entry [a ↦ a'] of the memo is finished: the object at [a'] has the
    shape of the one at [a] and children that correspond. *)
Definition complete (m : memo) (hx : heap) (a a' : loc) : Prop :=
  ∃ o vs, h !! a = Some o ∧ hx !! a' = Some (obj_rebuild o vs)
          ∧ Forall2 (corr m) (obj_children o) vs.

(** The invariant of a copy in progress; [P] lists the containers whose
    children are being copied. *)
Record copy_inv (P : list loc) (m : memo) (hx : heap) : Prop := {
  ci_len : length h ≤ length hx;
  ci_agree : agree_below (length h) h hx;
  ci_range : ∀ a a', memo_find a m = Some a' → S a ∧ length h ≤ a' < length hx;
  ci_inj : ∀ a b x, memo_find a m = Some x → memo_find b m = Some x → a = b;
  ci_reg : ∀ x, length h ≤ x < length hx → ∃ a, memo_find a m = Some x;
  ci_done : ∀ a a', memo_find a m = Some a' → a ∉ P → complete m hx a a'
}.

Definition copy_post (P : list loc) (m : memo) (hx : heap) (m' : memo) (hx' : heap) : Prop :=
  copy_inv P m' hx' ∧ memo_ext m m' ∧ length hx ≤ length hx'
  ∧ agree_below (length hx) hx hx'.

Lemma copy_post_refl P m hx : copy_inv P m hx → copy_post P m hx m hx.
Proof.
  intros Hi. unfold copy_post. split_and!; [done|apply memo_ext_refl|done|apply agree_below_refl].
Qed.

Lemma copy_post_trans P m1 h1 m2 h2 m3 h3 :
  copy_post P m1 h1 m2 h2 → copy_post P m2 h2 m3 h3 → copy_post P m1 h1 m3 h3.
Proof.
  intros (_ & E1 & L1 & A1) (I2 & E2 & L2 & A2). unfold copy_post. split_and!; [done|..].
  - by eapply memo_ext_trans.
  - lia.
  - eapply agree_below_trans; [exact A1|]. by eapply agree_below_le.
Qed.

Lemma complete_mono m hx m' hx' a a' :
  memo_ext m m' → hx' !! a' = hx !! a' →
  complete m hx a a' → complete m' hx' a a'.
Proof.
  intros He Hl (o & vs & Ho & Hx & Hc). exists o, vs. split_and!; [done|congruence|].
  eapply Forall2_impl; [exact Hc|]. intros c c'. by apply corr_ext.
Qed.

Lemma S_allocated l : S l → l < length h.
Proof. intros Hl. destruct (HS l Hl) as (o & Ho & _). by eapply lookup_lt_Some. Qed.

(** Entering a container: its blank copy is allocated and registered. *)
Lemma copy_inv_enter P m hx l o :
  copy_inv P m hx → S l → memo_find l m = None →
  copy_inv (l :: P) ((l, length hx) :: m) (hx ++ [o]).
Proof.
  intros [Hlen Hag Hrg Hinj Hreg Hdone] Hl Hm. split.
  - rewrite length_app. lia.
  - eapply agree_below_trans; [exact Hag|]. by apply agree_below_app.
  - intros a a'. rewrite memo_find_cons, length_app. simpl.
    destruct (Nat.eqb_spec a l) as [->|Hne].
    + intros [= <-]. split; [done|lia].
    + intros Ha. destruct (Hrg _ _ Ha). split; [done|lia].
  - intros a b x. rewrite !memo_find_cons.
    destruct (Nat.eqb_spec a l) as [->|Ha], (Nat.eqb_spec b l) as [->|Hb]; try done.
    + intros [= <-] Hb'. destruct (Hrg _ _ Hb'). lia.
    + intros Ha' [= <-]. destruct (Hrg _ _ Ha'). lia.
    + apply Hinj.
  - intros x. rewrite length_app. intros Hx. cbn [length] in Hx.
    destruct (decide (x = length hx)) as [->|Hne].
    + exists l. rewrite memo_find_cons. by rewrite Nat.eqb_refl.
    + destruct (Hreg x) as [a Ha]; [lia|]. exists a. rewrite memo_find_cons.
      destruct (Nat.eqb_spec a l) as [->|]; [congruence|done].
  - intros a a'. rewrite memo_find_cons.
    destruct (Nat.eqb_spec a l) as [->|Hne].
    + intros _ Hn. exfalso. apply Hn. by left.
    + intros Ha Hn. eapply complete_mono; [by apply memo_ext_cons| |apply Hdone; [done|]].
      * apply lookup_app_l. destruct (Hrg _ _ Ha). lia.
      * intros Hin. apply Hn. by right.
Qed.

(** Leaving a container: the copied children are stored in its copy. *)
Lemma copy_inv_leave P m hx l l' o vs :
  copy_inv (l :: P) m hx → memo_find l m = Some l' → h !! l = Some o →
  Forall2 (corr m) (obj_children o) vs →
  copy_inv P m (<[l' := obj_rebuild o vs]> hx).
Proof.
  intros [Hlen Hag Hrg Hinj Hreg Hdone] Hm Ho Hc.
  destruct (Hrg _ _ Hm) as [_ Hl']. split.
  - by rewrite length_insert.
  - eapply agree_below_trans; [exact Hag|]. apply agree_below_insert. lia.
  - intros a a' Ha. rewrite length_insert. by apply Hrg.
  - done.
  - intros x. rewrite length_insert. apply Hreg.
  - intros a a' Ha Hn. destruct (decide (a = l)) as [->|Hne].
    + assert (a' = l') as -> by congruence.
      exists o, vs. split_and!; [done| |done].
      apply list_lookup_insert_eq. lia.
    + eapply complete_mono; [apply memo_ext_refl| |apply Hdone; [done|]].
      * apply list_lookup_insert_ne. intros ->. apply Hne. symmetry. by eapply Hinj.
      * intros Hin. apply list_elem_of_In in Hin. destruct Hin as [->|Hin]; [done|].
        apply Hn. by apply list_elem_of_In.
Qed.

Definition copy_ok (fuel : nat) : Prop :=
  ∀ P v m hx,
    copy_inv P m hx → value_in S v → count_unseen m (length h) ≤ fuel →
    ∃ v' m' hx', deepcopy_rec fuel v m hx = Some (v', m', hx')
                 ∧ copy_post P m hx m' hx' ∧ corr m' v v'.

Lemma copy_each_ok fuel :
  copy_ok fuel →
  ∀ vs P m hx,
    copy_inv P m hx → Forall (value_in S) vs → count_unseen m (length h) ≤ fuel →
    ∃ vs' m' hx', copy_each (deepcopy_rec fuel) vs m hx = Some (vs', m', hx')
                  ∧ copy_post P m hx m' hx' ∧ Forall2 (corr m') vs vs'.
Proof.
  intros IH vs. induction vs as [|v vs IHvs]; intros P m hx Hi Hvs Hf.
  - exists [], m, hx. split_and!; [done|by apply copy_post_refl|constructor].
  - apply Forall_cons in Hvs as [Hv Hvs].
    destruct (IH P v m hx Hi Hv Hf) as (v' & m1 & h1 & E1 & Hp1 & Hc1).
    pose proof Hp1 as (Hi1 & He1 & _).
    destruct (IHvs P m1 h1 Hi1 Hvs) as (vs' & m2 & h2 & E2 & Hp2 & Hc2).
    { pose proof (count_unseen_ext m m1 (length h) He1). lia. }
    exists (v' :: vs'), m2, h2. split_and!.
    + simpl. by rewrite E1, E2.
    + by eapply copy_post_trans.
    + constructor; [|done]. destruct Hp2 as (_ & He2 & _). by eapply corr_ext.
Qed.

Lemma deepcopy_rec_ok fuel : copy_ok fuel.
Proof.
  induction fuel as [|fuel IH]; intros P v m hx Hi Hv Hf;
    (destruct v as [| | | | |l];
     [by eexists _, m, hx; split_and!; [done|by apply copy_post_refl|done]..|]);
    simpl in Hv; pose proof (S_allocated l Hv) as Hl;
    cbn [deepcopy_rec]; destruct (memo_find l m) as [l'|] eqn:Hm;
    try (by exists (VRef l'), m, hx; split_and!;
           [done|by apply copy_post_refl|by exists l']).
  - pose proof (count_unseen_cons l (length hx) m (length h) Hm Hl). lia.
  - destruct (HS l Hv) as (o & Ho & Hch).
    rewrite (ci_agree _ _ _ Hi l Hl), Ho.
    pose proof (copy_inv_enter P m hx l (obj_blank o) Hi Hv Hm) as Hi0.
    destruct (copy_each_ok fuel IH (obj_children o) _ _ _ Hi0 Hch)
      as (vs & m' & hx' & E & (Hi' & He' & Hlen' & Hag') & Hc).
    { pose proof (count_unseen_cons l (length hx) m (length h) Hm Hl). lia. }
    rewrite E. rewrite length_app in Hlen'. cbn [length] in Hlen'.
    assert (memo_find l m' = Some (length hx)) as Hm'.
    { apply He'. rewrite memo_find_cons. by rewrite Nat.eqb_refl. }
    eexists _, m', _. split_and!; [done| |by exists (length hx)].
    unfold copy_post. split_and!.
    + by eapply copy_inv_leave.
    + eapply memo_ext_trans; [by apply memo_ext_cons|done].
    + rewrite length_insert. lia.
    + intros a Ha. rewrite list_lookup_insert_ne by lia.
      rewrite Hag' by (rewrite length_app; simpl; lia).
      apply lookup_app_l. lia.
Qed.

End Deepcopy.

#[local] Set Warnings "-register-all".

(** What a value looks like from outside, down to depth [k]: the contents
    of the containers it leads to, without their addresses. *)
Inductive tree :=
| TAtom (v : value)
| TDict (items : list (string * tree))
| TList (elems : list tree)
| TCut
| TDangling.

Fixpoint unfold (k : nat) (h : heap) (v : value) : tree :=
  match v with
  | VRef l =>
      match k with
      | 0 => TCut
      | S k =>
          match h !! l with
          | Some (ODict items) =>
              TDict (map (λ kv, (fst kv, unfold k h (snd kv))) items)
          | Some (OList elems) => TList (map (unfold k h) elems)
          | None => TDangling
          end
      end
  | _ => TAtom v
  end.

Definition value_within (lo hi : nat) (v : value) : Prop :=
  match v with VRef l => lo ≤ l < hi | _ => True end.

(** The objects from [n] on only refer to objects from [n] on. *)
Definition isolated (n : nat) (h : heap) : Prop :=
  ∀ l o, n ≤ l → h !! l = Some o →
         Forall (value_within n (length h)) (obj_children o).

Lemma Forall2_length_eq {A B} (R : A → B → Prop) xs ys :
  Forall2 R xs ys → length ys = length xs.
Proof. induction 1; simpl; congruence. Qed.

Section DeepcopyTop.

Variable h : heap.
Variable S : loc → Prop.
Hypothesis HS : reach_closed S h.

Lemma copy_inv_init : copy_inv h S [] [] h.
Proof.
  split; try done. intros x Hx. lia.
Qed.

Lemma count_unseen_nil (k : nat) : count_unseen [] k ≤ k.
Proof. induction k; simpl; lia. Qed.

Lemma deepcopy_rec_total v :
  value_in S v →
  ∃ v' m' h', deepcopy_rec (length h) v [] h = Some (v', m', h')
              ∧ copy_post h S [] [] h m' h' ∧ corr m' v v'.
Proof.
  intros Hv. apply (deepcopy_rec_ok h S HS (length h) [] v [] h); [|done|].
  - apply copy_inv_init.
  - apply count_unseen_nil.
Qed.

Lemma copy_inv_isolated m' h' : copy_inv h S [] m' h' → isolated (length h) h'.
Proof.
  intros Hi x o Hx Ho.
  destruct (ci_reg _ _ _ _ _ Hi x) as [a Ha].
  { split; [done|]. by eapply lookup_lt_Some. }
  destruct (ci_done _ _ _ _ _ Hi a x Ha) as (o0 & vs & Ho0 & Hx' & Hc).
  { by intros ?%not_elem_of_nil. }
  assert (o = obj_rebuild o0 vs) as -> by congruence.
  rewrite obj_children_rebuild by (by eapply Forall2_length_eq).
  clear Hx' Ho. induction Hc as [|c c' cs cs' Hcc Hcs IH]; constructor; [|done].
  destruct c; simpl in Hcc; subst; try done.
  destruct Hcc as (a' & Ha' & ->). simpl. by destruct (ci_range _ _ _ _ _ Hi _ _ Ha').
Qed.

Lemma corr_within m' h' v v' :
  copy_inv h S [] m' h' → corr m' v v' → value_within (length h) (length h') v'.
Proof.
  intros Hi. destruct v; simpl; intros Hc; subst; try done.
  destruct Hc as (a' & Ha' & ->). simpl. by destruct (ci_range _ _ _ _ _ Hi _ _ Ha').
Qed.

Lemma corr_unfold m' h' :
  copy_inv h S [] m' h' →
  ∀ k c c', corr m' c c' → unfold k h' c' = unfold k h c.
Proof.
  intros Hi k. induction k as [|k IH]; intros c c' Hc.
  - destruct c; simpl in Hc; subst; try done. by destruct Hc as (a' & _ & ->).
  - destruct c; simpl in Hc; subst; try done.
    destruct Hc as (a' & Ha' & ->).
    destruct (ci_done _ _ _ _ _ Hi _ _ Ha') as (o & vs & Ho & Hx & Hcs).
    { by intros ?%not_elem_of_nil. }
    cbn [unfold]. rewrite Ho, Hx. destruct o as [items|elems]; simpl in *.
    + f_equal. clear Ho Hx. revert vs Hcs.
      induction items as [|[key x] items IHi]; intros vs Hcs;
        inversion Hcs; subst; simpl; [done|].
      f_equal; [|by apply IHi]. f_equal. by apply IH.
    + f_equal. clear Ho Hx. induction Hcs; simpl; [done|]. f_equal; [by apply IH|done].
Qed.

End DeepcopyTop.

(** The specification of [deepcopy]: on a heap where everything [v] leads
    to is allocated, the copy exists, consists of new objects that refer
    to new objects only, leaves every old object as it was, and looks like
    the original. *)
Lemma deepcopy_spec (S : loc → Prop) v st :
  reach_closed S (st_heap st) → value_in S v →
  ∃ v' h',
    deepcopy v st = (Return v', State h' (st_trace st ++ [EvDeepcopy v v' h']))
    ∧ length (st_heap st) ≤ length h'
    ∧ agree_below (length (st_heap st)) (st_heap st) h'
    ∧ isolated (length (st_heap st)) h'
    ∧ value_within (length (st_heap st)) (length h') v'
    ∧ ∀ k, unfold k h' v' = unfold k (st_heap st) v.
Proof.
  intros HS Hv.
  destruct (deepcopy_rec_total _ _ HS v Hv) as (v' & m' & h' & E & (Hi & _ & Hlen & Hag) & Hc).
  exists v', h'. split_and!; try done.
  - unfold deepcopy, bind, get_heap. simpl. by rewrite E.
  - by eapply copy_inv_isolated.
  - by eapply corr_within.
  - intros k. by eapply corr_unfold.
Qed.

(** ** Running the primitives *)

(** The truth value of [v] in heap [h]. *)
Definition truthyb (h : heap) (v : value) : bool :=
  match v with
  | VNone => false
  | VBool b => b
  | VInt z => negb (Z.eqb z 0%Z)
  | VStr s => negb (is_empty_string s)
  | VFunc _ => true
  | VRef l =>
      match h !! l with
      | Some (ODict (_ :: _)) | Some (OList (_ :: _)) => true
      | _ => false
      end
  end.

(** Every reference stored in the heap, and [v] itself, is allocated. *)
Definition heap_closed (h : heap) : Prop := reach_closed (λ l, l < length h) h.

Lemma truthy_run v st :
  value_within 0 (length (st_heap st)) v →
  truthy v st = (Return (truthyb (st_heap st) v), st).
Proof.
  destruct v as [| | | | |l]; try done. simpl. intros [_ Hl].
  destruct (lookup_lt_is_Some_2 (st_heap st) l Hl) as [o Ho].
  unfold bind. rewrite (deref_ok _ _ _ Ho), Ho. by destruct o as [[|??]|[|??]].
Qed.

Lemma lookup_snoc_last {A} (l : list A) x : (l ++ [x]) !! length l = Some x.
Proof. by apply list_lookup_middle. Qed.

Lemma alloc_run o st :
  alloc o st = (Return (VRef (length (st_heap st))),
                State (st_heap st ++ [o]) (st_trace st)).
Proof. reflexivity. Qed.

Lemma setitem_dict l k v items st :
  st_heap st !! l = Some (ODict items) →
  setitem (VRef l) k v st =
    (Return tt, State (<[l := ODict (assoc_set k v items)]> (st_heap st)) (st_trace st)).
Proof.
  intros E. unfold setitem. by rewrite (bind_Return _ _ _ _ _ (deref_ok _ _ _ E)).
Qed.

Lemma shallow_copy_ref l o st :
  st_heap st !! l = Some o →
  shallow_copy (VRef l) st =
    (Return (VRef (length (st_heap st))), State (st_heap st ++ [o]) (st_trace st)).
Proof.
  intros E. unfold shallow_copy. by rewrite (bind_Return _ _ _ _ _ (deref_ok _ _ _ E)).
Qed.

Lemma dict_get_str l items s st :
  st_heap st !! l = Some (ODict items) →
  dict_get (VRef l) (VStr s) (alloc (ODict [])) st =
    (Return (default (VRef (length (st_heap st))) (assoc_get s items)),
     State (st_heap st ++ [ODict []]) (st_trace st)).
Proof.
  intros E. unfold dict_get. by rewrite (bind_Return _ _ _ _ _ (deref_ok _ _ _ E)).
Qed.

Lemma dict_get_ret l items s d st :
  st_heap st !! l = Some (ODict items) →
  dict_get (VRef l) (VStr s) (ret d) st
  = (Return (default d (assoc_get s items)), st).
Proof.
  intros E. unfold dict_get. by rewrite (bind_Return _ _ _ _ _ (deref_ok _ _ _ E)).
Qed.

Lemma dict_update_dict lt ls items sitems st :
  st_heap st !! lt = Some (ODict items) →
  st_heap st !! ls = Some (ODict sitems) →
  dict_update (VRef lt) (VRef ls) st =
    (Return tt,
     State (<[lt := ODict (assoc_update items sitems)]> (st_heap st)) (st_trace st)).
Proof.
  intros E Es. unfold dict_update.
  rewrite (bind_Return _ _ _ _ _ (deref_ok _ _ _ E)).
  rewrite (bind_Return _ _ _ _ _ (deref_ok _ _ _ Es)).
  by rewrite (bind_Return _ _ _ _ _ (deref_ok _ _ _ E)).
Qed.

Lemma iterate_list l elems st :
  st_heap st !! l = Some (OList elems) →
  iterate (VRef l) st = (Return elems, st).
Proof.
  intros E. unfold iterate. by rewrite (bind_Return _ _ _ _ _ (deref_ok _ _ _ E)).
Qed.

(** Splitting a string into its characters loses nothing. *)
Lemma characters_join s : foldr String.append "" (characters s) = s.
Proof.
  induction s as [|a s IH]; [done|]. simpl.
  destruct (characters s) as [|c cs] eqn:E.
  - simpl in *. by rewrite <- IH.
  - destruct (starts_with_continuation s); simpl in *; by rewrite <- IH.
Qed.

Lemma assoc_get_In {A} k (kvs : list (string * A)) v :
  assoc_get k kvs = Some v → In v (map snd kvs).
Proof.
  induction kvs as [|[k' v'] kvs IH]; simpl; [done|].
  destruct (String.eqb k k'); [intros [= ->]; by left|]. intros H. right. by apply IH.
Qed.

Lemma reach_closed_child S h l items k v :
  reach_closed S h → S l → h !! l = Some (ODict items) →
  assoc_get k items = Some v → value_in S v.
Proof.
  intros Hc HSl Hl Hk. destruct (Hc l HSl) as (o & Ho & Hch).
  assert (o = ODict items) as -> by congruence. simpl in Hch.
  rewrite Forall_forall in Hch. apply Hch. apply list_elem_of_In.
  by eapply assoc_get_In.
Qed.

(** The empty dictionary [get] builds as a default joins a closed set. *)
Lemma reach_closed_app (n : nat) (h : heap) :
  n ≤ length h → reach_closed (λ l, l < n) h →
  reach_closed (λ l, l < n ∨ l = length h) (h ++ [ODict []]).
Proof.
  intros Hn Hc l [Hl| ->].
  - destruct (Hc l Hl) as (o & Ho & Hch). exists o. split.
    + rewrite lookup_app_l; [done|by eapply lookup_lt_Some].
    + eapply Forall_impl; [exact Hch|]. intros [] Hv; try done. by left.
  - exists (ODict []). split; [apply lookup_snoc_last|by constructor].
Qed.

Lemma value_in_within (n m : nat) v :
  n ≤ m → value_in (λ l, l < n) v → value_within 0 m v.
Proof. intros Hle. destruct v; try done. simpl. lia. Qed.

(** ** The phases of [apply_python_control] *)

Section Phases.

Context (host : Host).

(** The body of the loop over the provider's secret group names. *)
Definition secrets_loop_body (arguments secrets s : value) : M unit :=
  target <- getitem arguments "secrets" ;;
  group <- dict_get secrets s (alloc (ODict [])) ;;
  group_copy <- shallow_copy group ;;
  dict_update target group_copy.

Definition inject_secrets (provider arguments secrets : value) : M unit :=
  fresh <- alloc (ODict []) ;;
  setitem arguments "secrets" fresh ;;;
  names <- getitem provider "secrets" ;;
  items <- iterate names ;;
  for_each items (secrets_loop_body arguments secrets).

Definition inject_configuration (arguments configuration : value) : M unit :=
  conf_copy <- shallow_copy configuration ;;
  setitem arguments "configuration" conf_copy.

(** From the injection of the configuration to the call of the hook. *)
Definition apply_finish (func context state configuration : value)
    (params : list string) (arguments : value) : M unit :=
  (if bool_decide ("configuration" ∈ params)
   then inject_configuration arguments configuration else ret tt) ;;;
  (if bool_decide ("state" ∈ params) then setitem arguments "state" state
   else ret tt) ;;;
  call_with_context host func context arguments ;;;
  ret tt.

(** What [apply_python_control] does with the assembled [arguments] once
    the substitution pass is over. *)
Definition apply_tail (func provider context state configuration secrets
                       arguments : value) : M unit :=
  params <- signature func ;;
  has_secrets <- contains "secrets" provider ;;
  (if has_secrets && bool_decide ("secrets" ∈ params)
   then inject_secrets provider arguments secrets else ret tt) ;;;
  apply_finish func context state configuration params arguments.

Lemma apply_python_control_eq level control context state configuration secrets :
  apply_python_control host level control context state configuration secrets =
  (provider <- getitem control "provider" ;;
   func <- load_func host control (level_mapping_get level) ;;
   t <- truthy func ;;
   if negb t then ret tt
   else
   template <- dict_get provider (VStr "arguments") (alloc (ODict [])) ;;
   arguments <- deepcopy template ;;
   tc <- truthy configuration ;;
   ts <- (if tc then ret true else truthy secrets) ;;
   arguments <- (if ts then substitute host arguments configuration secrets
                 else ret arguments) ;;
   apply_tail func provider context state configuration secrets arguments).
Proof. reflexivity. Qed.

(** The hook of [level] resolves to the function [f] in the module of the
    control at [lc], whose provider is the dictionary [pitems] at [lp]. *)
Record resolved (h : heap) (level : string) (lc lp : loc)
    (pitems : list (string * value)) (fname : string) (f : func) : Prop := {
  rs_control : ∃ citems, h !! lc = Some (ODict citems)
                         ∧ assoc_get "provider" citems = Some (VRef lp);
  rs_provider : h !! lp = Some (ODict pitems);
  rs_module : ∃ mp md, assoc_get "module" pitems = Some (VStr mp)
                       ∧ resolve_module host mp = Loaded md
                       ∧ assoc_get fname md = Some (VFunc f);
  rs_level : assoc_get level _level_mapping = Some fname
}.

Lemma resolved_control_at h level lc lp pitems fname f :
  resolved h level lc lp pitems fname f →
  ∃ mp md, control_at h lc lp (VStr mp) ∧ resolve_module host mp = Loaded md
           ∧ assoc_get fname md = Some (VFunc f).
Proof.
  intros [(citems & Hc & Hp) Hpo (mp & md & Hm & Hr & Hf) _].
  exists mp, md. split_and!; try done. by exists citems, pitems.
Qed.

(** The provider's argument template, or the empty dictionary [get] made. *)
Definition template_of (h : heap) (pitems : list (string * value)) : value :=
  default (VRef (length h)) (assoc_get "arguments" pitems).

Lemma truthyb_agree (n : nat) h h' v :
  value_within 0 n v → agree_below n h h' →
  truthyb h' v = truthyb h v.
Proof.
  destruct v as [| | | | |l]; try done. simpl. intros [_ Hl] Ha. by rewrite Ha.
Qed.

(** Up to the substitution pass: the hook is resolved, the template is
    deep-copied, and the pass runs when the configuration or the secrets
    are true. *)
Lemma apply_prefix (n : nat) level lc lp pitems fname f context stt conf secr st :
  let h := st_heap st in
  resolved h level lc lp pitems fname f →
  n ≤ length h → reach_closed (λ l, l < n) h → lp < n →
  value_within 0 n conf → value_within 0 n secr →
  ∃ a0 h2,
    let tv := template_of h pitems in
    let h1 := h ++ [ODict []] in
    length h1 ≤ length h2
    ∧ agree_below (length h1) h1 h2
    ∧ isolated (length h1) h2
    ∧ value_within (length h1) (length h2) a0
    ∧ (∀ k, unfold k h2 a0 = unfold k h1 tv)
    ∧ apply_python_control host level (VRef lc) context stt conf secr st =
      (arguments <- (if truthyb h conf || truthyb h secr
                     then substitute host a0 conf secr else ret a0) ;;
       apply_tail (VFunc f) (VRef lp) context stt conf secr arguments)
      (State h2 (st_trace st ++ loaded_log fname f ++ [EvDeepcopy tv a0 h2])).
Proof.
  intros h Hres Hn Hcl Hlp Hconf Hsecr.
  destruct (resolved_control_at _ _ _ _ _ _ _ Hres) as (mp & md & Hc & Hr & Hf).
  set (h1 := h ++ [ODict []]).
  set (st1 := State h1 (st_trace st ++ loaded_log fname f)).
  assert (value_in (λ l, l < n ∨ l = length h) (template_of h pitems)) as Htv.
  { unfold template_of.
    destruct (assoc_get "arguments" pitems) as [v|] eqn:E; simpl; [|by right].
    pose proof (reach_closed_child _ _ _ _ _ _ Hcl Hlp (rs_provider _ _ _ _ _ _ _ Hres) E) as Hv.
    destruct v; try done. by left. }
  destruct (deepcopy_spec _ (template_of h pitems) st1 (reach_closed_app n h Hn Hcl) Htv)
    as (a0 & h2 & Hd & Hlen & Hag & Hiso & Hw & Hun).
  exists a0, h2. split_and!; try done.
  rewrite apply_python_control_eq.
  rewrite (bind_Return _ _ _ _ _ (control_at_provider _ _ _ _ Hc)).
  rewrite (level_mapping_get_known _ _ (rs_level _ _ _ _ _ _ _ Hres)).
  rewrite (bind_Return _ _ _ _ _ (load_func_found _ _ _ _ _ _ _ _ Hc Hr Hf)).
  cbn [truthy]. rewrite bind_ret. cbn [negb].
  erewrite bind_Return; cycle 1.
  { apply dict_get_str. exact (rs_provider _ _ _ _ _ _ _ Hres). }
  fold h h1. change (State h1 (st_trace (add_events st (loaded_log fname f)))) with st1.
  change (default (VRef (length (st_heap (add_events st (loaded_log fname f)))))
                  (assoc_get "arguments" pitems)) with (template_of h pitems).
  rewrite (bind_Return _ _ _ _ _ Hd).
  assert (length h ≤ length h2) as Hlen0.
  { simpl in Hlen. unfold h1 in Hlen. rewrite length_app in Hlen. simpl in Hlen. lia. }
  assert (agree_below n h h2) as Hag0.
  { eapply agree_below_trans; [by apply (agree_below_app n h (ODict []))|].
    eapply agree_below_le; [|exact Hag]. simpl. unfold h1. rewrite length_app. simpl. lia. }
  erewrite bind_Return; cycle 1.
  { apply truthy_run. simpl. destruct conf; try done. simpl in *. lia. }
  simpl st_heap. rewrite (truthyb_agree n h h2 conf Hconf Hag0).
  destruct (truthyb h conf) eqn:Etc.
  - rewrite bind_ret. simpl. by rewrite <- app_assoc.
  - erewrite bind_Return; cycle 1.
    { apply truthy_run. simpl. destruct secr; try done. simpl in *. lia. }
    simpl st_heap. rewrite (truthyb_agree n h h2 secr Hsecr Hag0). simpl.
    by rewrite <- app_assoc.
Qed.

End Phases.

(** ** Injecting the secrets *)

(** The entries of the group named [s] in the secrets store [store]; a
    name the store does not have stands for the empty group. *)
Definition group_items (h : heap) (store : list (string * value)) (s : string)
  : list (string * value) :=
  match assoc_get s store with
  | Some (VRef lg) =>
      match h !! lg with
      | Some (ODict gi) => gi
      | _ => []
      end
  | _ => []
  end.

(** What the loop of [apply_python_control] builds: the groups are poured
    one after the other into the dictionary [acc]. *)
Definition merge_into (h : heap) (store : list (string * value))
    (acc : list (string * value)) (names : list string) : list (string * value) :=
  fold_left (λ acc s, assoc_update acc (group_items h store s)) names acc.

(** Every group of the store is a dictionary. *)
Definition store_ok (h : heap) (store : list (string * value)) : Prop :=
  ∀ s g, assoc_get s store = Some g →
         ∃ lg gi, g = VRef lg ∧ h !! lg = Some (ODict gi).

Lemma secrets_loop_run h0 la ls lsec store names :
  h0 !! lsec = Some (ODict store) → store_ok h0 store →
  length h0 ≤ la → length h0 ≤ ls → la ≠ ls →
  ∀ acc st,
    agree_below (length h0) h0 (st_heap st) →
    (∃ items, st_heap st !! la = Some (ODict items)
              ∧ assoc_get "secrets" items = Some (VRef ls)) →
    st_heap st !! ls = Some (ODict acc) →
    ∃ hx', for_each (map VStr names) (secrets_loop_body (VRef la) (VRef lsec)) st
             = (Return tt, State hx' (st_trace st))
           ∧ length (st_heap st) ≤ length hx'
           ∧ (∀ l, l < length (st_heap st) → l ≠ ls → hx' !! l = st_heap st !! l)
           ∧ hx' !! ls = Some (ODict (merge_into h0 store acc names)).
Proof.
  intros Hsec Hok Hla Hls Hne.
  induction names as [|s names IH]; intros acc [hx tr] Hag (items & Hitems & Hsk) Hacc;
    simpl in *.
  - exists hx. by split_and!.
  - pose proof (lookup_lt_Some _ _ _ Hsec) as Hlsec.
    pose proof (lookup_lt_Some _ _ _ Hitems) as Hla'.
    pose proof (lookup_lt_Some _ _ _ Hacc) as Hls'.
    assert (hx !! lsec = Some (ODict store)) as Hsec' by (by rewrite Hag).
    set (h1 := hx ++ [ODict []]).
    set (gi := group_items h0 store s).
    assert (∃ lg, default (VRef (length hx)) (assoc_get s store) = VRef lg
                  ∧ h1 !! lg = Some (ODict gi)) as (lg & Hg & Hlg).
    { unfold gi, group_items. destruct (assoc_get s store) as [g|] eqn:Eg; simpl.
      - destruct (Hok _ _ Eg) as (lg & gi' & -> & Hgi). exists lg. split; [done|].
        rewrite Hgi. unfold h1. rewrite lookup_app_l by (apply lookup_lt_Some in Hgi; lia).
        rewrite Hag by (by eapply lookup_lt_Some). done.
      - exists (length hx). split; [done|]. apply lookup_snoc_last. }
    set (h2 := h1 ++ [ODict gi]).
    set (h3 := <[ls := ODict (assoc_update acc gi)]> h2).
    assert (length h1 = Datatypes.S (length hx)) as Hl1
      by (unfold h1; rewrite length_app; simpl; lia).
    assert (length h2 = Datatypes.S (Datatypes.S (length hx))) as Hl2
      by (unfold h2; rewrite length_app; simpl; lia).
    assert (∀ l, l < length hx → l ≠ ls → h3 !! l = hx !! l) as Hfr.
    { intros l Hl Hn. unfold h3, h2, h1.
      rewrite list_lookup_insert_ne by done. rewrite !lookup_app_l; [done|lia|].
      rewrite length_app. simpl. lia. }
    destruct (IH (assoc_update acc gi) (State h3 tr)) as (hx' & E & Hlen & Hfr' & Hm).
    { intros l Hl. simpl. destruct (decide (l = ls)) as [->|Hnl]; [lia|].
      rewrite Hfr; [by apply Hag|lia|done]. }
    { exists items. simpl. split; [|done]. rewrite Hfr; [done|lia|done]. }
    { simpl. unfold h3. apply list_lookup_insert_eq. lia. }
    simpl in *. exists hx'. split_and!.
    + assert (secrets_loop_body (VRef la) (VRef lsec) (VStr s) (State hx tr)
              = (Return tt, State h3 tr)) as Hbody.
      { unfold secrets_loop_body.
        rewrite (bind_Return _ _ _ _ _
                   (getitem_dict "secrets" la items (VRef ls) (State hx tr) Hitems Hsk)).
        erewrite bind_Return; cycle 1.
        { by apply (dict_get_str lsec store s (State hx tr)). }
        simpl st_heap. rewrite Hg.
        erewrite bind_Return; cycle 1.
        { apply (shallow_copy_ref lg (ODict gi)). exact Hlg. }
        cbn [st_heap st_trace]. fold h1 h2.
        rewrite (dict_update_dict ls (length h1) acc gi (State h2 tr)).
        - done.
        - simpl. unfold h2, h1. rewrite !lookup_app_l; [done|lia|].
          rewrite length_app. simpl. lia.
        - simpl. unfold h2. apply lookup_snoc_last. }
      rewrite (bind_Return _ _ _ _ _ Hbody). exact E.
    + assert (length h3 = length h2) by (unfold h3; by rewrite length_insert). lia.
    + intros l Hl Hn. rewrite Hfr'; [by apply Hfr| |done].
      unfold h3. rewrite length_insert. lia.
    + exact Hm.
Qed.

Lemma assoc_get_set_eq {A} k (v : A) kvs : assoc_get k (assoc_set k v kvs) = Some v.
Proof.
  induction kvs as [|[k' v'] kvs IH]; simpl.
  - by rewrite String.eqb_refl.
  - destruct (String.eqb k k') eqn:E; simpl; [by rewrite String.eqb_refl|].
    by rewrite E.
Qed.

Lemma assoc_get_set_ne {A} k k' (v : A) kvs :
  k ≠ k' → assoc_get k (assoc_set k' v kvs) = assoc_get k kvs.
Proof.
  intros Hne. assert (String.eqb k k' = false) as Ekk by (by apply String.eqb_neq).
  induction kvs as [|[k0 v0] kvs IH]; simpl.
  - by rewrite Ekk.
  - destruct (String.eqb k' k0) eqn:E; simpl.
    + apply String.eqb_eq in E as <-. by rewrite Ekk.
    + by rewrite IH.
Qed.

Section InjectSecrets.

Variable h0 : heap.
Variables (lp la ln : loc) (pitems items : list (string * value)) (names : list string).
Variable st : state.
Hypothesis Hag : agree_below (length h0) h0 (st_heap st).
Hypothesis Hprov : h0 !! lp = Some (ODict pitems).
Hypothesis Hdecl : assoc_get "secrets" pitems = Some (VRef ln).
Hypothesis Hnames : h0 !! ln = Some (OList (map VStr names)).
Hypothesis Hla : length h0 ≤ la.
Hypothesis Hitems : st_heap st !! la = Some (ODict items).

(** The state in which the loop over the group names starts: a new empty
    dictionary is bound to [arguments["secrets"]]. *)
Definition secrets_start : state :=
  State (<[la := ODict (assoc_set "secrets" (VRef (length (st_heap st))) items)]>
           (st_heap st ++ [ODict []]))
        (st_trace st).

Lemma secrets_start_frame l :
  l < length (st_heap st) → l ≠ la → st_heap secrets_start !! l = st_heap st !! l.
Proof.
  intros Hl Hn. simpl. rewrite list_lookup_insert_ne by done. by apply lookup_app_l.
Qed.

Lemma secrets_start_length : length (st_heap secrets_start) = Datatypes.S (length (st_heap st)).
Proof. simpl. rewrite length_insert, length_app. simpl. lia. Qed.

Lemma secrets_start_arguments :
  st_heap secrets_start !! la
  = Some (ODict (assoc_set "secrets" (VRef (length (st_heap st))) items)).
Proof.
  simpl. apply list_lookup_insert_eq. rewrite length_app.
  apply lookup_lt_Some in Hitems. lia.
Qed.

Lemma secrets_start_fresh :
  st_heap secrets_start !! length (st_heap st) = Some (ODict []).
Proof.
  simpl. rewrite list_lookup_insert_ne.
  - apply lookup_snoc_last.
  - apply lookup_lt_Some in Hitems. lia.
Qed.

Lemma secrets_start_agree : agree_below (length h0) h0 (st_heap secrets_start).
Proof.
  intros l Hl. pose proof (lookup_lt_Some _ _ _ Hitems).
  assert (l < length (st_heap st)) as Hl'.
  { destruct (st_heap st !! l) eqn:E; [by eapply lookup_lt_Some|].
    rewrite Hag in E by done. apply lookup_ge_None in E. lia. }
  rewrite secrets_start_frame by lia. by apply Hag.
Qed.

Lemma inject_secrets_start secr :
  inject_secrets (VRef lp) (VRef la) secr st =
  for_each (map VStr names) (secrets_loop_body (VRef la) secr) secrets_start.
Proof.
  unfold inject_secrets. rewrite (bind_Return _ _ _ _ _ (alloc_run _ _)).
  erewrite bind_Return; cycle 1.
  { apply (setitem_dict la "secrets" _ items). simpl.
    rewrite lookup_app_l; [done|by eapply lookup_lt_Some]. }
  fold secrets_start.
  erewrite bind_Return; cycle 1.
  { apply (getitem_dict "secrets" lp pitems (VRef ln)); [|done].
    rewrite secrets_start_agree; [done|by eapply lookup_lt_Some]. }
  erewrite bind_Return; cycle 1.
  { apply (iterate_list ln (map VStr names)).
    rewrite secrets_start_agree; [done|by eapply lookup_lt_Some]. }
  done.
Qed.

(** With a store of dictionaries, the secrets are injected. *)
Lemma inject_secrets_ok lsec store :
  h0 !! lsec = Some (ODict store) → store_ok h0 store →
  ∃ hx', inject_secrets (VRef lp) (VRef la) (VRef lsec) st
           = (Return tt, State hx' (st_trace st))
         ∧ length (st_heap st) < length hx'
         ∧ (∀ l, l < length (st_heap st) → l ≠ la → hx' !! l = st_heap st !! l)
         ∧ hx' !! la
           = Some (ODict (assoc_set "secrets" (VRef (length (st_heap st))) items))
         ∧ hx' !! length (st_heap st)
           = Some (ODict (merge_into h0 store [] names)).
Proof.
  intros Hsec Hok. pose proof (lookup_lt_Some _ _ _ Hitems) as Hlt.
  destruct (secrets_loop_run h0 la (length (st_heap st)) lsec store names Hsec Hok Hla)
    with (acc := @nil (string * value)) (st := secrets_start)
    as (hx' & E & Hlen & Hfr & Hm).
  - pose proof (lookup_lt_Some _ _ _ Hitems).
    destruct (decide (length h0 ≤ length (st_heap st))); [done|].
    lia.
  - lia.
  - apply secrets_start_agree.
  - eexists. split; [apply secrets_start_arguments|apply assoc_get_set_eq].
  - apply secrets_start_fresh.
  - rewrite secrets_start_length in Hlen, Hfr.
    exists hx'. split_and!.
    + by rewrite inject_secrets_start.
    + lia.
    + intros l Hl Hn. rewrite Hfr by lia. by apply secrets_start_frame.
    + rewrite Hfr by lia. apply secrets_start_arguments.
    + done.
Qed.

(** With no group name to visit, the secrets store is not looked at. *)
Lemma inject_secrets_nil secr :
  names = [] →
  inject_secrets (VRef lp) (VRef la) secr st = (Return tt, secrets_start).
Proof. intros E. rewrite inject_secrets_start. by rewrite E. Qed.

(** With a group name to visit and no secrets store, [secrets.get] is an
    attribute access on [None]. *)
Lemma inject_secrets_none :
  names ≠ [] →
  inject_secrets (VRef lp) (VRef la) VNone st = (Raise AttributeError, secrets_start).
Proof.
  intros Hne. rewrite inject_secrets_start.
  destruct names as [|s ns]; [done|]. simpl.
  unfold secrets_loop_body.
  erewrite bind_Raise; [done|].
  erewrite bind_Return; cycle 1.
  { eapply getitem_dict; [apply secrets_start_arguments|apply assoc_get_set_eq]. }
  done.
Qed.

End InjectSecrets.

(** ** From the injection of the configuration to the call *)

Section Finish.

Context (host : Host).
Variables (f : func) (context stt conf : value).
Variables (la : loc) (items : list (string * value)).
Variable st : state.
Hypothesis Hitems : st_heap st !! la = Some (ODict items).

Let want_conf := bool_decide ("configuration" ∈ fn_params f).
Let want_state := bool_decide ("state" ∈ fn_params f).

(** The arguments and the heap once a copy [o] of the configuration is
    injected, when the hook asks for it. *)
Definition conf_items : list (string * value) :=
  if want_conf
  then assoc_set "configuration" (VRef (length (st_heap st))) items else items.

Definition conf_heap (o : obj) : heap :=
  if want_conf then <[la := ODict conf_items]> (st_heap st ++ [o]) else st_heap st.

(** ... and once the state is injected, when the hook asks for it. *)
Definition final_items : list (string * value) :=
  if want_state then assoc_set "state" stt conf_items else conf_items.

Definition final_heap (o : obj) : heap :=
  if want_state then <[la := ODict final_items]> (conf_heap o) else conf_heap o.

Lemma conf_heap_arguments o : conf_heap o !! la = Some (ODict conf_items).
Proof.
  unfold conf_heap, conf_items. destruct want_conf; [|done].
  apply list_lookup_insert_eq. rewrite length_app.
  apply lookup_lt_Some in Hitems. lia.
Qed.

Lemma final_heap_arguments o : final_heap o !! la = Some (ODict final_items).
Proof.
  pose proof (conf_heap_arguments o) as Hc. revert Hc.
  unfold final_heap, final_items. destruct want_state; [|done].
  intros Hc. apply list_lookup_insert_eq. by eapply lookup_lt_Some.
Qed.

Lemma final_heap_frame o l :
  l < length (st_heap st) → l ≠ la → final_heap o !! l = st_heap st !! l.
Proof.
  intros Hl Hn. unfold final_heap, final_items, conf_heap, conf_items.
  destruct want_state, want_conf;
    rewrite ?list_lookup_insert_ne by done; try done; by apply lookup_app_l.
Qed.

Lemma final_heap_length o : length (st_heap st) ≤ length (final_heap o).
Proof.
  unfold final_heap, final_items, conf_heap, conf_items.
  destruct want_state, want_conf; rewrite ?length_insert, ?length_app; simpl; lia.
Qed.

Lemma final_heap_copy o :
  want_conf = true → final_heap o !! length (st_heap st) = Some o.
Proof.
  intros E. pose proof (lookup_lt_Some _ _ _ Hitems).
  unfold final_heap, final_items, conf_heap, conf_items. rewrite E.
  destruct want_state; rewrite ?list_lookup_insert_ne by lia; apply lookup_snoc_last.
Qed.

Lemma final_items_other k :
  k ≠ "configuration" → k ≠ "state" → assoc_get k final_items = assoc_get k items.
Proof.
  intros H1 H2. unfold final_items, conf_items.
  destruct want_state, want_conf; by rewrite ?assoc_get_set_ne by done.
Qed.

Lemma final_items_conf :
  want_conf = true →
  assoc_get "configuration" final_items = Some (VRef (length (st_heap st))).
Proof.
  intros E. unfold final_items, conf_items. rewrite E.
  destruct want_state; rewrite ?assoc_get_set_ne by done; apply assoc_get_set_eq.
Qed.

Lemma final_items_state :
  want_state = true → assoc_get "state" final_items = Some stt.
Proof. intros E. unfold final_items. rewrite E. apply assoc_get_set_eq. Qed.

(** The outcome of the call [func(context=context, **arguments)]. *)
Definition call_result (o : obj) : outcome unit * state :=
  if assoc_mem "context" final_items
  then (Raise TypeError, State (final_heap o) (st_trace st))
  else
    let kwargs := ("context", context) :: final_items in
    let r := host_call host f [] kwargs (final_heap o) in
    (discard (fst r),
     State (snd r) (st_trace st ++ [EvCall f [] kwargs (final_heap o)])).

Lemma apply_finish_call o :
  (want_conf = true → ∃ lcf, conf = VRef lcf ∧ st_heap st !! lcf = Some o) →
  apply_finish host (VFunc f) context stt conf (fn_params f) (VRef la) st
  = call_result o.
Proof.
  intros Hconf. unfold apply_finish.
  assert ((if bool_decide ("configuration" ∈ fn_params f)
           then inject_configuration (VRef la) conf else ret tt) st
          = (Return tt, State (conf_heap o) (st_trace st))) as E1.
  { fold want_conf. unfold conf_heap, conf_items. destruct want_conf; [|by destruct st].
    destruct Hconf as (lcf & -> & Hlcf); [done|]. unfold inject_configuration.
    rewrite (bind_Return _ _ _ _ _ (shallow_copy_ref _ _ _ Hlcf)).
    apply (setitem_dict la "configuration" _ items
             (State (st_heap st ++ [o]) (st_trace st))).
    simpl. rewrite lookup_app_l; [done|by eapply lookup_lt_Some]. }
  rewrite (bind_Return _ _ _ _ _ E1).
  assert ((if bool_decide ("state" ∈ fn_params f)
           then setitem (VRef la) "state" stt else ret tt)
            (State (conf_heap o) (st_trace st))
          = (Return tt, State (final_heap o) (st_trace st))) as E2.
  { fold want_state. unfold final_heap, final_items. destruct want_state; [|done].
    apply (setitem_dict la "state" stt conf_items (State (conf_heap o) (st_trace st))).
    apply conf_heap_arguments. }
  rewrite (bind_Return _ _ _ _ _ E2).
  unfold call_result, call_with_context.
  pose proof (final_heap_arguments o) as Hf.
  destruct (assoc_mem "context" final_items) eqn:Ectx.
  - erewrite bind_Raise; [done|].
    erewrite bind_Return; [|by apply deref_ok]. cbv beta iota. by rewrite Ectx.
  - unfold bind at 1.
    erewrite bind_Return; [|by apply deref_ok]. cbv beta iota. rewrite Ectx.
    unfold call. simpl.
    by destruct (host_call host f [] (("context", context) :: final_items) (final_heap o))
      as [[?|?|] ?].
Qed.

(** When the hook asks for the configuration and there is none,
    [configuration.copy()] is an attribute access on [None]. *)
Lemma apply_finish_no_configuration :
  want_conf = true →
  apply_finish host (VFunc f) context stt VNone (fn_params f) (VRef la) st
  = (Raise AttributeError, st).
Proof.
  intros E. unfold apply_finish. fold want_conf. by rewrite E.
Qed.

End Finish.

(** ** Every run of [apply_python_control] on well-typed arguments *)

(** What is assumed of the substitution engine: given a mapping that lives
    among the objects from [n] on, which refer to one another only, it
    returns a mapping from that region or raises, and leaves the objects
    below [n] alone.  It may rewrite the mapping it was given in place. *)
Definition substitute_respects_frame (host : Host) : Prop :=
  ∀ ld items conf secr h (n : nat),
    n ≤ ld → h !! ld = Some (ODict items) → isolated n h →
    let r := host_substitute host (VRef ld) conf secr h in
    fst r ≠ Wrong
    ∧ agree_below n h (snd r)
    ∧ ∀ v, fst r = Return v →
           ∃ la items', v = VRef la ∧ n ≤ la ∧ snd r !! la = Some (ODict items').

(** The arguments of a call have the types the module declares: the
    template of the provider, if any, is a mapping; its [secrets], if any,
    is the list [names] of strings; the configuration is [None] or the
    mapping [ci]; the secrets are [None] or the mapping [store] of
    mappings. *)
Record call_shape (h : heap) (pitems : list (string * value)) (conf secr : value)
    (names : option (list string)) (ci store : option (list (string * value)))
  : Prop := {
  cs_closed : heap_closed h;
  cs_template :
    match assoc_get "arguments" pitems with
    | Some v => ∃ lt titems, v = VRef lt ∧ h !! lt = Some (ODict titems)
    | None => True
    end;
  cs_names :
    match names with
    | Some ns => ∃ ln, assoc_get "secrets" pitems = Some (VRef ln)
                       ∧ h !! ln = Some (OList (map VStr ns))
    | None => assoc_get "secrets" pitems = None
    end;
  cs_conf :
    match ci with
    | Some items => ∃ lcf, conf = VRef lcf ∧ h !! lcf = Some (ODict items)
    | None => conf = VNone
    end;
  cs_secr :
    match store with
    | Some sitems => ∃ lsec, secr = VRef lsec ∧ h !! lsec = Some (ODict sitems)
                             ∧ store_ok h sitems
    | None => secr = VNone
    end
}.

Section ApplyRun.

Context (host : Host) (h0 : heap) (f : func) (context stt conf secr : value).
Context (names : option (list string)) (ci store : option (list (string * value))).

(** The entries of the arguments at the end of the substitution pass. *)
Context (items1 : list (string * value)).

(** Nothing that was in the heap when the call started has changed. *)
Definition frame (hx : heap) : Prop :=
  length h0 ≤ length hx ∧ agree_below (length h0) h0 hx.

(** The secrets could be injected, if they had to be. *)
Definition secrets_ready : Prop :=
  ∀ ns, names = Some ns → "secrets" ∈ fn_params f → ns = [] ∨ store ≠ None.

(** What the hook is called on, in the heap [hc] of the call. *)
Record call_facts (kwargs : list (string * value)) (hc : heap) : Prop := {
  cf_frame : frame hc;
  cf_context : assoc_get "context" kwargs = Some context;
  cf_ready : secrets_ready;
  cf_secrets : ∀ ns, names = Some ns → "secrets" ∈ fn_params f →
    ∃ ls, assoc_get "secrets" kwargs = Some (VRef ls) ∧ length h0 ≤ ls
          ∧ hc !! ls = Some (ODict (merge_into h0 (default [] store) [] ns));
  cf_conf : "configuration" ∈ fn_params f →
    ∃ l' items, ci = Some items
                ∧ assoc_get "configuration" kwargs = Some (VRef l')
                ∧ length h0 ≤ l' ∧ hc !! l' = Some (ODict items);
  cf_state : "state" ∈ fn_params f → assoc_get "state" kwargs = Some stt;
  cf_rest : ∀ k, k ∉ ["context"; "secrets"; "configuration"; "state"] →
    assoc_get k kwargs = assoc_get k items1
}.

(** The ways a call can end; [tr0] is the trace the call started with and
    [evs] the events up to the end of the substitution pass. *)
Inductive apply_run (tr0 evs : list event) : outcome unit → state → Prop :=
| run_substitute_raises e d hs hx :
    In (EvSubstitute d conf secr hs) evs →
    host_substitute host d conf secr hs = (Raise e, hx) →
    frame hx →
    apply_run tr0 evs (Raise e) (State hx (tr0 ++ evs))
| run_no_secrets_store ns hx :
    names = Some ns → ns ≠ [] → "secrets" ∈ fn_params f → store = None →
    frame hx →
    apply_run tr0 evs (Raise AttributeError) (State hx (tr0 ++ evs))
| run_no_configuration hx :
    "configuration" ∈ fn_params f → ci = None → secrets_ready → frame hx →
    apply_run tr0 evs (Raise AttributeError) (State hx (tr0 ++ evs))
| run_context_bound hx :
    assoc_mem "context" items1 = true →
    secrets_ready → ("configuration" ∈ fn_params f → ci ≠ None) → frame hx →
    apply_run tr0 evs (Raise TypeError) (State hx (tr0 ++ evs))
| run_call kwargs hc :
    call_facts kwargs hc →
    apply_run tr0 evs
      (discard (fst (host_call host f [] kwargs hc)))
      (State (snd (host_call host f [] kwargs hc))
             ((tr0 ++ evs) ++ [EvCall f [] kwargs hc])).

Lemma frame_lookup hx l : frame hx → l < length h0 → hx !! l = h0 !! l.
Proof. intros [_ Ha] Hl. by apply Ha. Qed.

Lemma final_heap_keeps_frame la items4 h4 pre o :
  frame h4 → length h0 ≤ la → h4 !! la = Some (ODict items4) →
  frame (final_heap f stt la items4 (State h4 pre) o).
Proof.
  intros [Hlen Hag] Hla Hitems. split.
  - etrans; [exact Hlen|]. apply (final_heap_length f stt la items4 (State h4 pre)).
  - intros l Hl. rewrite final_heap_frame; [by apply Hag|simpl; lia|lia].
Qed.

Lemma final_call_facts la items4 h4 pre o :
  frame h4 → length h0 ≤ la → h4 !! la = Some (ODict items4) →
  secrets_ready →
  (∀ ns, names = Some ns → "secrets" ∈ fn_params f →
     ∃ ls, assoc_get "secrets" items4 = Some (VRef ls) ∧ length h0 ≤ ls ∧ ls ≠ la
           ∧ h4 !! ls = Some (ODict (merge_into h0 (default [] store) [] ns))) →
  ("configuration" ∈ fn_params f → ∃ items, ci = Some items ∧ o = ODict items) →
  (∀ k, k ≠ "secrets" → assoc_get k items4 = assoc_get k items1) →
  call_facts (("context", context) :: final_items f stt items4 (State h4 pre))
             (final_heap f stt la items4 (State h4 pre) o).
Proof.
  intros Hfr Hla Hitems Hready Hsec Hconf Hrest. split.
  - by apply final_heap_keeps_frame.
  - done.
  - done.
  - intros ns Hns Hws. destruct (Hsec ns Hns Hws) as (ls & Hk & Hls & Hne & Hm).
    exists ls. split_and!; [|done|].
    + simpl. by rewrite final_items_other.
    + rewrite final_heap_frame; [done| |done].
      simpl. by eapply lookup_lt_Some.
  - intros Hw. destruct (Hconf Hw) as (items & Eci & ->).
    exists (length h4), items. split_and!; [done| |by destruct Hfr|].
    + simpl. eapply (final_items_conf f stt items4 (State h4 pre)).
      by apply bool_decide_eq_true_2.
    + eapply (final_heap_copy f stt la items4 (State h4 pre)); [exact Hitems|].
      by apply bool_decide_eq_true_2.
  - intros Hws. simpl. eapply (final_items_state f stt items4 (State h4 pre)).
    by apply bool_decide_eq_true_2.
  - intros k Hk. rewrite !not_elem_of_cons in Hk. destruct Hk as (H1 & H2 & H3 & H4 & _).
    simpl. rewrite (proj2 (String.eqb_neq k "context")) by done.
    rewrite final_items_other by done. by apply Hrest.
Qed.

(** From the injection of the configuration on. *)
Lemma finish_run tr0 evs la items4 h4 :
  frame h4 → length h0 ≤ la → h4 !! la = Some (ODict items4) →
  match ci with
  | Some items => ∃ lcf, conf = VRef lcf ∧ h0 !! lcf = Some (ODict items)
  | None => conf = VNone
  end →
  secrets_ready →
  (∀ ns, names = Some ns → "secrets" ∈ fn_params f →
     ∃ ls, assoc_get "secrets" items4 = Some (VRef ls) ∧ length h0 ≤ ls ∧ ls ≠ la
           ∧ h4 !! ls = Some (ODict (merge_into h0 (default [] store) [] ns))) →
  (∀ k, k ≠ "secrets" → assoc_get k items4 = assoc_get k items1) →
  let r := apply_finish host (VFunc f) context stt conf (fn_params f) (VRef la)
             (State h4 (tr0 ++ evs)) in
  apply_run tr0 evs (fst r) (snd r).
Proof.
  intros Hfr Hla Hitems Hconf Hready Hsec Hrest r. subst r.
  assert ((∃ o, apply_finish host (VFunc f) context stt conf (fn_params f) (VRef la)
                 (State h4 (tr0 ++ evs))
               = call_result host f context stt la items4 (State h4 (tr0 ++ evs)) o
               ∧ ("configuration" ∈ fn_params f → ∃ items, ci = Some items ∧ o = ODict items))
          ∨ ("configuration" ∈ fn_params f ∧ ci = None)) as [(o & E & Ho)|[Hwc Eci]].
  { destruct (decide ("configuration" ∈ fn_params f)) as [Hwc|Hwc].
    - assert ((∃ items, ci = Some items) ∨ ci = None) as [[items Eci]|Eci]
        by (clear; destruct ci; eauto); [|by right]. left.
      rewrite Eci in Hconf. destruct Hconf as (lcf & Hc & Hlcf).
      exists (ODict items). split.
      + rewrite Hc. eapply apply_finish_call; [exact Hitems|].
        intros _. exists lcf. split; [done|].
        simpl. rewrite (frame_lookup _ _ Hfr); [done|by eapply lookup_lt_Some].
      + intros _. by exists items.
    - left. exists (ODict []). split; [|done].
      eapply apply_finish_call; [exact Hitems|].
      intros Hw. by apply bool_decide_eq_true_1 in Hw. }
  - rewrite E. unfold call_result. cbn [st_heap st_trace].
    destruct (assoc_mem "context" (final_items f stt items4 (State h4 (tr0 ++ evs))))
      eqn:Ectx.
    + simpl. apply run_context_bound; [|done| |by apply final_heap_keeps_frame].
      * unfold assoc_mem in *.
        rewrite (final_items_other f stt items4 (State h4 (tr0 ++ evs))) in Ectx by done.
        by rewrite Hrest in Ectx.
      * intros Hw. destruct (Ho Hw) as (items & Eci & _). by rewrite Eci.
    + simpl. apply run_call. by apply final_call_facts.
  - rewrite Eci in Hconf. rewrite Hconf.
    rewrite apply_finish_no_configuration.
    + by apply run_no_configuration.
    + by apply bool_decide_eq_true_2.
Qed.

End ApplyRun.

Lemma agree_below_length h hx : agree_below (length h) h hx → length h ≤ length hx.
Proof.
  intros Ha. destruct (decide (length h ≤ length hx)) as [|Hn]; [done|].
  assert (length hx < length h) as Hlt by lia.
  specialize (Ha (length hx) Hlt).
  rewrite (lookup_ge_None_2 hx (length hx)) in Ha by lia.
  destruct (lookup_lt_is_Some_2 h (length hx) Hlt) as [o Ho]. congruence.
Qed.

Section ApplyTail.

Context (host : Host) (h0 : heap) (f : func) (context stt conf secr : value).
Context (names : option (list string)) (ci store : option (list (string * value))).
Context (lp : loc) (pitems : list (string * value)).
Hypothesis Hprov : h0 !! lp = Some (ODict pitems).
Hypothesis Hnames :
  match names with
  | Some ns => ∃ ln, assoc_get "secrets" pitems = Some (VRef ln)
                     ∧ h0 !! ln = Some (OList (map VStr ns))
  | None => assoc_get "secrets" pitems = None
  end.
Hypothesis Hconf :
  match ci with
  | Some items => ∃ lcf, conf = VRef lcf ∧ h0 !! lcf = Some (ODict items)
  | None => conf = VNone
  end.
Hypothesis Hsecr :
  match store with
  | Some sitems => ∃ lsec, secr = VRef lsec ∧ h0 !! lsec = Some (ODict sitems)
                           ∧ store_ok h0 sitems
  | None => secr = VNone
  end.

(** Once the substitution pass is over. *)
Lemma tail_run tr0 evs la items1 h3 :
  frame h0 h3 → length h0 ≤ la → h3 !! la = Some (ODict items1) →
  let r := apply_tail host (VFunc f) (VRef lp) context stt conf secr (VRef la)
             (State h3 (tr0 ++ evs)) in
  apply_run host h0 f context stt conf secr names ci store items1 tr0 evs
            (fst r) (snd r).
Proof.
  intros Hfr Hla Hitems r. subst r.
  pose proof (lookup_lt_Some _ _ _ Hprov) as Hlp.
  pose proof (lookup_lt_Some _ _ _ Hitems) as Hlt.
  unfold apply_tail. cbn [signature]. rewrite bind_ret.
  erewrite bind_Return; cycle 1.
  { apply (contains_dict "secrets" lp pitems). simpl. by rewrite (frame_lookup _ _ _ Hfr). }
  assert ((∃ ns, names = Some ns ∧ "secrets" ∈ fn_params f)
          ∨ (names = None ∨ "secrets" ∉ fn_params f)) as [(ns & Ens & Hws)|Hskip].
  { clear. destruct names as [ns|]; [|by right; left].
    destruct (decide ("secrets" ∈ fn_params f)); [left; by exists ns|right; by right]. }
  - rewrite Ens in Hnames. destruct Hnames as (ln & Hdecl & Hln).
    rewrite (assoc_mem_true _ _ _ Hdecl), (bool_decide_eq_true_2 _ Hws). cbn [andb].
    destruct Hfr as [Hlen Hag].
    assert ((∃ sitems, store = Some sitems) ∨ store = None) as [[sitems Est]|Est]
      by (clear; destruct store; eauto).
    + rewrite Est in Hsecr. destruct Hsecr as (lsec & Hs & Hlsec & Hok). rewrite Hs.
      destruct (inject_secrets_ok h0 lp la ln pitems items1 ns (State h3 (tr0 ++ evs))
                  Hag Hprov Hdecl Hln Hla Hitems lsec sitems Hlsec Hok)
        as (hx' & E & Hlen' & Hfr' & Harg & Hm).
      simpl in *. rewrite (bind_Return _ _ _ _ _ E).
      apply finish_run with (items4 := assoc_set "secrets" (VRef (length h3)) items1);
        try done.
      * split; [lia|]. intros l Hl. rewrite Hfr' by lia. by apply Hag.
      * intros ns' Hns' _. right. by rewrite Est.
      * intros ns' Hns' _. assert (ns' = ns) as -> by congruence.
        exists (length h3). split_and!; [apply assoc_get_set_eq|done|lia|].
        by rewrite Est.
      * intros k Hk. by apply assoc_get_set_ne.
    + rewrite Est in Hsecr. rewrite Hsecr.
      destruct (decide (ns = [])) as [Enil|Hne].
      * rewrite (bind_Return _ _ _ _ _
                   (inject_secrets_nil h0 lp la ln pitems items1 ns (State h3 (tr0 ++ evs))
                      Hag Hprov Hdecl Hln Hla Hitems VNone Enil)).
        unfold secrets_start. simpl st_heap. simpl st_trace.
        apply finish_run with (items4 := assoc_set "secrets" (VRef (length h3)) items1);
          try done.
        -- split.
           ++ rewrite length_insert, length_app. simpl. lia.
           ++ apply (secrets_start_agree h0 la items1 (State h3 (tr0 ++ evs)) Hag Hla Hitems).
        -- apply (secrets_start_arguments h0 la items1 (State h3 (tr0 ++ evs)) Hla Hitems).
        -- intros ns' Hns' _. left. congruence.
        -- intros ns' Hns' _. assert (ns' = ns) as -> by congruence.
           exists (length h3). split_and!; [apply assoc_get_set_eq|done|lia|].
           rewrite Est, Enil. simpl.
           apply (secrets_start_fresh h0 la items1 (State h3 (tr0 ++ evs)) Hla Hitems).
        -- intros k Hk. by apply assoc_get_set_ne.
      * rewrite (bind_Raise _ _ _ _ _
                   (inject_secrets_none h0 lp la ln pitems items1 ns (State h3 (tr0 ++ evs))
                      Hag Hprov Hdecl Hln Hla Hitems Hne)).
        simpl. eapply run_no_secrets_store; try done. split.
        -- rewrite length_insert, length_app. simpl. lia.
        -- apply (secrets_start_agree h0 la items1 (State h3 (tr0 ++ evs)) Hag Hla Hitems).
  - assert (assoc_mem "secrets" pitems && bool_decide ("secrets" ∈ fn_params f) = false)
      as ->.
    { destruct Hskip as [En|Hn].
      - rewrite En in Hnames. by rewrite (assoc_mem_false _ _ Hnames).
      - rewrite (bool_decide_eq_false_2 _ Hn). by destruct (assoc_mem "secrets" pitems). }
    rewrite bind_ret. apply finish_run with (items4 := items1); try done.
    + intros ns Hns Hws. destruct Hskip; [congruence|done].
    + intros ns Hns Hws. destruct Hskip; [congruence|done].
Qed.

End ApplyTail.

Section ApplySpec.

Context (host : Host).
Hypothesis Hsub : substitute_respects_frame host.

Lemma shape_within h pitems conf secr names ci store :
  call_shape h pitems conf secr names ci store →
  value_within 0 (length h) conf ∧ value_within 0 (length h) secr.
Proof.
  intros [_ _ _ Hc Hs]. split.
  - destruct ci as [items|]; [|by subst]. destruct Hc as (lcf & -> & Hl). simpl.
    apply lookup_lt_Some in Hl. lia.
  - destruct store as [sitems|]; [|by subst]. destruct Hs as (lsec & -> & Hl & _). simpl.
    apply lookup_lt_Some in Hl. lia.
Qed.

(** The deep copy of a mapping is a mapping. *)
Lemma unfold_dict h v h' v' l items :
  v = VRef l → h !! l = Some (ODict items) → unfold 1 h' v' = unfold 1 h v →
  ∃ l' items', v' = VRef l' ∧ h' !! l' = Some (ODict items').
Proof.
  intros -> Hl. simpl. rewrite Hl. destruct v' as [| | | | |l']; try done.
  simpl. destruct (h' !! l') as [[items'|?]|] eqn:E; try done. intros _. by exists l', items'.
Qed.

Lemma template_is_dict h hx pitems conf secr names ci store :
  call_shape h pitems conf secr names ci store →
  agree_below (length h) h hx →
  ∃ lt titems, template_of hx pitems = VRef lt
               ∧ (hx ++ [ODict []]) !! lt = Some (ODict titems).
Proof.
  intros [_ Ht _ _ _] Hag. unfold template_of.
  destruct (assoc_get "arguments" pitems) as [v|]; simpl.
  - destruct Ht as (lt & titems & -> & Hlt). exists lt, titems. split; [done|].
    pose proof (lookup_lt_Some _ _ _ Hlt). pose proof (agree_below_length _ _ Hag).
    rewrite lookup_app_l by lia. by rewrite Hag.
  - exists (length hx), []. split; [done|apply lookup_snoc_last].
Qed.

Lemma resolved_agree h hx level lc lp pitems fname f :
  resolved host h level lc lp pitems fname f →
  agree_below (length h) h hx →
  resolved host hx level lc lp pitems fname f.
Proof.
  intros [(citems & Hc & Hp) Hpo Hm Hl] Hag. split; try done.
  - exists citems. split; [|done]. rewrite Hag; [done|by eapply lookup_lt_Some].
  - rewrite Hag; [done|by eapply lookup_lt_Some].
Qed.

Lemma reach_closed_agree h hx :
  heap_closed h → agree_below (length h) h hx →
  reach_closed (λ l, l < length h) hx.
Proof.
  intros Hc Hag l Hl. destruct (Hc l Hl) as (o & Ho & Hch).
  exists o. split; [|done]. by rewrite Hag.
Qed.

(** Every run of [apply_python_control] on a resolved hook and well-typed
    arguments, in a heap that extends [h0]: the template is deep-copied,
    the substitution pass runs when the configuration or the secrets are
    true, and the call ends in one of the ways of [apply_run]. *)
Lemma apply_run_spec h0 level lc lp pitems fname f context stt conf secr
    names ci store st :
  let h1 := st_heap st ++ [ODict []] in
  let tv := template_of (st_heap st) pitems in
  agree_below (length h0) h0 (st_heap st) →
  resolved host h0 level lc lp pitems fname f →
  call_shape h0 pitems conf secr names ci store →
  ∃ a0 h2 items1,
    length h1 ≤ length h2
    ∧ agree_below (length h1) h1 h2
    ∧ value_within (length h1) (length h2) a0
    ∧ (∀ k, unfold k h2 a0 = unfold k h1 tv)
    ∧ (truthyb h0 conf || truthyb h0 secr = false →
       ∃ ld, a0 = VRef ld ∧ h2 !! ld = Some (ODict items1))
    ∧ let evs := loaded_log fname f ++ [EvDeepcopy tv a0 h2]
                 ++ (if truthyb h0 conf || truthyb h0 secr
                     then [EvSubstitute a0 conf secr h2] else []) in
      let r := apply_python_control host level (VRef lc) context stt conf secr st in
      apply_run host h0 f context stt conf secr names ci store items1
                (st_trace st) evs (fst r) (snd r)
      ∧ (truthyb h0 conf || truthyb h0 secr = true →
         match host_substitute host a0 conf secr h2 with
         | (Return a1, h3) => ∃ la, a1 = VRef la ∧ h3 !! la = Some (ODict items1)
         | (Raise e, h3) => r = (Raise e, State h3 (st_trace st ++ evs))
         | (Wrong, _) => False
         end).
Proof.
  intros h1 tv Hext Hres Hshape.
  destruct (shape_within _ _ _ _ _ _ _ Hshape) as [Hwc Hws].
  pose proof (rs_provider _ _ _ _ _ _ _ _ Hres) as Hprov.
  pose proof (agree_below_length _ _ Hext) as Hlen0.
  destruct (apply_prefix host (length h0) level lc lp pitems fname f context stt
              conf secr st (resolved_agree _ _ _ _ _ _ _ _ Hres Hext) Hlen0
              (reach_closed_agree _ _ (cs_closed _ _ _ _ _ _ _ Hshape) Hext)
              (lookup_lt_Some _ _ _ Hprov) Hwc Hws)
    as (a0 & h2 & Hlen & Hag & Hiso & Hw & Hun & E).
  fold h1 tv in Hlen, Hag, Hiso, Hw, Hun, E.
  rewrite (truthyb_agree (length h0) h0 (st_heap st) conf Hwc Hext) in E.
  rewrite (truthyb_agree (length h0) h0 (st_heap st) secr Hws Hext) in E.
  destruct (template_is_dict _ _ _ _ _ _ _ _ Hshape Hext) as (lt & titems & Htv & Hlt).
  fold h1 tv in Htv, Hlt.
  destruct (unfold_dict h1 tv h2 a0 lt titems Htv Hlt (Hun 1)) as (ld & items0 & -> & Hld).
  assert (length h1 = Datatypes.S (length (st_heap st))) as Hl1
    by (unfold h1; rewrite length_app; simpl; lia).
  assert (agree_below (length h0) h0 h2) as Hag0.
  { eapply agree_below_trans; [exact Hext|].
    eapply agree_below_trans; [by apply (agree_below_app (length h0) (st_heap st) (ODict []))|].
    eapply agree_below_le; [|exact Hag]. lia. }
  simpl in Hw.
  set (ev := EvDeepcopy tv (VRef ld) h2) in *.
  destruct (truthyb h0 conf || truthyb h0 secr) eqn:Eb.
  - destruct (Hsub ld items0 conf secr h2 (length h1)) as (Hnw & Hag3 & Hret);
      [lia|done|done|].
    set (es := EvSubstitute (VRef ld) conf secr h2).
    assert (substitute host (VRef ld) conf secr
              (State h2 (st_trace st ++ loaded_log fname f ++ [ev]))
            = ((host_substitute host (VRef ld) conf secr h2).1,
               State (host_substitute host (VRef ld) conf secr h2).2
                     (st_trace st ++ (loaded_log fname f ++ [ev] ++ [es])))) as Esub.
    { unfold substitute. simpl. by rewrite <- !app_assoc. }
    destruct (host_substitute host (VRef ld) conf secr h2) as [[a1|e|] h3] eqn:Es;
      cbn [fst snd] in *; [| |done].
    + destruct (Hret a1 eq_refl) as (la & items1 & -> & Hla & Hitems).
      exists (VRef ld), h2, items1. do 5 (split; [done|]).
      cbv zeta. split; [|rewrite Es; intros _; by exists la].
      rewrite E. clear E.
      rewrite (bind_Return _ _ _ _ _ Esub).
      assert (agree_below (length h0) h0 h3) as Hag03.
      { eapply agree_below_trans; [exact Hag0|]. eapply agree_below_le; [|exact Hag3]. lia. }
      eapply tail_run; try done.
      * apply (cs_names _ _ _ _ _ _ _ Hshape).
      * apply (cs_conf _ _ _ _ _ _ _ Hshape).
      * apply (cs_secr _ _ _ _ _ _ _ Hshape).
      * split; [by apply agree_below_length|done].
      * lia.
    + exists (VRef ld), h2, [].
      assert (apply_python_control host level (VRef lc) context stt conf secr st
              = (Raise e, State h3 (st_trace st ++ loaded_log fname f ++ [ev] ++ [es])))
        as Er.
      { rewrite E. by rewrite (bind_Raise _ _ _ _ _ Esub). }
      clear E.
      do 5 (split; [done|]).
      cbv zeta. split; [|by rewrite Es].
      rewrite Er. cbn [fst snd].
      assert (agree_below (length h0) h0 h3) as Hag03.
      { eapply agree_below_trans; [exact Hag0|]. eapply agree_below_le; [|exact Hag3]. lia. }
      eapply run_substitute_raises; [|exact Es|].
      * apply in_or_app. right. right. by left.
      * split; [by apply agree_below_length|done].
  - exists (VRef ld), h2, items0.
    do 4 (split; [done|]). split; [by intros _; exists ld|].
    cbv zeta. split; [|done].
    rewrite E. clear E. rewrite bind_ret.
    change ([ev] ++ []) with [ev].
    eapply tail_run; try done.
    + apply (cs_names _ _ _ _ _ _ _ Hshape).
    + apply (cs_conf _ _ _ _ _ _ _ Hshape).
    + apply (cs_secr _ _ _ _ _ _ _ Hshape).
    + split; [by apply agree_below_length|done].
    + lia.
Qed.

End ApplySpec.

(** ** What the hook receives *)

(** The provider's argument template as it looks in [h], down to depth
    [k]; the empty mapping when the provider declares none. *)
Definition template_tree (k : nat) (h : heap) (pitems : list (string * value))
  : tree :=
  match assoc_get "arguments" pitems with
  | Some v => unfold k h v
  | None => unfold k [ODict []] (VRef 0)
  end.

Lemma unfold_agree (S : loc → Prop) h h' :
  reach_closed S h → (∀ l, S l → h' !! l = h !! l) →
  ∀ k v, value_in S v → unfold k h' v = unfold k h v.
Proof.
  intros Hc Hag k. induction k as [|k IH]; intros v Hv; [by destruct v|].
  destruct v as [| | | | |l]; try done. simpl in Hv. cbn [unfold].
  rewrite (Hag l Hv). destruct (Hc l Hv) as (o & -> & Hch).
  rewrite Forall_forall in Hch.
  destruct o as [items|elems]; simpl in *; f_equal.
  - apply map_ext_in. intros [key x] Hin. simpl. f_equal. apply IH, Hch.
    apply list_elem_of_In. apply in_map_iff. by exists (key, x).
  - apply map_ext_in. intros x Hin. apply IH, Hch. by apply list_elem_of_In.
Qed.

Lemma template_tree_eq h0 hx lp pitems k :
  heap_closed h0 → h0 !! lp = Some (ODict pitems) →
  agree_below (length h0) h0 hx →
  unfold k (hx ++ [ODict []]) (template_of hx pitems) = template_tree k h0 pitems.
Proof.
  intros Hc Hp Hag. unfold template_of, template_tree.
  destruct (assoc_get "arguments" pitems) as [v|] eqn:E; simpl.
  - apply (unfold_agree (λ l, l < length h0)); [done| |].
    + intros l Hl. pose proof (agree_below_length _ _ Hag).
      rewrite lookup_app_l by lia. by apply Hag.
    + eapply (reach_closed_child _ _ lp); [exact Hc| |exact Hp|exact E].
      by eapply lookup_lt_Some.
  - destruct k; [done|]. cbn [unfold]. by rewrite lookup_snoc_last.
Qed.

Definition is_call (e : event) : Prop :=
  match e with EvCall _ _ _ _ => True | _ => False end.


(** The exception [e] came out of the substitution engine, in a call the
    events [evs] record. *)
Definition raised_by_substitute (host : Host) (conf secr : value)
    (evs : list event) (e : exn) : Prop :=
  ∃ d hs hx, In (EvSubstitute d conf secr hs) evs
             ∧ host_substitute host d conf secr hs = (Raise e, hx).

(** The arguments the call has assembled when the substitution pass is
    over bind [context], so that the hook would be given [context] twice:
    the arguments are the deep copy of the template when the pass is
    skipped, and the mapping the engine returned when it ran. *)
Definition arguments_bind_context (host : Host) (h0 : heap)
    (pitems : list (string * value)) (conf secr : value) (evs : list event)
  : Prop :=
  ∃ a0 h2 items,
    In (EvDeepcopy (template_of h0 pitems) a0 h2) evs
    ∧ (∀ k, unfold k h2 a0 = template_tree k h0 pitems)
    ∧ (if truthyb h0 conf || truthyb h0 secr
       then ∃ la, fst (host_substitute host a0 conf secr h2) = Return (VRef la)
                  ∧ snd (host_substitute host a0 conf secr h2) !! la
                    = Some (ODict items)
       else ∃ ld, a0 = VRef ld ∧ h2 !! ld = Some (ODict items))
    ∧ assoc_mem "context" items = true.

(** A dictionary object has each key once. *)
Definition keys_unique (o : obj) : Prop :=
  match o with
  | ODict items => NoDup (map fst items)
  | OList _ => True
  end.

(** The union of the groups, a later group overriding an earlier one: the
    binding of [k] in the last group that has one. *)
Fixpoint latest_binding (groups : list (list (string * value))) (k : string)
  : option value :=
  match groups with
  | [] => None
  | g :: gs =>
      match latest_binding gs k with
      | Some v => Some v
      | None => assoc_get k g
      end
  end.

Lemma assoc_get_None_notin {A} k (kvs : list (string * A)) :
  k ∉ map fst kvs → assoc_get k kvs = None.
Proof.
  induction kvs as [|[k' v] kvs IH]; simpl; [done|].
  intros Hn. destruct (String.eqb_spec k k') as [->|Hne].
  - exfalso. apply Hn. by left.
  - apply IH. intros Hin. apply Hn. by right.
Qed.

Lemma assoc_get_update k (d src : list (string * value)) :
  NoDup (map fst src) →
  assoc_get k (assoc_update d src)
  = match assoc_get k src with Some v => Some v | None => assoc_get k d end.
Proof.
  unfold assoc_update. revert d.
  induction src as [|[k1 v1] src IH]; intros d Hnd; simpl; [done|].
  simpl in Hnd. apply NoDup_cons in Hnd as [Hnotin Hnd]. rewrite IH by done.
  destruct (String.eqb_spec k k1) as [->|Hne].
  - rewrite (assoc_get_None_notin _ _ Hnotin). apply assoc_get_set_eq.
  - destruct (assoc_get k src); [done|]. by apply assoc_get_set_ne.
Qed.

Lemma group_items_unique h store s :
  Forall keys_unique h → NoDup (map fst (group_items h store s)).
Proof.
  intros Hu. unfold group_items.
  destruct (assoc_get s store) as [[| | | | |lg]|]; try apply NoDup_nil_2.
  destruct (h !! lg) as [[gi|?]|] eqn:E; try apply NoDup_nil_2.
  rewrite Forall_forall in Hu. apply (Hu (ODict gi)).
  apply list_elem_of_lookup. by exists lg.
Qed.

Lemma merge_into_latest h store names k :
  Forall keys_unique h →
  ∀ acc, assoc_get k (merge_into h store acc names)
         = match latest_binding (map (group_items h store) names) k with
           | Some v => Some v
           | None => assoc_get k acc
           end.
Proof.
  intros Hu. unfold merge_into.
  induction names as [|s names IH]; intros acc; simpl; [done|].
  rewrite IH. destruct (latest_binding (map (group_items h store) names) k); [done|].
  apply assoc_get_update. by apply group_items_unique.
Qed.

Lemma pre_events_no_call fname f tv a0 h2 (b : bool) conf secr :
  Forall (λ e, ¬ is_call e)
    (loaded_log fname f ++ [EvDeepcopy tv a0 h2]
     ++ (if b then [EvSubstitute a0 conf secr h2] else [])).
Proof.
  apply Forall_app. split.
  - unfold loaded_log. destruct (fn_file f); repeat constructor; by intros [].
  - destruct b; repeat constructor; by intros [].
Qed.

Section RunEnds.

Context (host : Host).
Hypothesis Hsub : substitute_respects_frame host.

(** How a call on a resolved hook and well-typed arguments ends, and why:
    each exception with the condition that raises it. *)
Lemma apply_run_ends
    level lc lp pitems fname f context stt conf secr names ci store st :
  let h0 := st_heap st in
  resolved host h0 level lc lp pitems fname f →
  call_shape h0 pitems conf secr names ci store →
  let r := apply_python_control host level (VRef lc) context stt conf secr st in
  ∃ evs items1, Forall (λ e, ¬ is_call e) evs ∧
    ((∃ e, fst r = Raise e ∧ st_trace (snd r) = st_trace st ++ evs
           ∧ (raised_by_substitute host conf secr evs e
              ∨ (e = AttributeError ∧ "secrets" ∈ fn_params f ∧ store = None
                 ∧ ∃ ns, names = Some ns ∧ ns ≠ [])
              ∨ (e = AttributeError ∧ "configuration" ∈ fn_params f ∧ ci = None)
              ∨ (e = TypeError
                 ∧ arguments_bind_context host h0 pitems conf secr evs)))
     ∨ (∃ kwargs hc,
          st_trace (snd r) = (st_trace st ++ evs) ++ [EvCall f [] kwargs hc]
          ∧ fst r = discard (fst (host_call host f [] kwargs hc))
          ∧ call_facts h0 f context stt names ci store items1 kwargs hc)).
Proof.
  intros h0 Hres Hshape r.
  destruct (apply_run_spec host Hsub h0 level lc lp pitems fname f context stt
              conf secr names ci store st (agree_below_refl _ _) Hres Hshape)
    as (a0 & h2 & items1 & _ & _ & _ & Hun & Hskip & Hrun).
  cbv zeta in Hrun. fold r h0 in Hrun, Hun. destruct Hrun as [Hrun Heng].
  assert (∀ k, unfold k h2 a0 = template_tree k h0 pitems) as Htree.
  { intros k. rewrite Hun.
    apply (template_tree_eq h0 h0 lp);
      [exact (cs_closed _ _ _ _ _ _ _ Hshape)
      |exact (rs_provider _ _ _ _ _ _ _ _ Hres)|apply agree_below_refl]. }
  eexists _, items1. split; [apply pre_events_no_call|].
  inversion Hrun as [e d hs hx Hin Hs Hfr Hr Hst|ns' hx Hns Hne Hws Hstore Hfr Hr Hst|
                     hx Hwc Hci Hrd Hfr Hr Hst|hx Hctx Hrd Hci Hfr Hr Hst|
                     kwargs hc Hcf Hr Hst].
  - left. exists e. split_and!; [done|done|]. left. by exists d, hs, hx.
  - left. exists AttributeError. split_and!; [done|done|]. right. left.
    split_and!; [done|done|done|by exists ns'].
  - left. exists AttributeError. split_and!; [done|done|]. right. right. by left.
  - left. exists TypeError. split_and!; [done|done|].
    destruct (truthyb h0 conf || truthyb h0 secr) eqn:Eb.
    + specialize (Heng eq_refl).
      destruct (host_substitute host a0 conf secr h2) as [[a1|e|] h3] eqn:Es; [| |done].
      * destruct Heng as (la & -> & Hla). right. right. right. split; [done|].
        exists a0, h2, items1. rewrite Eb, Es. split_and!; [|done|by exists la|done].
        apply in_or_app. right. by left.
      * left. exists a0, h2, h3.
        split; [|rewrite Es; rewrite Heng in Hr; simpl in Hr; congruence].
        apply in_or_app. right. right. by left.
    + destruct (Hskip eq_refl) as (ld & -> & Hld). right. right. right. split; [done|].
      exists (VRef ld), h2, items1. rewrite Eb. split_and!; [|done|by exists ld|done].
      apply in_or_app. right. by left.
  - right. by exists kwargs, hc.
Qed.

End RunEnds.

Section Received.

Context (host : Host).
Hypothesis Hsub : substitute_respects_frame host.

(** C3. When the provider declares a list of secret groups and the hook
    has a [secrets] parameter, the hook is called on a [secrets] argument
    that is a new dictionary holding, for every key, the binding of the
    last listed group that has the key, whatever [secrets] entry the
    assembled arguments had; the call is not reached only when the
    substitution engine raises, when the hook asks for a configuration and
    there is none, or when the arguments bind [context]. *)
Theorem secrets_argument_is_union_of_groups
    level lc lp pitems fname f context stt conf secr ns ci store st :
  let h0 := st_heap st in
  resolved host h0 level lc lp pitems fname f →
  call_shape h0 pitems conf secr (Some ns) ci (Some store) →
  Forall keys_unique h0 →
  "secrets" ∈ fn_params f →
  let r := apply_python_control host level (VRef lc) context stt conf secr st in
  ∃ evs, Forall (λ e, ¬ is_call e) evs ∧
    ((∃ e, fst r = Raise e ∧ st_trace (snd r) = st_trace st ++ evs
           ∧ (raised_by_substitute host conf secr evs e
              ∨ (e = AttributeError ∧ "configuration" ∈ fn_params f ∧ conf = VNone)
              ∨ (e = TypeError
                 ∧ arguments_bind_context host h0 pitems conf secr evs)))
     ∨ (∃ kwargs hc ls merged,
          st_trace (snd r) = (st_trace st ++ evs) ++ [EvCall f [] kwargs hc]
          ∧ fst r = discard (fst (host_call host f [] kwargs hc))
          ∧ assoc_get "secrets" kwargs = Some (VRef ls)
          ∧ length h0 ≤ ls
          ∧ hc !! ls = Some (ODict merged)
          ∧ ∀ k, assoc_get k merged
                 = latest_binding (map (group_items h0 store) ns) k)).
Proof.
  intros h0 Hres Hshape Hu Hws r.
  destruct (apply_run_ends host Hsub level lc lp pitems fname f context stt
              conf secr (Some ns) ci (Some store) st Hres Hshape)
    as (evs & items1 & Hnc & [(e & He & Htr & Hwhy)|(kwargs & hc & Htr & He & Hcf)]).
  all: fold h0 r in Htr, He; exists evs; split; [exact Hnc|].
  - left. exists e. split_and!; [done|done|].
    destruct Hwhy as [Hs|[(_ & _ & [=] & _)|[(-> & Hwc & Hci)|Hctx]]].
    + by left.
    + right. left. split_and!; [done|done|].
      pose proof (cs_conf _ _ _ _ _ _ _ Hshape) as Hc. by rewrite Hci in Hc.
    + by right; right.
  - right. destruct (cf_secrets _ _ _ _ _ _ _ _ _ _ Hcf ns eq_refl Hws) as (ls & Hk & Hls & Hm).
    eexists kwargs, hc, ls, _. split_and!; [done|done|done|done|exact Hm|].
    intros k. simpl. unfold h0. rewrite merge_into_latest by done.
    by destruct (latest_binding (map (group_items (st_heap st) store) ns) k).
Qed.

End Received.

Section ReceivedConfiguration.

Context (host : Host).
Hypothesis Hsub : substitute_respects_frame host.


(** C9, with the list of groups not empty.  When the hook has a
    [configuration] parameter and the caller's configuration is [None], and
    when the provider declares a list of secret groups that is not empty,
    the hook has a [secrets] parameter and the caller's secrets are [None],
    [apply_python_control] raises without calling the hook: an
    [AttributeError] for the access on [None], unless the substitution
    engine raised before. *)
Theorem apply_raises_without_its_stores
    level lc lp pitems fname f context stt conf secr names ci store st :
  let h0 := st_heap st in
  resolved host h0 level lc lp pitems fname f →
  call_shape h0 pitems conf secr names ci store →
  ("configuration" ∈ fn_params f ∧ conf = VNone)
  ∨ ("secrets" ∈ fn_params f ∧ secr = VNone
     ∧ ∃ ns, names = Some ns ∧ ns ≠ []) →
  let r := apply_python_control host level (VRef lc) context stt conf secr st in
  ∃ e evs, fst r = Raise e
           ∧ st_trace (snd r) = st_trace st ++ evs
           ∧ Forall (λ e, ¬ is_call e) evs
           ∧ (e = AttributeError ∨ raised_by_substitute host conf secr evs e).
Proof.
  intros h0 Hres Hshape Hcase r.
  destruct (apply_run_spec host Hsub h0 level lc lp pitems fname f context stt
              conf secr names ci store st (agree_below_refl _ _) Hres Hshape)
    as (a0 & h2 & items1 & _ & _ & _ & _ & _ & Hrun & _).
  cbv zeta in Hrun. fold r in Hrun.
  assert (("configuration" ∈ fn_params f ∧ ci = None)
          ∨ ("secrets" ∈ fn_params f ∧ store = None
             ∧ ∃ ns, names = Some ns ∧ ns ≠ [])) as Hcase'.
  { destruct Hcase as [[Hw ->]|(Hw & -> & Hns)]; [left|right]; split_and!; try done.
    - pose proof (cs_conf _ _ _ _ _ _ _ Hshape) as Hc.
      destruct ci; [by destruct Hc as (? & ? & _)|done].
    - pose proof (cs_secr _ _ _ _ _ _ _ Hshape) as Hc.
      destruct store; [by destruct Hc as (? & ? & _)|done]. }
  clear Hcase.
  assert (¬ secrets_ready f names store
          ∨ ("configuration" ∈ fn_params f ∧ ci = None)) as Hbad.
  { destruct Hcase' as [?|(Hw & -> & ns & -> & Hne)]; [by right|left].
    intros Hrd. by destruct (Hrd ns eq_refl Hw). }
  inversion Hrun as [e d hs hx Hin Hs Hfr Hr Hst|ns' hx Hns Hne Hws Hstore Hfr Hr Hst|
                     hx Hwc Hci Hrd Hfr Hr Hst|hx _ Hrd Hci Hfr Hr Hst|
                     kwargs hc Hcf Hr Hst].
  - exists e. eexists. split_and!; [done|done|apply pre_events_no_call|].
    right. by exists d, hs, hx.
  - exists AttributeError. eexists. split_and!; [done|done|apply pre_events_no_call|by left].
  - exists AttributeError. eexists. split_and!; [done|done|apply pre_events_no_call|by left].
  - exfalso. destruct Hbad as [Hn|[Hw Hc]]; [done|]. by apply Hci.
  - exfalso. destruct Hbad as [Hn|[Hw Hc]].
    + apply Hn. exact (cf_ready _ _ _ _ _ _ _ _ _ _ Hcf).
    + destruct (cf_conf _ _ _ _ _ _ _ _ _ _ Hcf Hw) as (? & ? & ? & _). congruence.
Qed.

End ReceivedConfiguration.

(** ** The events of a call, and the heap it leaves *)

Definition is_log (e : event) : Prop :=
  match e with EvLog _ => True | _ => False end.


Lemma loaded_log_is_log fname f : Forall is_log (loaded_log fname f).
Proof. unfold loaded_log. destruct (fn_file f); by repeat constructor. Qed.

Section Runs.

Context (host : Host) (h0 : heap) (f : func) (context stt conf secr : value).
Context (names : option (list string)) (ci store : option (list (string * value))).
Context (items1 : list (string * value)).

Lemma apply_run_trace tr0 evs r st' :
  apply_run host h0 f context stt conf secr names ci store items1 tr0 evs r st' →
  ∃ extra, st_trace st' = tr0 ++ evs ++ extra
           ∧ (extra = [] ∨ ∃ kwargs hc,
                extra = [EvCall f [] kwargs hc]
                ∧ call_facts h0 f context stt names ci store items1 kwargs hc).
Proof.
  intros [e d hs hx _ _ _|ns hx _ _ _ _ _|hx _ _ _ _|hx _ _ _ _|kwargs hc Hcf].
  1-4: exists []; split; [by rewrite app_nil_r|by left].
  exists [EvCall f [] kwargs hc]. split; [by rewrite <- app_assoc|].
  right. by exists kwargs, hc.
Qed.



End Runs.

Lemma in_app_event (e : event) (xs ys : list event) :
  In e (xs ++ ys) ↔ In e xs ∨ In e ys.
Proof. apply in_app_iff. Qed.

(** *** What a computation may add to the trace *)

(** [m] only adds events that satisfy [Q] to the trace. *)
Definition emits {A} (Q : event → Prop) (m : M A) : Prop :=
  ∀ st, ∃ evs, st_trace (snd (m st)) = st_trace st ++ evs ∧ Forall Q evs.

Lemma emits_quiet {A} Q (m : M A) :
  (∀ st, st_trace (snd (m st)) = st_trace st) → emits Q m.
Proof. intros H st. exists []. split; [by rewrite app_nil_r|constructor]. Qed.

Lemma emits_ret {A} Q (a : A) : emits Q (ret a).
Proof. by apply emits_quiet. Qed.

Lemma emits_raise {A} Q e : emits Q (@raise A e).
Proof. by apply emits_quiet. Qed.

Lemma emits_wrong {A} Q : emits Q (@wrong A).
Proof. by apply emits_quiet. Qed.

Lemma emits_get_heap Q : emits Q get_heap.
Proof. by apply emits_quiet. Qed.

Lemma emits_put_heap Q h : emits Q (put_heap h).
Proof. by apply emits_quiet. Qed.

Lemma emits_bind {A B} Q (m : M A) (k : A → M B) :
  emits Q m → (∀ a, emits Q (k a)) → emits Q (bind m k).
Proof.
  intros Hm Hk st. unfold bind. destruct (Hm st) as (evs1 & E1 & Q1).
  destruct (m st) as [[a|e|] st1]; simpl in *; [|by exists evs1..].
  destruct (Hk a st1) as (evs2 & E2 & Q2). exists (evs1 ++ evs2). split.
  - by rewrite E2, E1, app_assoc.
  - by apply Forall_app.
Qed.

(** The bodies of the primitives are binds, matches and the operations
    above. *)
Ltac emits_step :=
  first
    [ apply emits_ret | apply emits_raise | apply emits_wrong
    | apply emits_get_heap | apply emits_put_heap
    | apply emits_bind; [|intros ?]
    | match goal with
      | |- emits _ (match ?x with _ => _ end) => destruct x
      end ].

Ltac emits_auto := repeat emits_step.

Lemma emits_deref Q l : emits Q (deref l).
Proof. unfold deref. emits_auto. Qed.

Lemma emits_store Q l o : emits Q (store l o).
Proof. unfold store. emits_auto. Qed.

Lemma emits_alloc Q o : emits Q (alloc o).
Proof. unfold alloc. emits_auto. Qed.

Lemma emits_contains Q k c : emits Q (contains k c).
Proof. unfold contains. destruct c; emits_auto; apply emits_deref. Qed.

Lemma emits_getitem Q c k : emits Q (getitem c k).
Proof. unfold getitem. destruct c; emits_auto; apply emits_deref. Qed.

Lemma emits_dict_get Q c k d : emits Q d → emits Q (dict_get c k d).
Proof.
  intros Hd. unfold dict_get. destruct c; emits_auto; try apply emits_deref; done.
Qed.

Lemma emits_setitem Q c k v : emits Q (setitem c k v).
Proof.
  unfold setitem. destruct c; emits_auto; first [apply emits_deref|apply emits_store].
Qed.

Lemma emits_shallow_copy Q c : emits Q (shallow_copy c).
Proof.
  unfold shallow_copy. destruct c; emits_auto; first [apply emits_deref|apply emits_alloc].
Qed.

Lemma emits_iterate Q c : emits Q (iterate c).
Proof. unfold iterate. destruct c; emits_auto; apply emits_deref. Qed.

Lemma emits_for_each {A} Q (xs : list A) body :
  (∀ x, emits Q (body x)) → emits Q (for_each xs body).
Proof.
  intros Hb. induction xs as [|x xs IH]; simpl; [apply emits_ret|].
  apply emits_bind; [apply Hb|by intros _].
Qed.

Lemma emits_pair_of Q e : emits Q (pair_of e).
Proof.
  unfold pair_of. destruct e as [| | |s| |l]; try apply emits_raise.
  - destruct (characters s) as [|a [|b [|c cs]]];
      first [apply emits_raise|apply emits_ret].
  - apply emits_bind; [apply emits_deref|]. intros [items|elems].
    + destruct items as [|[k1 v1] [|[k2 v2] [|kv items]]];
        first [apply emits_raise|apply emits_ret].
    + destruct elems as [|a [|b [|c elems]]];
        first [apply emits_raise|apply emits_ret].
Qed.

Lemma emits_put_entry Q tgt kv : emits Q (put_entry tgt kv).
Proof.
  unfold put_entry. destruct (fst kv); emits_auto;
    first [apply emits_deref|apply emits_store].
Qed.

Lemma emits_dict_update Q tgt src : emits Q (dict_update tgt src).
Proof.
  unfold dict_update. destruct tgt as [| | | | |lt]; try apply emits_raise.
  apply emits_bind; [apply emits_deref|]. intros [items|elems]; [|apply emits_raise].
  destruct src as [| | |s| |ls]; try apply emits_raise.
  - destruct s; first [apply emits_raise|apply emits_ret].
  - apply emits_bind; [apply emits_deref|]. intros [sitems|selems].
    + apply emits_bind; [apply emits_deref|]. intros [?|?];
        first [apply emits_store|apply emits_wrong].
    + apply emits_for_each. intros e.
      apply emits_bind; [apply emits_pair_of|]. intros kv. apply emits_put_entry.
Qed.

Lemma emits_call host f args kwargs : emits is_call (call host f args kwargs).
Proof.
  destruct f; try apply emits_raise. intros st. simpl.
  eexists [_]. split; [done|]. by repeat constructor.
Qed.

Lemma emits_call_with_context host f context arguments :
  emits is_call (call_with_context host f context arguments).
Proof.
  unfold call_with_context. destruct arguments; emits_auto;
    first [apply emits_deref|apply emits_call].
Qed.

(** After the substitution pass, the only events are calls of the hook. *)
Lemma emits_apply_tail host func provider context stt conf secr arguments :
  emits is_call (apply_tail host func provider context stt conf secr arguments).
Proof.
  unfold apply_tail, apply_finish, inject_secrets, inject_configuration,
    secrets_loop_body, signature.
  apply emits_bind; [destruct func; first [apply emits_ret|apply emits_raise]|].
  intros params. apply emits_bind; [apply emits_contains|]. intros has.
  apply emits_bind.
  { destruct (has && _); [|apply emits_ret].
    apply emits_bind; [apply emits_alloc|]. intros fresh.
    apply emits_bind; [apply emits_setitem|]. intros _.
    apply emits_bind; [apply emits_getitem|]. intros names.
    apply emits_bind; [apply emits_iterate|]. intros items.
    apply emits_for_each. intros s.
    apply emits_bind; [apply emits_getitem|]. intros target.
    apply emits_bind; [apply emits_dict_get, emits_alloc|]. intros group.
    apply emits_bind; [apply emits_shallow_copy|]. intros group_copy.
    apply emits_dict_update. }
  intros _. apply emits_bind.
  { destruct (bool_decide _); [|apply emits_ret].
    apply emits_bind; [apply emits_shallow_copy|]. intros c. apply emits_setitem. }
  intros _. apply emits_bind.
  { destruct (bool_decide _); [apply emits_setitem|apply emits_ret]. }
  intros _. apply emits_bind; [apply emits_call_with_context|]. intros _. apply emits_ret.
Qed.

Lemma pre_events_cases e fname f tv a0 h2 (b : bool) conf secr :
  In e (loaded_log fname f ++ [EvDeepcopy tv a0 h2]
        ++ (if b then [EvSubstitute a0 conf secr h2] else [])) →
  is_log e ∨ e = EvDeepcopy tv a0 h2 ∨ (b = true ∧ e = EvSubstitute a0 conf secr h2).
Proof.
  rewrite !in_app_event. intros [Hin|[[<-|[]]|Hin]].
  - left. pose proof (loaded_log_is_log fname f) as Hl. rewrite Forall_forall in Hl.
    by apply Hl, list_elem_of_In.
  - right. by left.
  - right. right. destruct b; [|done]. by destruct Hin as [<-|[]].
Qed.

Section Substitution.

Context (host : Host).
Hypothesis Hsub : substitute_respects_frame host.



End Substitution.

(** ** Validation reads the module path from the wrong dictionary *)

Section ValidateModule.

Context (host : Host).

(** C1, as the code has it.  [validate_python_control] looks the module
    path up in the control descriptor, not in its provider: a descriptor
    with a name and a provider, and no [module] key of its own, is refused
    with [InvalidActivity] whatever module path its provider has, and no
    load is attempted. *)
Theorem validate_ignores_module_of_provider (l : loc) items name prov st :
  st_heap st !! l = Some (ODict items) →
  assoc_get "name" items = Some name →
  assoc_get "provider" items = Some prov →
  assoc_get "module" items = None →
  validate_python_control host (VRef l) st
  = (Raise (InvalidActivity [Text "Control '"; Shown name;
                             Text "' must have a module path"]), st).
Proof.
  intros Hl Hn Hp Hm. unfold validate_python_control.
  rewrite (bind_Return _ _ _ _ _ (contains_dict "name" _ _ _ Hl)).
  rewrite (assoc_mem_true _ _ _ Hn). cbn [negb].
  rewrite (bind_Return _ _ _ _ _ (getitem_dict "name" _ _ _ _ Hl Hn)).
  rewrite (bind_Return _ _ _ _ _ (contains_dict "provider" _ _ _ Hl)).
  rewrite (assoc_mem_true _ _ _ Hp). cbn [negb].
  rewrite (bind_Return _ _ _ _ _ (getitem_dict "provider" _ _ _ _ Hl Hp)).
  rewrite (bind_Return _ _ _ _ _ (dict_get_ret _ _ "module" VNone _ Hl)).
  by rewrite Hm.
Qed.

(** The module path the check does read: a [module] key of the descriptor
    itself is loaded, and a descriptor whose provider has no module path
    passes. *)
Lemma validate_accepts_module_of_control (l : loc) items name prov mp md st :
  st_heap st !! l = Some (ODict items) →
  assoc_get "name" items = Some name →
  assoc_get "provider" items = Some prov →
  assoc_get "module" items = Some (VStr mp) →
  resolve_module host mp = Loaded md →
  validate_python_control host (VRef l) st = (Return tt, st).
Proof.
  intros Hl Hn Hp Hm Hr. unfold validate_python_control.
  rewrite (bind_Return _ _ _ _ _ (contains_dict "name" _ _ _ Hl)).
  rewrite (assoc_mem_true _ _ _ Hn). cbn [negb].
  rewrite (bind_Return _ _ _ _ _ (getitem_dict "name" _ _ _ _ Hl Hn)).
  rewrite (bind_Return _ _ _ _ _ (contains_dict "provider" _ _ _ Hl)).
  rewrite (assoc_mem_true _ _ _ Hp). cbn [negb].
  rewrite (bind_Return _ _ _ _ _ (getitem_dict "provider" _ _ _ _ Hl Hp)).
  rewrite (bind_Return _ _ _ _ _ (dict_get_ret _ _ "module" VNone _ Hl)).
  rewrite Hm. cbn [default from_option id truthy]. rewrite bind_ret.
  destruct mp as [|a mp]; [done|]. cbn [is_empty_string negb].
  unfold catch, bind, import_module. by rewrite Hr.
Qed.

End ValidateModule.

(** ** A worked configuration *)

Definition value_validb (n : nat) (v : value) : bool :=
  match v with VRef l => l <? n | _ => true end.

(** Every reference stored in the heap is allocated. *)
Definition heap_closedb (h : heap) : bool :=
  forallb (λ o, forallb (value_validb (length h)) (obj_children o)) h.

(** Every group of the store is a dictionary. *)
Definition store_okb (h : heap) (store : list (string * value)) : bool :=
  forallb (λ kv, match snd kv with
                 | VRef lg => match h !! lg with
                              | Some (ODict _) => true
                              | _ => false
                              end
                 | _ => false
                 end) store.

Lemma heap_closedb_sound h : heap_closedb h = true → heap_closed h.
Proof.
  unfold heap_closedb. rewrite forallb_forall. intros Hb l Hl.
  destruct (lookup_lt_is_Some_2 h l Hl) as [o Ho]. exists o. split; [done|].
  assert (In o h) as Hin by (apply list_elem_of_In, list_elem_of_lookup; eauto).
  specialize (Hb o Hin). rewrite forallb_forall in Hb.
  apply Forall_forall. intros v Hv. apply list_elem_of_In, Hb in Hv.
  destruct v; try done. simpl in *. by apply Nat.ltb_lt.
Qed.

Lemma store_okb_sound h store : store_okb h store = true → store_ok h store.
Proof.
  unfold store_okb. rewrite forallb_forall. intros Hb s g Hg.
  assert (In (s, g) store) as Hin.
  { clear Hb. induction store as [|[k v] store IH]; simpl in *; [done|].
    destruct (String.eqb_spec s k) as [->|Hne]; [left; congruence|right; by apply IH]. }
  specialize (Hb _ Hin). simpl in Hb.
  destruct g as [| | | | |lg]; try done.
  destruct (h !! lg) as [[gi|?]|] eqn:E; try done. by exists lg, gi.
Qed.

#[global] Instance keys_unique_dec o : Decision (keys_unique o).
Proof. destruct o; simpl; apply _. Defined.

Definition demo_hook : func :=
  Func "before_activity_control"
       ["context"; "state"; "configuration"; "secrets"] (Some "/pkg/mod.py").

Definition demo_configure : func :=
  Func "configure_control" ["configuration"; "secrets"] (Some "/pkg/mod.py").

Definition demo_cleanup : func :=
  Func "cleanup_control" [] (Some "/pkg/mod.py").

Definition demo_module : module := [
  ("before_activity_control", VFunc demo_hook);
  ("configure_control", VFunc demo_configure);
  ("cleanup_control", VFunc demo_cleanup)
].

(** A hook that asks for the secrets only, in [pkg.sec]. *)
Definition demo_secrets_hook : func :=
  Func "before_activity_control" ["context"; "secrets"] (Some "/pkg/sec.py").

(** A substitution engine that works in place: it marks the mapping it is
    given. *)
Definition demo_substitute (data conf secr : value) (h : heap)
  : outcome value * heap :=
  match data with
  | VRef ld =>
      match h !! ld with
      | Some (ODict items) =>
          (Return data,
           <[ld := ODict (assoc_set "substituted" (VBool true) items)]> h)
      | _ => (Return data, h)
      end
  | _ => (Return data, h)
  end.

(** [pkg.mod] has the three hooks, [pkg.sec] one, [pkg.bare] none; no other
    module is installed.  Hooks return [None] and touch nothing. *)
Definition demo_host : Host := {|
  host_import := λ s,
    if String.eqb s "pkg.mod" then Loaded demo_module
    else if String.eqb s "pkg.sec"
         then Loaded [("before_activity_control", VFunc demo_secrets_hook)]
    else if String.eqb s "pkg.bare" then Loaded []
    else ImportFails ModuleNotFoundError;
  host_substitute := demo_substitute;
  host_call := λ _ _ _ h, (Return VNone, h)
|}.

Definition demo_provider : list (string * value) :=
  [("module", VStr "pkg.mod"); ("arguments", VRef 2); ("secrets", VRef 3)].

Definition demo_configuration : list (string * value) :=
  [("endpoint", VStr "http://x")].

Definition demo_store : list (string * value) :=
  [("group-a", VRef 7); ("group-b", VRef 8)].

Definition demo_heap : heap := [
  ODict [("name", VStr "c1"); ("provider", VRef 1)];
  ODict demo_provider;
  ODict [("url", VStr "${endpoint}"); ("opts", VRef 4)];
  OList [VStr "group-a"; VStr "group-b"];
  ODict [("retries", VInt 3)];
  ODict demo_configuration;
  ODict demo_store;
  ODict [("user", VStr "a"); ("token", VStr "t")];
  ODict [("user", VStr "b")]
].

Definition demo_state : state := State demo_heap [].

(** The same control with a provider of [module_path] and nothing else. *)
Definition bare_heap (module_path : string) : heap := [
  ODict [("name", VStr "c1"); ("provider", VRef 1)];
  ODict [("module", VStr module_path)]
].

(** A provider that declares an empty list of secret groups. *)
Definition empty_groups_heap : heap := [
  ODict [("name", VStr "c1"); ("provider", VRef 1)];
  ODict [("module", VStr "pkg.sec"); ("secrets", VRef 2)];
  OList []
].

Lemma demo_substitute_respects_frame : substitute_respects_frame demo_host.
Proof.
  intros ld items conf secr h n Hn Hld Hiso. simpl. unfold demo_substitute.
  rewrite Hld. simpl. split_and!; [done|by apply agree_below_insert|].
  intros v [= <-]. eexists ld, _. split_and!; [done|done|].
  apply list_lookup_insert_eq. by eapply lookup_lt_Some.
Qed.

Lemma demo_resolved :
  resolved demo_host demo_heap "activity-before" 0 1 demo_provider
           "before_activity_control" demo_hook.
Proof.
  split; [by eexists|done|by eexists _, _|done].
Qed.

Lemma demo_shape :
  call_shape demo_heap demo_provider (VRef 5) (VRef 6)
             (Some ["group-a"; "group-b"]) (Some demo_configuration)
             (Some demo_store).
Proof.
  split.
  - by apply heap_closedb_sound.
  - by eexists _, _.
  - by eexists.
  - by eexists.
  - eexists. split_and!; [done|done|]. by apply store_okb_sound.
Qed.

Lemma demo_keys_unique : Forall keys_unique demo_heap.
Proof. apply (bool_decide_unpack (Forall keys_unique demo_heap)). by vm_compute. Qed.


(** ** The theorems at work *)

Lemma validate_structural_checks_in_order_witness :
  let st := State [ODict [("provider", VRef 1)]; ODict []] [] in
  st_heap st !! 0 = Some (ODict [("provider", VRef 1)])
  ∧ (assoc_get "name" [("provider", VRef 1)] = None →
     validate_python_control demo_host (VRef 0) st =
       (Raise (InvalidControl [Text "A control must have a `name` property"]), st))
  ∧ (∀ name, assoc_get "name" [("provider", VRef 1)] = Some name →
     assoc_get "provider" [("provider", VRef 1)] = None →
     ∃ msg, validate_python_control demo_host (VRef 0) st
            = (Raise (InvalidControl msg), st)
            ∧ mentions name msg
            ∧ msg = [Text "Control '"; Shown name;
                     Text "' must have a `provider` property"]).
Proof.
  intros st. split; [reflexivity|].
  apply (validate_structural_checks_in_order demo_host 0 [("provider", VRef 1)] st).
  reflexivity.
Defined.

Lemma validate_ignores_module_of_provider_witness :
  st_heap demo_state !! 0 = Some (ODict [("name", VStr "c1"); ("provider", VRef 1)])
  ∧ resolve_module demo_host "pkg.mod" = Loaded demo_module
  ∧ validate_python_control demo_host (VRef 0) demo_state
    = (Raise (InvalidActivity [Text "Control '"; Shown (VStr "c1");
                               Text "' must have a module path"]), demo_state).
Proof.
  split; [reflexivity|]. split; [reflexivity|].
  apply (validate_ignores_module_of_provider demo_host 0
           [("name", VStr "c1"); ("provider", VRef 1)] (VStr "c1") (VRef 1) demo_state);
    reflexivity.
Defined.

Lemma demo_control_at : control_at demo_heap 0 1 (VStr "pkg.mod").
Proof. by eexists _, _. Qed.

Lemma apply_unknown_level_raises_witness :
  control_at (st_heap demo_state) 0 1 (VStr "pkg.mod")
  ∧ resolve_module demo_host "pkg.mod" = Loaded demo_module
  ∧ assoc_get "unknown-level" _level_mapping = None
  ∧ apply_python_control demo_host "unknown-level" (VRef 0) VNone VNone
      (VRef 5) (VRef 6) demo_state
    = (Raise TypeError, demo_state).
Proof.
  split; [exact demo_control_at|]. split; [reflexivity|]. split; [reflexivity|].
  apply (apply_unknown_level_raises demo_host "unknown-level" 0 1 "pkg.mod"
           demo_module VNone VNone (VRef 5) (VRef 6) demo_state);
    [exact demo_control_at|reflexivity|reflexivity].
Defined.

Lemma bare_control_at mp : control_at (bare_heap mp) 0 1 (VStr mp).
Proof. by eexists _, _. Qed.

Lemma hook_resolution_misses_are_silent_witness :
  let st := State (bare_heap "pkg.missing") [] in
  control_at (st_heap st) 0 1 (VStr "pkg.missing")
  ∧ resolve_module demo_host "pkg.missing" = ImportFails ModuleNotFoundError
  ∧ silent_noop (initialize_control demo_host (VRef 0) VNone VNone) st
  ∧ silent_noop (cleanup_control demo_host (VRef 0)) st
  ∧ ∀ level fname, assoc_get level _level_mapping = Some fname →
      silent_noop (apply_python_control demo_host level (VRef 0) VNone VNone
                     VNone VNone) st.
Proof.
  intros st. split; [exact (bare_control_at "pkg.missing")|]. split; [reflexivity|].
  apply (hook_resolution_misses_are_silent demo_host 0 1 "pkg.missing"
           VNone VNone VNone VNone st (bare_control_at "pkg.missing")).
  reflexivity.
Defined.

Lemma initialize_and_cleanup_call_their_hook_witness :
  control_at (st_heap demo_state) 0 1 (VStr "pkg.mod")
  ∧ resolve_module demo_host "pkg.mod" = Loaded demo_module
  ∧ initialize_control demo_host (VRef 0) (VRef 5) (VRef 6) demo_state
    = (Return tt,
       State demo_heap
             (loaded_log "configure_control" demo_configure
              ++ [EvCall demo_configure [VRef 5; VRef 6] [] demo_heap]))
  ∧ cleanup_control demo_host (VRef 0) demo_state
    = (Return tt,
       State demo_heap
             (loaded_log "cleanup_control" demo_cleanup
              ++ [EvCall demo_cleanup [] [] demo_heap])).
Proof.
  split; [exact demo_control_at|]. split; [reflexivity|].
  destruct (initialize_and_cleanup_call_their_hook demo_host 0 1 "pkg.mod"
              demo_module (VRef 5) (VRef 6) demo_state demo_control_at eq_refl)
    as [Hi Hc].
  split; [exact (Hi demo_configure eq_refl)|exact (Hc demo_cleanup eq_refl)].
Defined.

Lemma secrets_argument_is_union_of_groups_witness :
  let h0 := st_heap demo_state in
  let r := apply_python_control demo_host "activity-before" (VRef 0) VNone VNone
             (VRef 5) (VRef 6) demo_state in
  resolved demo_host h0 "activity-before" 0 1 demo_provider
           "before_activity_control" demo_hook
  ∧ call_shape h0 demo_provider (VRef 5) (VRef 6)
               (Some ["group-a"; "group-b"]) (Some demo_configuration)
               (Some demo_store)
  ∧ Forall keys_unique h0
  ∧ "secrets" ∈ fn_params demo_hook
  ∧ ∃ evs kwargs hc ls merged,
      Forall (λ e, ¬ is_call e) evs
      ∧ st_trace (snd r)
        = (st_trace demo_state ++ evs) ++ [EvCall demo_hook [] kwargs hc]
      ∧ fst r = discard (fst (host_call demo_host demo_hook [] kwargs hc))
      ∧ assoc_get "secrets" kwargs = Some (VRef ls)
      ∧ length h0 ≤ ls
      ∧ hc !! ls = Some (ODict merged)
      ∧ assoc_get "user" merged = Some (VStr "b")
      ∧ assoc_get "token" merged = Some (VStr "t")
      ∧ assoc_get "password" merged = None.
Proof.
  intros h0 r.
  assert ("secrets" ∈ fn_params demo_hook) as Hs by (apply list_elem_of_In; simpl; tauto).
  split; [exact demo_resolved|]. split; [exact demo_shape|].
  split; [exact demo_keys_unique|]. split; [exact Hs|].
  destruct (secrets_argument_is_union_of_groups demo_host demo_substitute_respects_frame
              "activity-before" 0 1 demo_provider "before_activity_control" demo_hook
              VNone VNone (VRef 5) (VRef 6) ["group-a"; "group-b"]
              (Some demo_configuration) demo_store demo_state
              demo_resolved demo_shape demo_keys_unique Hs)
    as (evs & Hnc & [(e & He & _)
                    |(kwargs & hc & ls & merged & Htr & Hr & Hk & Hls & Hm & Hall)]).
  - exfalso. vm_compute in He. discriminate He.
  - exists evs, kwargs, hc, ls, merged.
    split_and!; [exact Hnc|exact Htr|exact Hr|exact Hk|exact Hls|exact Hm|..];
      rewrite Hall; reflexivity.
Defined.


Lemma demo_shape_no_stores :
  call_shape demo_heap demo_provider VNone VNone
             (Some ["group-a"; "group-b"]) None None.
Proof.
  split; [by apply heap_closedb_sound|by eexists _, _|by eexists|done|done].
Qed.

Lemma apply_raises_without_its_stores_witness :
  let h0 := st_heap demo_state in
  let r := apply_python_control demo_host "activity-before" (VRef 0) VNone VNone
             VNone VNone demo_state in
  resolved demo_host h0 "activity-before" 0 1 demo_provider
           "before_activity_control" demo_hook
  ∧ call_shape h0 demo_provider VNone VNone
               (Some ["group-a"; "group-b"]) None None
  ∧ ("secrets" ∈ fn_params demo_hook ∧ VNone = VNone
     ∧ ∃ ns, Some ["group-a"; "group-b"] = Some ns ∧ ns ≠ [])
  ∧ ∃ e evs, fst r = Raise e
             ∧ st_trace (snd r) = st_trace demo_state ++ evs
             ∧ Forall (λ e, ¬ is_call e) evs
             ∧ (e = AttributeError
                ∨ raised_by_substitute demo_host VNone VNone evs e).
Proof.
  intros h0 r.
  assert ("secrets" ∈ fn_params demo_hook ∧ VNone = VNone
          ∧ ∃ ns, Some ["group-a"; "group-b"] = Some ns ∧ ns ≠ []) as Hcase.
  { split; [apply list_elem_of_In; simpl; tauto|]. split; [reflexivity|].
    exists ["group-a"; "group-b"]. split; [reflexivity|discriminate]. }
  split; [exact demo_resolved|]. split; [exact demo_shape_no_stores|].
  split; [exact Hcase|].
  exact (apply_raises_without_its_stores demo_host demo_substitute_respects_frame
           "activity-before" 0 1 demo_provider "before_activity_control" demo_hook
           VNone VNone VNone VNone (Some ["group-a"; "group-b"]) None None
           demo_state demo_resolved demo_shape_no_stores (or_intror Hcase)).
Defined.

(** C9 as stated fails when the declared list of groups is empty: the loop
    never reaches [secrets.get], and the hook is called on an empty
    [secrets] dictionary although the caller's secrets are [None]. *)
Lemma apply_with_no_group_and_no_secrets_calls_the_hook :
  let st := State empty_groups_heap [] in
  let r := apply_python_control demo_host "activity-before" (VRef 0) VNone VNone
             VNone VNone st in
  st_heap st !! 1 = Some (ODict [("module", VStr "pkg.sec"); ("secrets", VRef 2)])
  ∧ st_heap st !! 2 = Some (OList [])
  ∧ resolve_module demo_host "pkg.sec"
    = Loaded [("before_activity_control", VFunc demo_secrets_hook)]
  ∧ "secrets" ∈ fn_params demo_secrets_hook
  ∧ ¬ (∃ e, fst r = Raise e)
  ∧ fst r = Return tt
  ∧ ∃ hc, last (st_trace (snd r))
          = Some (EvCall demo_secrets_hook []
                         [("context", VNone); ("secrets", VRef 5)] hc)
          ∧ hc !! 5 = Some (ODict []).
Proof.
  intros st r. split_and!; try reflexivity.
  - apply list_elem_of_In. simpl. tauto.
  - intros [e He]. vm_compute in He. discriminate.
  - eexists. split; [vm_compute; reflexivity|reflexivity].
Qed.



(** * Further properties of the module *)

(** ** Vocabulary *)

(** The level [kind-when] is served by the hook [when_kind_control]. *)
Definition hook_name (kind when : string) : string :=
  when ++ "_" ++ kind ++ "_control".

Definition level_name (kind when : string) : string := kind ++ "-" ++ when.

(** A computation that leaves the heap and the trace as they are. *)
Definition readonly {A} (m : M A) : Prop := ∀ st, snd (m st) = st.

(** The three operations of the module, at any level, all end in [r] on
    the control at [lc]. *)
Definition operations_end (host : Host) (lc : loc)
    (context stt conf secr : value) (st : state) (r : outcome unit * state)
  : Prop :=
  initialize_control host (VRef lc) conf secr st = r
  ∧ cleanup_control host (VRef lc) st = r
  ∧ ∀ level, apply_python_control host level (VRef lc) context stt conf secr st = r.

(** The module binds [fname] to a value that is false in [h]. *)
Definition bound_to_false (h : heap) (md : module) (fname : string) : Prop :=
  ∃ v, assoc_get fname md = Some v
       ∧ value_within 0 (length h) v ∧ truthyb h v = false.

(** Plain data: [None], a boolean, an integer, a string, a dictionary or a
    list.  None of them can be called and [inspect.getfile] refuses them
    all; whatever can be called (a function, a class, a partial
    application) is a [VFunc] value. *)
Definition is_data (v : value) : Prop :=
  match v with
  | VNone | VBool _ | VInt _ | VStr _ | VRef _ => True
  | VFunc _ => False
  end.

(** The module binds [fname] to plain data that is true in [h]. *)
Definition bound_to_data (h : heap) (md : module) (fname : string) : Prop :=
  ∃ v, assoc_get fname md = Some v
       ∧ value_within 0 (length h) v ∧ truthyb h v = true
       ∧ is_data v.

(** The entries of the provider's argument template; none when the
    provider has no template. *)
Definition template_items (h : heap) (pitems : list (string * value))
  : list (string * value) :=
  match assoc_get "arguments" pitems with
  | Some (VRef lt) =>
      match h !! lt with
      | Some (ODict titems) => titems
      | _ => []
      end
  | _ => []
  end.

(** The template, when there is one, is a mapping. *)
Definition template_is_mapping (h : heap) (pitems : list (string * value)) : Prop :=
  match assoc_get "arguments" pitems with
  | Some v => ∃ lt titems, v = VRef lt ∧ h !! lt = Some (ODict titems)
  | None => True
  end.

(** Nothing is injected into the arguments of the hook [f]. *)
Definition no_injection (pitems : list (string * value)) (f : func) : Prop :=
  ("secrets" ∉ fn_params f ∨ assoc_get "secrets" pitems = None)
  ∧ ("configuration" ∉ fn_params f) ∧ ("state" ∉ fn_params f).

(** A module whose hook names are bound to data: [configure_control] to
    [None], [cleanup_control] to a string, [before_activity_control] to
    zero. *)
Definition edge_module : module := [
  ("configure_control", VNone);
  ("cleanup_control", VStr "not a function");
  ("before_activity_control", VInt 0)
].

(** [demo_host] with [pkg.edge] installed as well. *)
Definition edge_host : Host := {|
  host_import := λ s,
    if String.eqb s "pkg.edge" then Loaded edge_module
    else host_import demo_host s;
  host_substitute := demo_substitute;
  host_call := λ _ _ _ h, (Return VNone, h)
|}.

(** A control of [pkg.sec], whose hook asks for the secrets, with a
    provider that has an argument template and lists no secret group;
    a configuration is at location 3. *)
Definition plain_provider : list (string * value) :=
  [("module", VStr "pkg.sec"); ("arguments", VRef 2)].

Definition plain_heap : heap := [
  ODict [("name", VStr "c1"); ("provider", VRef 1)];
  ODict plain_provider;
  ODict [("url", VStr "${endpoint}"); ("retries", VInt 3)];
  ODict [("endpoint", VStr "http://x")]
].

(** ** The table of levels *)

Lemma assoc_get_Some_In {A} k (kvs : list (string * A)) v :
  assoc_get k kvs = Some v → In (k, v) kvs.
Proof.
  induction kvs as [|[k' v'] kvs IH]; simpl; [done|].
  destruct (String.eqb_spec k k') as [->|Hne]; [intros [= ->]; by left|].
  intros H. right. by apply IH.
Qed.

Ltac level_entry_at kind when :=
  solve [ exists kind, when;
          split_and!; [simpl; tauto|simpl; tauto|reflexivity|reflexivity] ].

Ltac level_entry :=
  first [ level_entry_at "experiment" "before" | level_entry_at "experiment" "after"
        | level_entry_at "hypothesis" "before" | level_entry_at "hypothesis" "after"
        | level_entry_at "method" "before" | level_entry_at "method" "after"
        | level_entry_at "rollback" "before" | level_entry_at "rollback" "after"
        | level_entry_at "activity" "before" | level_entry_at "activity" "after" ].

Lemma level_mapping_entries level fname :
  assoc_get level _level_mapping = Some fname →
  ∃ kind when,
    In kind ["experiment"; "hypothesis"; "method"; "rollback"; "activity"]
    ∧ In when ["before"; "after"]
    ∧ level = level_name kind when ∧ fname = hook_name kind when.
Proof.
  intros H. apply assoc_get_Some_In in H. unfold _level_mapping in H.
  repeat (destruct H as [[= <- <-]|H]; [level_entry|]).
  destruct H.
Qed.

(** X1. The table of levels is regular and injective: a level it knows is
    [kind-when] for one of the five kinds and [before] or [after], its hook
    is [when_kind_control], which is neither [configure_control] nor
    [cleanup_control], and no other level has the same hook. *)
Theorem level_table_is_regular_and_injective level fname :
  assoc_get level _level_mapping = Some fname →
  (∃ kind when,
     In kind ["experiment"; "hypothesis"; "method"; "rollback"; "activity"]
     ∧ In when ["before"; "after"]
     ∧ level = level_name kind when ∧ fname = hook_name kind when)
  ∧ fname ≠ "configure_control" ∧ fname ≠ "cleanup_control"
  ∧ ∀ level', assoc_get level' _level_mapping = Some fname → level' = level.
Proof.
  intros H. split; [by apply level_mapping_entries|].
  destruct (level_mapping_entries _ _ H) as (kind & when & Hk & Hw & -> & ->).
  split_and!.
  - simpl in Hk, Hw. intuition subst; discriminate.
  - simpl in Hk, Hw. intuition subst; discriminate.
  - intros level' H'.
    destruct (level_mapping_entries _ _ H') as (kind' & when' & Hk' & Hw' & -> & E).
    simpl in Hk, Hw, Hk', Hw'.
    intuition subst; first [reflexivity|discriminate E].
Qed.

(** ** Computations that leave the state alone *)

Lemma readonly_ret {A} (a : A) : readonly (ret a).
Proof. by intros st. Qed.

Lemma readonly_raise {A} e : readonly (@raise A e).
Proof. by intros st. Qed.

Lemma readonly_wrong {A} : readonly (@wrong A).
Proof. by intros st. Qed.

Lemma readonly_bind {A B} (m : M A) (k : A → M B) :
  readonly m → (∀ a, readonly (k a)) → readonly (bind m k).
Proof.
  intros Hm Hk st. unfold bind. specialize (Hm st).
  destruct (m st) as [[a|e|] st1]; simpl in Hm; subst st1; [apply Hk|done..].
Qed.

Lemma readonly_catch {A} (m : M A) handler :
  readonly m → (∀ e h, handler e = Some h → readonly h) → readonly (catch m handler).
Proof.
  intros Hm Hh st. unfold catch. specialize (Hm st).
  destruct (m st) as [[a|e|] st1]; simpl in Hm; subst st1; try done.
  destruct (handler e) as [h|] eqn:E; [by eapply Hh|done].
Qed.

Lemma readonly_deref l : readonly (deref l).
Proof. intros st. unfold deref, bind, get_heap. simpl. by destruct (st_heap st !! l). Qed.

Ltac readonly_step :=
  first
    [ apply readonly_ret | apply readonly_raise | apply readonly_wrong
    | apply readonly_deref
    | apply readonly_bind; [|intros ?]
    | match goal with
      | |- readonly (match ?x with _ => _ end) => destruct x
      | |- readonly (if ?x then _ else _) => destruct x
      end ].

Ltac readonly_auto := repeat readonly_step.

Lemma readonly_contains k c : readonly (contains k c).
Proof. unfold contains. readonly_auto. Qed.

Lemma readonly_getitem c k : readonly (getitem c k).
Proof. unfold getitem. readonly_auto. Qed.

Lemma readonly_dict_get c k d : readonly d → readonly (dict_get c k d).
Proof. intros Hd. unfold dict_get. readonly_auto; try done. Qed.

Lemma readonly_truthy v : readonly (truthy v).
Proof. unfold truthy. readonly_auto. Qed.

Lemma readonly_import_module host name : readonly (import_module host name).
Proof. unfold import_module. readonly_auto. Qed.

Lemma readonly_getattr_or md name d : readonly (getattr_or md name d).
Proof. unfold getattr_or. readonly_auto. Qed.

Lemma readonly_getfile f : readonly (getfile f).
Proof. unfold getfile. readonly_auto. Qed.

(** X2. [validate_python_control] only reads: whatever the control is and
    however the check ends, the heap and the trace are the ones it started
    with -- nothing is logged, copied or called, and the descriptor is not
    changed. *)
Theorem validate_python_control_changes_nothing host control st :
  snd (validate_python_control host control st) = st.
Proof.
  revert st. change (readonly (validate_python_control host control)).
  unfold validate_python_control.
  apply readonly_bind; [apply readonly_contains|]. intros has_name.
  destruct (negb has_name); [apply readonly_raise|].
  apply readonly_bind; [apply readonly_getitem|]. intros name.
  apply readonly_bind; [apply readonly_contains|]. intros has_provider.
  destruct (negb has_provider); [apply readonly_raise|].
  apply readonly_bind; [apply readonly_getitem|]. intros provider.
  apply readonly_bind; [apply readonly_dict_get, readonly_ret|]. intros mod_name.
  apply readonly_bind; [apply readonly_truthy|]. intros t.
  destruct (negb t); [apply readonly_raise|].
  apply readonly_catch.
  - apply readonly_bind; [apply readonly_import_module|]. intros _. apply readonly_ret.
  - intros e h. destruct e; intros [= <-]. apply readonly_raise.
Qed.

(** X3. For a descriptor with a name, a provider and a [module] entry of
    its own, the check ends as the import of that entry does: a false
    entry is refused with "must have a module path"; a module that loads
    passes; [ModuleNotFoundError] becomes [InvalidActivity] with the module
    and the name spliced in; any other exception of the import reaches the
    caller as it is. *)
Theorem validate_outcome_follows_import host (l : loc) items name prov mv st :
  st_heap st !! l = Some (ODict items) →
  assoc_get "name" items = Some name →
  assoc_get "provider" items = Some prov →
  assoc_get "module" items = Some mv →
  value_within 0 (length (st_heap st)) mv →
  validate_python_control host (VRef l) st
  = (if truthyb (st_heap st) mv
     then match fst (import_module host mv st) with
          | Return _ => Return tt
          | Raise ModuleNotFoundError =>
              Raise (InvalidActivity
                       [Text "could not find Python module '"; Shown mv;
                        Text "' in control '"; Shown name; Text "'"])
          | Raise e => Raise e
          | Wrong => Wrong
          end
     else Raise (InvalidActivity [Text "Control '"; Shown name;
                                  Text "' must have a module path"]), st).
Proof.
  intros Hl Hn Hp Hm Hv. unfold validate_python_control.
  rewrite (bind_Return _ _ _ _ _ (contains_dict "name" _ _ _ Hl)).
  rewrite (assoc_mem_true _ _ _ Hn). cbn [negb].
  rewrite (bind_Return _ _ _ _ _ (getitem_dict "name" _ _ _ _ Hl Hn)).
  rewrite (bind_Return _ _ _ _ _ (contains_dict "provider" _ _ _ Hl)).
  rewrite (assoc_mem_true _ _ _ Hp). cbn [negb].
  rewrite (bind_Return _ _ _ _ _ (getitem_dict "provider" _ _ _ _ Hl Hp)).
  rewrite (bind_Return _ _ _ _ _ (dict_get_ret _ _ "module" VNone _ Hl)).
  rewrite Hm. cbn [default from_option id].
  rewrite (bind_Return _ _ _ _ _ (truthy_run _ _ Hv)).
  destruct (truthyb (st_heap st) mv); [|done]. cbn [negb].
  pose proof (readonly_import_module host mv st) as Hro.
  unfold catch, bind.
  destruct (import_module host mv st) as [[md|e|] st1]; simpl in Hro; subst st1;
    [done| |done].
  by destruct e.
Qed.

(** ** Hook resolution *)

(** X4. [load_func] has no effect but logging: whatever the control and
    the function name are, and however it ends, it leaves the heap as it
    was and adds at most one event to the trace, a log line. *)
Theorem load_func_only_logs host control func_name st :
  ∃ evs, snd (load_func host control func_name st) = add_events st evs
         ∧ Forall is_log evs ∧ length evs ≤ 1.
Proof.
  assert (∀ r : outcome value, ∃ evs, snd (r, st) = add_events st evs
            ∧ Forall is_log evs ∧ length evs ≤ 1) as Hquiet.
  { intros r. exists []. rewrite add_events_nil. split_and!; [done|constructor|simpl; lia]. }
  assert (∀ (r : outcome value) msg,
            ∃ evs, snd (r, add_events st [EvLog msg]) = add_events st evs
                   ∧ Forall is_log evs ∧ length evs ≤ 1) as Hone.
  { intros r msg. exists [EvLog msg]. split_and!; [done|by repeat constructor|simpl; lia]. }
  unfold load_func, bind at 1.
  pose proof (readonly_getitem control "provider" st) as H1.
  destruct (getitem control "provider" st) as [[provider|e|] st1]; simpl in H1; subst st1;
    [|apply Hquiet..].
  unfold bind at 1.
  pose proof (readonly_getitem provider "module" st) as H2.
  destruct (getitem provider "module" st) as [[mod_path|e|] st1]; simpl in H2; subst st1;
    [|apply Hquiet..].
  unfold bind at 1, catch, bind at 1.
  pose proof (readonly_import_module host mod_path st) as H3.
  destruct (import_module host mod_path st) as [[md|e|] st1]; simpl in H3; subst st1;
    cbn [ret]; [|destruct e; first [apply Hquiet|apply Hone]|apply Hquiet].
  unfold bind at 1.
  pose proof (readonly_getattr_or md func_name VNone st) as H4.
  destruct (getattr_or md func_name VNone st) as [[func|e|] st1]; simpl in H4; subst st1;
    [|apply Hquiet..].
  unfold bind at 1.
  pose proof (readonly_truthy func st) as H5.
  destruct (truthy func st) as [[t|e|] st1]; simpl in H5; subst st1; [|apply Hquiet..].
  destruct t; cbn [negb]; [|apply Hone].
  unfold bind, catch, getfile.
  destruct func as [| | | |[nm ps [path|]]|]; first [apply Hquiet|apply Hone].
Qed.

Section Operations.

Context (host : Host).

(** X5. The three operations do not check the descriptor: on a control
    without a [provider] entry each of them raises [KeyError] for
    [provider], and on a provider without a [module] entry [KeyError] for
    [module], at every level and before anything is logged or changed. *)
Theorem operations_require_provider_and_module lc citems context stt conf secr st :
  st_heap st !! lc = Some (ODict citems) →
  (assoc_get "provider" citems = None →
   operations_end host lc context stt conf secr st (Raise (KeyError "provider"), st))
  ∧ (∀ lp pitems,
       assoc_get "provider" citems = Some (VRef lp) →
       st_heap st !! lp = Some (ODict pitems) →
       assoc_get "module" pitems = None →
       operations_end host lc context stt conf secr st (Raise (KeyError "module"), st)).
Proof.
  intros Hc. split.
  - intros Hp.
    pose proof (getitem_missing "provider" _ _ _ Hc Hp) as Hg.
    assert (∀ n, load_func host (VRef lc) n st = (Raise (KeyError "provider"), st)) as Hl.
    { intros n. unfold load_func. by rewrite (bind_Raise _ _ _ _ _ Hg). }
    split_and!.
    + unfold initialize_control. by rewrite (bind_Raise _ _ _ _ _ (Hl _)).
    + unfold cleanup_control. by rewrite (bind_Raise _ _ _ _ _ (Hl _)).
    + intros level. unfold apply_python_control. by rewrite (bind_Raise _ _ _ _ _ Hg).
  - intros lp pitems Hp Hpo Hm.
    pose proof (getitem_dict "provider" _ _ _ _ Hc Hp) as Hg.
    pose proof (getitem_missing "module" _ _ _ Hpo Hm) as Hg'.
    assert (∀ n, load_func host (VRef lc) n st = (Raise (KeyError "module"), st)) as Hl.
    { intros n. unfold load_func. rewrite (bind_Return _ _ _ _ _ Hg).
      by rewrite (bind_Raise _ _ _ _ _ Hg'). }
    split_and!.
    + unfold initialize_control. by rewrite (bind_Raise _ _ _ _ _ (Hl _)).
    + unfold cleanup_control. by rewrite (bind_Raise _ _ _ _ _ (Hl _)).
    + intros level. unfold apply_python_control. rewrite (bind_Return _ _ _ _ _ Hg).
      by rewrite (bind_Raise _ _ _ _ _ (Hl _)).
Qed.

(** X6. Only [ModuleNotFoundError] is absorbed by the hook resolution:
    when the import of the provider's module raises any other exception
    (the empty path, a relative path, a path that is not a string, ...),
    each of the three operations raises that exception, at every level and
    with nothing logged or changed. *)
Theorem import_errors_other_than_not_found_propagate
    lc lp mp e context stt conf secr st :
  control_at (st_heap st) lc lp mp →
  import_module host mp st = (Raise e, st) →
  e ≠ ModuleNotFoundError →
  operations_end host lc context stt conf secr st (Raise e, st).
Proof.
  intros Hc Hi He.
  assert (∀ n, load_func host (VRef lc) n st = (Raise e, st)) as Hl.
  { intros n. rewrite (load_func_prefix _ _ _ _ _ _ Hc).
    erewrite bind_Raise; [done|]. unfold catch, bind. rewrite Hi. by destruct e. }
  split_and!.
  - unfold initialize_control. by rewrite (bind_Raise _ _ _ _ _ (Hl _)).
  - unfold cleanup_control. by rewrite (bind_Raise _ _ _ _ _ (Hl _)).
  - intros level. unfold apply_python_control.
    rewrite (bind_Return _ _ _ _ _ (control_at_provider _ _ _ _ Hc)).
    by rewrite (bind_Raise _ _ _ _ _ (Hl _)).
Qed.

(** X7. When the provider's module is not found, [apply_python_control]
    returns at every level, recognised or not: the module is imported
    before the hook name is used, and the only effect is the log line that
    names the module. *)
Theorem missing_module_silences_every_level lc lp mp context stt conf secr st :
  control_at (st_heap st) lc lp (VStr mp) →
  resolve_module host mp = ImportFails ModuleNotFoundError →
  ∀ level,
    apply_python_control host level (VRef lc) context stt conf secr st
    = (Return tt,
       add_events st [EvLog [Text "Control module '"; Shown (VStr mp);
                             Text "' could not be loaded. Have you installed it?"]]).
Proof.
  intros Hc Hr level. eapply apply_after_miss; [exact Hc|].
  by eapply load_func_not_found.
Qed.

Lemma load_func_false lc lp mp md fname st :
  control_at (st_heap st) lc lp (VStr mp) →
  resolve_module host mp = Loaded md →
  bound_to_false (st_heap st) md fname →
  load_func host (VRef lc) (VStr fname) st =
    (Return VNone,
     add_events st [EvLog [Text "Control module '"; Shown (VStr mp);
                           Text "' does not declare '"; Shown (VStr fname);
                           Text "'"]]).
Proof.
  intros Hc Hr (v & Ha & Hv & Ht). rewrite (load_func_prefix _ _ _ _ _ _ Hc).
  erewrite bind_Return; cycle 1.
  { unfold catch, bind, import_module. by rewrite Hr. }
  cbv beta iota. erewrite bind_Return; cycle 1.
  { unfold getattr_or. by rewrite Ha. }
  rewrite (bind_Return _ _ _ _ _ (truthy_run _ _ Hv)). by rewrite Ht.
Qed.

(** X8. A hook name that the module binds to a false value ([None], zero,
    the empty string, an empty container) counts as not declared: the
    operation returns without raising, and the only effect is one log
    line. *)
Theorem false_attribute_counts_as_missing lc lp mp md context stt conf secr st :
  control_at (st_heap st) lc lp (VStr mp) →
  resolve_module host mp = Loaded md →
  (bound_to_false (st_heap st) md "configure_control" →
     silent_noop (initialize_control host (VRef lc) conf secr) st)
  ∧ (bound_to_false (st_heap st) md "cleanup_control" →
     silent_noop (cleanup_control host (VRef lc)) st)
  ∧ ∀ level fname, assoc_get level _level_mapping = Some fname →
      bound_to_false (st_heap st) md fname →
      silent_noop (apply_python_control host level (VRef lc) context stt conf secr) st.
Proof.
  intros Hc Hr. split_and!.
  - intros Hb. eexists. unfold initialize_control.
    by rewrite (bind_Return _ _ _ _ _ (load_func_false _ _ _ _ _ _ Hc Hr Hb)).
  - intros Hb. eexists. unfold cleanup_control.
    by rewrite (bind_Return _ _ _ _ _ (load_func_false _ _ _ _ _ _ Hc Hr Hb)).
  - intros level fname Hlv Hb. eexists.
    eapply apply_after_miss; [exact Hc|].
    rewrite (level_mapping_get_known _ _ Hlv). by eapply load_func_false.
Qed.

Lemma load_func_data lc lp mp md fname v st :
  control_at (st_heap st) lc lp (VStr mp) →
  resolve_module host mp = Loaded md →
  assoc_get fname md = Some v →
  value_within 0 (length (st_heap st)) v → truthyb (st_heap st) v = true →
  is_data v →
  load_func host (VRef lc) (VStr fname) st = (Return v, st).
Proof.
  intros Hc Hr Ha Hv Ht Hnf. rewrite (load_func_prefix _ _ _ _ _ _ Hc).
  erewrite bind_Return; cycle 1.
  { unfold catch, bind, import_module. by rewrite Hr. }
  cbv beta iota. erewrite bind_Return; cycle 1.
  { unfold getattr_or. by rewrite Ha. }
  rewrite (bind_Return _ _ _ _ _ (truthy_run _ _ Hv)). rewrite Ht. cbn [negb].
  unfold bind, catch, getfile. by destruct v.
Qed.

(** X9. A hook name that the module binds to plain data that is true (a
    true boolean, a non-zero integer, a non-empty string, dictionary or
    list: nothing that can be called) is resolved, without a log line, and
    then called: [initialize_control] and [cleanup_control] raise
    [TypeError], with nothing logged or changed. *)
Theorem data_attribute_is_not_callable lc lp mp md conf secr st :
  control_at (st_heap st) lc lp (VStr mp) →
  resolve_module host mp = Loaded md →
  (bound_to_data (st_heap st) md "configure_control" →
     initialize_control host (VRef lc) conf secr st = (Raise TypeError, st))
  ∧ (bound_to_data (st_heap st) md "cleanup_control" →
     cleanup_control host (VRef lc) st = (Raise TypeError, st)).
Proof.
  intros Hc Hr. split; intros (v & Ha & Hv & Ht & Hnf).
  - unfold initialize_control.
    rewrite (bind_Return _ _ _ _ _ (load_func_data _ _ _ _ _ _ _ Hc Hr Ha Hv Ht Hnf)).
    rewrite (bind_Return _ _ _ _ _ (truthy_run _ _ Hv)). rewrite Ht. cbn [negb].
    unfold bind, call. by destruct v.
  - unfold cleanup_control.
    rewrite (bind_Return _ _ _ _ _ (load_func_data _ _ _ _ _ _ _ Hc Hr Ha Hv Ht Hnf)).
    rewrite (bind_Return _ _ _ _ _ (truthy_run _ _ Hv)). rewrite Ht. cbn [negb].
    unfold bind, call. by destruct v.
Qed.

End Operations.

(** ** The run of [apply_python_control] *)

Section ApplyShape.

Context (host : Host).
Hypothesis Hsub : substitute_respects_frame host.

(** X10. On a resolved hook and well-typed arguments, a call of
    [apply_python_control] logs the load, deep-copies the template, runs
    the substitution pass if a store is true, and then either raises
    without calling the hook, or calls the hook once, last, on keyword
    arguments only: the outcome and the final heap of the call are the
    hook's, its return value dropped.  The call never returns without
    having called the hook. *)
Theorem apply_calls_the_hook_last_and_once
    level lc lp pitems fname f context stt conf secr names ci store st :
  let h0 := st_heap st in
  resolved host h0 level lc lp pitems fname f →
  call_shape h0 pitems conf secr names ci store →
  let r := apply_python_control host level (VRef lc) context stt conf secr st in
  ∃ a0 h2,
    let pre := loaded_log fname f ++ [EvDeepcopy (template_of h0 pitems) a0 h2]
               ++ (if truthyb h0 conf || truthyb h0 secr
                   then [EvSubstitute a0 conf secr h2] else []) in
    (st_trace (snd r) = st_trace st ++ pre ∧ ∃ e, fst r = Raise e)
    ∨ ∃ kwargs hc,
        st_trace (snd r) = (st_trace st ++ pre) ++ [EvCall f [] kwargs hc]
        ∧ fst r = discard (fst (host_call host f [] kwargs hc))
        ∧ st_heap (snd r) = snd (host_call host f [] kwargs hc).
Proof.
  intros h0 Hres Hshape r.
  destruct (apply_run_spec host Hsub h0 level lc lp pitems fname f context stt
              conf secr names ci store st (agree_below_refl _ _) Hres Hshape)
    as (a0 & h2 & items1 & _ & _ & _ & _ & _ & Hrun & _).
  cbv zeta in Hrun. fold r h0 in Hrun. exists a0, h2. cbv zeta.
  inversion Hrun as [e d hs hx Hin Hs Hfr Hr Hst|ns' hx Hns Hne Hws Hstore Hfr Hr Hst|
                     hx Hwc Hci Hrd Hfr Hr Hst|hx _ Hrd Hci Hfr Hr Hst|
                     kwargs hc Hcf Hr Hst].
  1-4: left; split; [done|by eexists].
  right. by exists kwargs, hc.
Qed.

(** X11. Every call of a hook that [apply_python_control] makes binds
    [context] to the caller's context and, when the hook has a [state]
    parameter, [state] to the caller's state: the values themselves, not
    copies; and when the hook starts every object the caller had is as the
    caller left it. *)
Theorem hook_receives_context_and_state_as_they_are
    level lc lp pitems fname f context stt conf secr names ci store st :
  let h0 := st_heap st in
  resolved host h0 level lc lp pitems fname f →
  call_shape h0 pitems conf secr names ci store →
  let r := apply_python_control host level (VRef lc) context stt conf secr st in
  ∃ evs, st_trace (snd r) = st_trace st ++ evs
    ∧ ∀ g args kwargs hc, In (EvCall g args kwargs hc) evs →
        g = f ∧ args = []
        ∧ assoc_get "context" kwargs = Some context
        ∧ ("state" ∈ fn_params f → assoc_get "state" kwargs = Some stt)
        ∧ length h0 ≤ length hc
        ∧ ∀ l, l < length h0 → hc !! l = h0 !! l.
Proof.
  intros h0 Hres Hshape r.
  destruct (apply_run_spec host Hsub h0 level lc lp pitems fname f context stt
              conf secr names ci store st (agree_below_refl _ _) Hres Hshape)
    as (a0 & h2 & items1 & _ & _ & _ & _ & _ & Hrun & _).
  cbv zeta in Hrun. fold r h0 in Hrun.
  destruct (apply_run_trace _ _ _ _ _ _ _ _ _ _ _ _ _ _ _ Hrun) as (extra & Htr & Hx).
  eexists. split; [exact Htr|].
  intros g args kwargs hc Hin.
  apply in_app_event in Hin as [Hin|Hin].
  { exfalso. pose proof (pre_events_no_call fname f (template_of h0 pitems) a0 h2
                           (truthyb h0 conf || truthyb h0 secr) conf secr) as Hn.
    rewrite Forall_forall in Hn. by apply (Hn _ (proj2 (list_elem_of_In _ _) Hin)). }
  destruct Hx as [->|(kwargs' & hc' & -> & Hcf)]; [done|].
  destruct Hin as [[= <- <- <- <-]|[]].
  destruct (cf_frame _ _ _ _ _ _ _ _ _ _ Hcf) as [Hlen Hag].
  split_and!; try done.
  - exact (cf_context _ _ _ _ _ _ _ _ _ _ Hcf).
  - exact (cf_state _ _ _ _ _ _ _ _ _ _ Hcf).
Qed.

End ApplyShape.

Section ApplyCopy.

Context (host : Host).

(** X12. The substitution engine is given the deep copy, not the
    provider's template: it is called at most once, after the copy and
    before any call of the hook, on the caller's own configuration and
    secrets and on a data argument that is a new object, looks like the
    template, and leads to new objects only -- the objects made by the
    call refer to one another and to no object of the caller -- in a heap
    where the caller's objects are unchanged. *)
Theorem substitution_engine_is_given_the_copy
    level lc lp pitems fname f context stt conf secr st :
  let h0 := st_heap st in
  resolved host h0 level lc lp pitems fname f →
  heap_closed h0 →
  value_within 0 (length h0) conf → value_within 0 (length h0) secr →
  let r := apply_python_control host level (VRef lc) context stt conf secr st in
  ∃ a0 h2 calls,
    st_trace (snd r)
    = st_trace st ++ loaded_log fname f
        ++ [EvDeepcopy (template_of h0 pitems) a0 h2]
        ++ (if truthyb h0 conf || truthyb h0 secr
            then [EvSubstitute a0 conf secr h2] else [])
        ++ calls
    ∧ Forall is_call calls
    ∧ value_within (S (length h0)) (length h2) a0
    ∧ isolated (S (length h0)) h2
    ∧ agree_below (length h0) h0 h2
    ∧ ∀ k, unfold k h2 a0 = template_tree k h0 pitems.
Proof.
  intros h0 Hres Hcl Hconf Hsecr r.
  pose proof (rs_provider _ _ _ _ _ _ _ _ Hres) as Hprov.
  destruct (apply_prefix host (length h0) level lc lp pitems fname f context stt
              conf secr st Hres (le_n _) Hcl (lookup_lt_Some _ _ _ Hprov) Hconf Hsecr)
    as (a0 & h2 & Hlen & Hag & Hiso & Hw & Hun & E).
  fold h0 r in E, Hun, Hw, Hag, Hlen, Hiso.
  set (ev := EvDeepcopy (template_of h0 pitems) a0 h2) in *.
  set (tr := st_trace st ++ loaded_log fname f ++ [ev]) in *.
  assert (∃ calls,
            st_trace (snd r)
            = tr ++ (if truthyb h0 conf || truthyb h0 secr
                     then [EvSubstitute a0 conf secr h2] else []) ++ calls
            ∧ Forall is_call calls) as (calls & Htr & Hcalls).
  { destruct (truthyb h0 conf || truthyb h0 secr).
    - set (es := EvSubstitute a0 conf secr h2).
      set (rs := host_substitute host a0 conf secr h2).
      rewrite E. unfold bind, substitute. cbn [st_heap st_trace]. fold rs es.
      destruct (fst rs) as [a1|e|]; [|by exists []; rewrite app_nil_r..].
      destruct (emits_apply_tail host (VFunc f) (VRef lp) context stt conf secr a1
                  (State (snd rs) (tr ++ [es]))) as (calls & Htr & Hc).
      exists calls. split; [|done]. rewrite Htr. cbn [st_trace].
      by rewrite <- app_assoc.
    - rewrite bind_ret in E.
      destruct (emits_apply_tail host (VFunc f) (VRef lp) context stt conf secr a0
                  (State h2 tr)) as (calls & Htr & Hc).
      rewrite <- E in Htr. by exists calls. }
  exists a0, h2, calls. split_and!.
  - rewrite Htr. unfold tr. by rewrite <- !app_assoc.
  - done.
  - rewrite length_app in Hw. simpl in Hw. destruct a0; try done. simpl in *. lia.
  - rewrite length_app in Hiso. simpl in Hiso. by rewrite Nat.add_1_r in Hiso.
  - eapply agree_below_trans; [by apply (agree_below_app (length h0) h0 (ODict []))|].
    eapply agree_below_le; [|exact Hag]. rewrite length_app. simpl. lia.
  - intros k. rewrite Hun. by apply (template_tree_eq h0 h0 lp), agree_below_refl.
Qed.

Lemma template_tree_items h pitems :
  template_is_mapping h pitems →
  template_tree 1 h pitems
  = TDict (map (λ kv, (fst kv, unfold 0 h (snd kv))) (template_items h pitems)).
Proof.
  unfold template_is_mapping, template_tree, template_items.
  destruct (assoc_get "arguments" pitems) as [v|]; [|done].
  intros (lt & titems & -> & Hlt). simpl. by rewrite Hlt.
Qed.

Lemma assoc_get_None_not_key {A} k (kvs : list (string * A)) :
  assoc_get k kvs = None → k ∉ map fst kvs.
Proof.
  induction kvs as [|[k' v] kvs IH]; simpl; [intros _ H; by apply elem_of_nil in H|].
  destruct (String.eqb_spec k k') as [->|Hne]; [done|].
  intros E [H|H]%elem_of_cons; [done|by apply IH].
Qed.

Lemma same_entries_keys h h' (xs ys : list (string * value)) :
  map (λ kv, (fst kv, unfold 0 h (snd kv))) xs
  = map (λ kv, (fst kv, unfold 0 h' (snd kv))) ys →
  map fst xs = map fst ys.
Proof.
  intros E. apply (f_equal (map fst)) in E. rewrite !map_map in E. exact E.
Qed.

Lemma same_entries_atoms h h' (xs ys : list (string * value)) k v :
  map (λ kv, (fst kv, unfold 0 h (snd kv))) xs
  = map (λ kv, (fst kv, unfold 0 h' (snd kv))) ys →
  assoc_get k ys = Some v → (∀ l, v ≠ VRef l) → assoc_get k xs = Some v.
Proof.
  revert ys. induction xs as [|[k1 v1] xs IH]; intros [|[k2 v2] ys]; simpl; try done.
  intros [= <- Hv E]. destruct (String.eqb k k1); [|by apply IH].
  intros [= ->] Hn. f_equal.
  destruct v as [| | | | |l]; destruct v1; try done; congruence.
Qed.

(** The end of the call for a hook nothing is injected into. *)
Lemma apply_tail_plain lp pitems f context stt conf secr la items s :
  st_heap s !! lp = Some (ODict pitems) →
  st_heap s !! la = Some (ODict items) →
  no_injection pitems f →
  apply_tail host (VFunc f) (VRef lp) context stt conf secr (VRef la) s
  = (if assoc_mem "context" items
     then (Raise TypeError, s)
     else
       let kwargs := ("context", context) :: items in
       let rc := host_call host f [] kwargs (st_heap s) in
       (discard (fst rc),
        State (snd rc) (st_trace s ++ [EvCall f [] kwargs (st_heap s)]))).
Proof.
  intros Hlp Hla (Hsec & Hnc & Hns).
  unfold apply_tail. cbn [signature]. rewrite bind_ret.
  rewrite (bind_Return _ _ _ _ _ (contains_dict "secrets" lp pitems _ Hlp)).
  assert (assoc_mem "secrets" pitems && bool_decide ("secrets" ∈ fn_params f) = false)
    as ->.
  { destruct Hsec as [Hsec| ->%assoc_mem_false]; [|done].
    rewrite (bool_decide_eq_false_2 _ Hsec). apply andb_false_r. }
  rewrite bind_ret.
  rewrite (apply_finish_call host f context stt conf la items s Hla (ODict []));
    cycle 1.
  { intros Hw'. by apply bool_decide_eq_true_1 in Hw'. }
  unfold call_result, final_heap, final_items, conf_heap, conf_items.
  rewrite (bool_decide_eq_false_2 _ Hnc), (bool_decide_eq_false_2 _ Hns).
  by destruct s.
Qed.

(** X13. When no store is true and nothing is injected (the hook has no
    [configuration] and no [state] parameter, and no [secrets] parameter or
    the provider lists no secret groups), the hook is called on [context]
    followed by the entries of the deep copy, which has the keys of the
    template in the template's order and its atomic values; without a
    template the hook is called on [context] alone.  A template that binds
    [context] makes the call raise [TypeError] before the hook runs. *)
Theorem plain_hook_is_called_on_context_and_copied_template
    level lc lp pitems fname f context stt conf secr st :
  let h0 := st_heap st in
  resolved host h0 level lc lp pitems fname f →
  heap_closed h0 →
  template_is_mapping h0 pitems →
  value_within 0 (length h0) conf → value_within 0 (length h0) secr →
  truthyb h0 conf || truthyb h0 secr = false →
  no_injection pitems f →
  let r := apply_python_control host level (VRef lc) context stt conf secr st in
  ∃ ld items1 h2,
    length h0 < ld
    ∧ h2 !! ld = Some (ODict items1)
    ∧ agree_below (length h0) h0 h2
    ∧ (∀ n, unfold n h2 (VRef ld) = template_tree n h0 pitems)
    ∧ map fst items1 = map fst (template_items h0 pitems)
    ∧ (∀ k v, assoc_get k (template_items h0 pitems) = Some v →
              (∀ l, v ≠ VRef l) → assoc_get k items1 = Some v)
    ∧ let tr := st_trace st ++ loaded_log fname f
                ++ [EvDeepcopy (template_of h0 pitems) (VRef ld) h2] in
      r = (if assoc_mem "context" (template_items h0 pitems)
           then (Raise TypeError, State h2 tr)
           else
             let kwargs := ("context", context) :: items1 in
             let rc := host_call host f [] kwargs h2 in
             (discard (fst rc), State (snd rc) (tr ++ [EvCall f [] kwargs h2]))).
Proof.
  intros h0 Hres Hcl Htm Hconf Hsecr Hran Hplain r.
  pose proof (rs_provider _ _ _ _ _ _ _ _ Hres) as Hprov.
  pose proof (lookup_lt_Some _ _ _ Hprov) as Hlp.
  destruct (apply_prefix host (length h0) level lc lp pitems fname f context stt
              conf secr st Hres (le_n _) Hcl Hlp Hconf Hsecr)
    as (a0 & h2 & Hlen & Hag & _ & Hw & Hun & E).
  fold h0 r in E, Hun, Hw, Hag, Hlen. rewrite Hran, bind_ret in E.
  assert (∀ k, unfold k h2 a0 = template_tree k h0 pitems) as Hun'.
  { intros k. rewrite Hun. by apply (template_tree_eq h0 h0 lp), agree_below_refl. }
  assert (agree_below (length h0) h0 h2) as Hag0.
  { eapply agree_below_trans; [by apply (agree_below_app (length h0) h0 (ODict []))|].
    eapply agree_below_le; [|exact Hag]. rewrite length_app. simpl. lia. }
  pose proof (Hun' 1) as H1. rewrite (template_tree_items _ _ Htm) in H1.
  destruct a0 as [| | | | |ld]; try done. simpl in H1.
  destruct (h2 !! ld) as [[items1|?]|] eqn:Hld; try done.
  injection H1 as H1.
  pose proof (same_entries_keys h2 h0 _ _ H1) as Hk.
  exists ld, items1, h2. split_and!; try done.
  - rewrite length_app in Hw. simpl in Hw. lia.
  - intros k v. exact (same_entries_atoms h2 h0 _ _ k v H1).
  - cbv zeta. rewrite E.
    erewrite (apply_tail_plain lp pitems f context stt conf secr ld items1 (State _ _));
      [|simpl; by rewrite Hag0|exact Hld|exact Hplain].
    cbn [st_heap st_trace].
    replace (assoc_mem "context" items1)
      with (assoc_mem "context" (template_items h0 pitems)).
    + destruct (assoc_mem "context" (template_items h0 pitems)); [done|].
      by rewrite <- !app_assoc.
    + unfold assoc_mem.
      destruct (assoc_get "context" (template_items h0 pitems)) as [v|] eqn:Ec.
      * destruct (assoc_get "context" items1) eqn:Ei; [done|].
        exfalso. apply assoc_get_Some_In in Ec.
        assert ("context" ∈ map fst items1) as Hin.
        { rewrite Hk. apply list_elem_of_In, in_map_iff. by exists ("context", v). }
        by apply (assoc_get_None_not_key _ _ Ei).
      * destruct (assoc_get "context" items1) as [v|] eqn:Ei; [|done].
        exfalso. apply assoc_get_Some_In in Ei.
        assert ("context" ∈ map fst (template_items h0 pitems)) as Hin.
        { rewrite <- Hk. apply list_elem_of_In, in_map_iff. by exists ("context", v). }
        by apply (assoc_get_None_not_key _ _ Ec).
Qed.

(** X14. When a store is true, the outcome of the substitution engine
    directs the call: an exception of the engine ends the call and reaches
    the caller, with no hook called; a value the engine returns replaces
    the copy as the arguments the rest of the call works on, in the heap
    the engine left. *)
Theorem substitution_outcome_directs_the_call
    level lc lp pitems fname f context stt conf secr st :
  let h0 := st_heap st in
  resolved host h0 level lc lp pitems fname f →
  heap_closed h0 →
  value_within 0 (length h0) conf → value_within 0 (length h0) secr →
  truthyb h0 conf || truthyb h0 secr = true →
  let r := apply_python_control host level (VRef lc) context stt conf secr st in
  ∃ a0 h2,
    let rs := host_substitute host a0 conf secr h2 in
    let tr := st_trace st ++ loaded_log fname f
              ++ [EvDeepcopy (template_of h0 pitems) a0 h2;
                  EvSubstitute a0 conf secr h2] in
    (∀ k, unfold k h2 a0 = template_tree k h0 pitems)
    ∧ (∀ e, fst rs = Raise e → r = (Raise e, State (snd rs) tr))
    ∧ (∀ a1, fst rs = Return a1 →
         r = apply_tail host (VFunc f) (VRef lp) context stt conf secr a1
               (State (snd rs) tr)).
Proof.
  intros h0 Hres Hcl Hconf Hsecr Hran r.
  pose proof (rs_provider _ _ _ _ _ _ _ _ Hres) as Hprov.
  destruct (apply_prefix host (length h0) level lc lp pitems fname f context stt
              conf secr st Hres (le_n _) Hcl (lookup_lt_Some _ _ _ Hprov) Hconf Hsecr)
    as (a0 & h2 & _ & _ & _ & _ & Hun & E).
  fold h0 r in E, Hun. rewrite Hran in E.
  exists a0, h2. cbv zeta. split_and!.
  - intros k. rewrite Hun. by apply (template_tree_eq h0 h0 lp), agree_below_refl.
  - intros e He. rewrite E. unfold bind, substitute. cbn [st_heap st_trace].
    rewrite He. by rewrite <- !app_assoc.
  - intros a1 Ha. rewrite E. unfold bind at 1, substitute. cbn [st_heap st_trace].
    rewrite Ha. by rewrite <- !app_assoc.
Qed.

(** X15. When a store is true and nothing is injected, the hook is called
    on [context] followed by the entries of the mapping the substitution
    engine returned, in the heap the engine left; if that mapping binds
    [context] the call raises [TypeError] before the hook runs. *)
Theorem plain_hook_is_called_on_the_substituted_arguments
    level lc lp pitems fname f context stt conf secr st :
  let h0 := st_heap st in
  resolved host h0 level lc lp pitems fname f →
  heap_closed h0 →
  value_within 0 (length h0) conf → value_within 0 (length h0) secr →
  truthyb h0 conf || truthyb h0 secr = true →
  no_injection pitems f →
  let r := apply_python_control host level (VRef lc) context stt conf secr st in
  ∃ a0 h2,
    let rs := host_substitute host a0 conf secr h2 in
    let tr := st_trace st ++ loaded_log fname f
              ++ [EvDeepcopy (template_of h0 pitems) a0 h2;
                  EvSubstitute a0 conf secr h2] in
    (∀ k, unfold k h2 a0 = template_tree k h0 pitems)
    ∧ ∀ la items2,
        fst rs = Return (VRef la) →
        snd rs !! la = Some (ODict items2) →
        snd rs !! lp = Some (ODict pitems) →
        r = (if assoc_mem "context" items2
             then (Raise TypeError, State (snd rs) tr)
             else
               let kwargs := ("context", context) :: items2 in
               let rc := host_call host f [] kwargs (snd rs) in
               (discard (fst rc),
                State (snd rc) (tr ++ [EvCall f [] kwargs (snd rs)]))).
Proof.
  intros h0 Hres Hcl Hconf Hsecr Hran Hplain r.
  pose proof (rs_provider _ _ _ _ _ _ _ _ Hres) as Hprov.
  destruct (apply_prefix host (length h0) level lc lp pitems fname f context stt
              conf secr st Hres (le_n _) Hcl (lookup_lt_Some _ _ _ Hprov) Hconf Hsecr)
    as (a0 & h2 & _ & _ & _ & _ & Hun & E).
  fold h0 r in E, Hun. rewrite Hran in E.
  exists a0, h2. cbv zeta. split.
  - intros k. rewrite Hun. by apply (template_tree_eq h0 h0 lp), agree_below_refl.
  - intros la items2 Ha Hla Hlp. rewrite E.
    unfold bind at 1, substitute. cbn [st_heap st_trace]. rewrite Ha.
    erewrite (apply_tail_plain lp pitems f context stt conf secr la items2 (State _ _));
      [|exact Hlp|exact Hla|exact Hplain].
    cbn [st_heap st_trace]. by rewrite <- !app_assoc.
Qed.

End ApplyCopy.

(** ** The further properties at work *)

Lemma level_table_is_regular_and_injective_witness :
  assoc_get "rollback-after" _level_mapping = Some "after_rollback_control"
  ∧ (∃ kind when,
       In kind ["experiment"; "hypothesis"; "method"; "rollback"; "activity"]
       ∧ In when ["before"; "after"]
       ∧ "rollback-after" = level_name kind when
       ∧ "after_rollback_control" = hook_name kind when)
  ∧ "after_rollback_control" ≠ "configure_control"
  ∧ "after_rollback_control" ≠ "cleanup_control"
  ∧ ∀ level', assoc_get level' _level_mapping = Some "after_rollback_control" →
      level' = "rollback-after".
Proof.
  split; [reflexivity|].
  apply (level_table_is_regular_and_injective "rollback-after" "after_rollback_control").
  reflexivity.
Defined.

Lemma validate_outcome_follows_import_witness :
  let items := [("name", VStr "c1"); ("provider", VRef 1);
                ("module", VStr "pkg.missing")] in
  let st := State [ODict items; ODict []] [] in
  st_heap st !! 0 = Some (ODict items)
  ∧ assoc_get "name" items = Some (VStr "c1")
  ∧ assoc_get "provider" items = Some (VRef 1)
  ∧ assoc_get "module" items = Some (VStr "pkg.missing")
  ∧ value_within 0 (length (st_heap st)) (VStr "pkg.missing")
  ∧ validate_python_control demo_host (VRef 0) st
    = (Raise (InvalidActivity
                [Text "could not find Python module '"; Shown (VStr "pkg.missing");
                 Text "' in control '"; Shown (VStr "c1"); Text "'"]), st).
Proof.
  intros items st. split_and!; [reflexivity..|done|].
  apply (validate_outcome_follows_import demo_host 0 items (VStr "c1") (VRef 1)
           (VStr "pkg.missing") st); [reflexivity..|done].
Defined.

Lemma operations_require_provider_and_module_witness :
  let st := State [ODict [("name", VStr "c1")]] [] in
  st_heap st !! 0 = Some (ODict [("name", VStr "c1")])
  ∧ assoc_get "provider" [("name", VStr "c1")] = None
  ∧ operations_end demo_host 0 VNone VNone VNone VNone st
      (Raise (KeyError "provider"), st).
Proof.
  intros st. split; [reflexivity|]. split; [reflexivity|].
  apply (operations_require_provider_and_module demo_host 0 [("name", VStr "c1")]
           VNone VNone VNone VNone st); reflexivity.
Defined.

Lemma import_errors_other_than_not_found_propagate_witness :
  let st := State (bare_heap "") [] in
  control_at (st_heap st) 0 1 (VStr "")
  ∧ import_module demo_host (VStr "") st = (Raise ValueError, st)
  ∧ ValueError ≠ ModuleNotFoundError
  ∧ operations_end demo_host 0 VNone VNone VNone VNone st (Raise ValueError, st).
Proof.
  intros st. split; [exact (bare_control_at "")|]. split; [reflexivity|].
  split; [discriminate|].
  apply (import_errors_other_than_not_found_propagate demo_host 0 1 (VStr "")
           ValueError VNone VNone VNone VNone st);
    [exact (bare_control_at "")|reflexivity|discriminate].
Defined.

Lemma missing_module_silences_every_level_witness :
  let st := State (bare_heap "pkg.missing") [] in
  control_at (st_heap st) 0 1 (VStr "pkg.missing")
  ∧ resolve_module demo_host "pkg.missing" = ImportFails ModuleNotFoundError
  ∧ ∀ level,
      apply_python_control demo_host level (VRef 0) VNone VNone VNone VNone st
      = (Return tt,
         add_events st
           [EvLog [Text "Control module '"; Shown (VStr "pkg.missing");
                   Text "' could not be loaded. Have you installed it?"]]).
Proof.
  intros st. split; [exact (bare_control_at "pkg.missing")|]. split; [reflexivity|].
  apply (missing_module_silences_every_level demo_host 0 1 "pkg.missing"
           VNone VNone VNone VNone st);
    [exact (bare_control_at "pkg.missing")|reflexivity].
Defined.

Lemma edge_bound_to_false :
  bound_to_false (bare_heap "pkg.edge") edge_module "configure_control".
Proof. exists VNone. by split_and!. Qed.

Lemma false_attribute_counts_as_missing_witness :
  let st := State (bare_heap "pkg.edge") [] in
  control_at (st_heap st) 0 1 (VStr "pkg.edge")
  ∧ resolve_module edge_host "pkg.edge" = Loaded edge_module
  ∧ bound_to_false (st_heap st) edge_module "configure_control"
  ∧ silent_noop (initialize_control edge_host (VRef 0) VNone VNone) st.
Proof.
  intros st. split; [exact (bare_control_at "pkg.edge")|]. split; [reflexivity|].
  split; [exact edge_bound_to_false|].
  apply (false_attribute_counts_as_missing edge_host 0 1 "pkg.edge" edge_module
           VNone VNone VNone VNone st (bare_control_at "pkg.edge") eq_refl).
  exact edge_bound_to_false.
Defined.

Lemma edge_bound_to_data :
  bound_to_data (bare_heap "pkg.edge") edge_module "cleanup_control".
Proof. exists (VStr "not a function"). by split_and!. Qed.

Lemma data_attribute_is_not_callable_witness :
  let st := State (bare_heap "pkg.edge") [] in
  control_at (st_heap st) 0 1 (VStr "pkg.edge")
  ∧ resolve_module edge_host "pkg.edge" = Loaded edge_module
  ∧ bound_to_data (st_heap st) edge_module "cleanup_control"
  ∧ cleanup_control edge_host (VRef 0) st = (Raise TypeError, st).
Proof.
  intros st. split; [exact (bare_control_at "pkg.edge")|]. split; [reflexivity|].
  split; [exact edge_bound_to_data|].
  apply (data_attribute_is_not_callable edge_host 0 1 "pkg.edge" edge_module
           VNone VNone st (bare_control_at "pkg.edge") eq_refl).
  exact edge_bound_to_data.
Defined.

Lemma apply_calls_the_hook_last_and_once_witness :
  let h0 := st_heap demo_state in
  let r := apply_python_control demo_host "activity-before" (VRef 0) VNone VNone
             (VRef 5) (VRef 6) demo_state in
  substitute_respects_frame demo_host
  ∧ resolved demo_host h0 "activity-before" 0 1 demo_provider
             "before_activity_control" demo_hook
  ∧ call_shape h0 demo_provider (VRef 5) (VRef 6)
               (Some ["group-a"; "group-b"]) (Some demo_configuration)
               (Some demo_store)
  ∧ ∃ a0 h2,
      let pre := loaded_log "before_activity_control" demo_hook
                 ++ [EvDeepcopy (template_of h0 demo_provider) a0 h2]
                 ++ (if truthyb h0 (VRef 5) || truthyb h0 (VRef 6)
                     then [EvSubstitute a0 (VRef 5) (VRef 6) h2] else []) in
      (st_trace (snd r) = st_trace demo_state ++ pre ∧ ∃ e, fst r = Raise e)
      ∨ ∃ kwargs hc,
          st_trace (snd r)
          = (st_trace demo_state ++ pre) ++ [EvCall demo_hook [] kwargs hc]
          ∧ fst r = discard (fst (host_call demo_host demo_hook [] kwargs hc))
          ∧ st_heap (snd r) = snd (host_call demo_host demo_hook [] kwargs hc).
Proof.
  intros h0 r. split; [exact demo_substitute_respects_frame|].
  split; [exact demo_resolved|]. split; [exact demo_shape|].
  exact (apply_calls_the_hook_last_and_once demo_host demo_substitute_respects_frame
           "activity-before" 0 1 demo_provider "before_activity_control" demo_hook
           VNone VNone (VRef 5) (VRef 6) (Some ["group-a"; "group-b"])
           (Some demo_configuration) (Some demo_store) demo_state
           demo_resolved demo_shape).
Defined.

Lemma hook_receives_context_and_state_as_they_are_witness :
  let h0 := st_heap demo_state in
  let r := apply_python_control demo_host "activity-before" (VRef 0)
             (VStr "probe") (VRef 4) (VRef 5) (VRef 6) demo_state in
  substitute_respects_frame demo_host
  ∧ resolved demo_host h0 "activity-before" 0 1 demo_provider
             "before_activity_control" demo_hook
  ∧ call_shape h0 demo_provider (VRef 5) (VRef 6)
               (Some ["group-a"; "group-b"]) (Some demo_configuration)
               (Some demo_store)
  ∧ ∃ evs, st_trace (snd r) = st_trace demo_state ++ evs
      ∧ ∀ g args kwargs hc, In (EvCall g args kwargs hc) evs →
          g = demo_hook ∧ args = []
          ∧ assoc_get "context" kwargs = Some (VStr "probe")
          ∧ ("state" ∈ fn_params demo_hook → assoc_get "state" kwargs = Some (VRef 4))
          ∧ length h0 ≤ length hc
          ∧ ∀ l, l < length h0 → hc !! l = h0 !! l.
Proof.
  intros h0 r. split; [exact demo_substitute_respects_frame|].
  split; [exact demo_resolved|]. split; [exact demo_shape|].
  exact (hook_receives_context_and_state_as_they_are demo_host
           demo_substitute_respects_frame
           "activity-before" 0 1 demo_provider "before_activity_control" demo_hook
           (VStr "probe") (VRef 4) (VRef 5) (VRef 6) (Some ["group-a"; "group-b"])
           (Some demo_configuration) (Some demo_store) demo_state
           demo_resolved demo_shape).
Defined.

Lemma substitution_engine_is_given_the_copy_witness :
  let h0 := st_heap demo_state in
  let r := apply_python_control demo_host "activity-before" (VRef 0) VNone VNone
             (VRef 5) (VRef 6) demo_state in
  resolved demo_host h0 "activity-before" 0 1 demo_provider
           "before_activity_control" demo_hook
  ∧ heap_closed h0
  ∧ value_within 0 (length h0) (VRef 5) ∧ value_within 0 (length h0) (VRef 6)
  ∧ ∃ a0 h2 calls,
      st_trace (snd r)
      = st_trace demo_state ++ loaded_log "before_activity_control" demo_hook
          ++ [EvDeepcopy (template_of h0 demo_provider) a0 h2]
          ++ (if truthyb h0 (VRef 5) || truthyb h0 (VRef 6)
              then [EvSubstitute a0 (VRef 5) (VRef 6) h2] else [])
          ++ calls
      ∧ Forall is_call calls
      ∧ value_within (S (length h0)) (length h2) a0
      ∧ isolated (S (length h0)) h2
      ∧ agree_below (length h0) h0 h2
      ∧ ∀ k, unfold k h2 a0 = template_tree k h0 demo_provider.
Proof.
  intros h0 r.
  assert (heap_closed h0) as Hcl by (by apply heap_closedb_sound).
  assert (value_within 0 (length h0) (VRef 5)) as H5 by (simpl; lia).
  assert (value_within 0 (length h0) (VRef 6)) as H6 by (simpl; lia).
  split; [exact demo_resolved|]. split; [exact Hcl|].
  split; [exact H5|]. split; [exact H6|].
  exact (substitution_engine_is_given_the_copy demo_host
           "activity-before" 0 1 demo_provider "before_activity_control" demo_hook
           VNone VNone (VRef 5) (VRef 6) demo_state demo_resolved Hcl H5 H6).
Defined.

Lemma plain_resolved :
  resolved demo_host plain_heap "activity-before" 0 1 plain_provider
           "before_activity_control" demo_secrets_hook.
Proof. split; [by eexists|done|by eexists _, _|done]. Qed.

Lemma plain_no_injection : no_injection plain_provider demo_secrets_hook.
Proof.
  split_and!; [by right| |]; intros H; apply list_elem_of_In in H; simpl in H;
    intuition discriminate.
Qed.

Lemma plain_hook_is_called_on_context_and_copied_template_witness :
  let st := State plain_heap [] in
  let h0 := st_heap st in
  let r := apply_python_control demo_host "activity-before" (VRef 0)
             (VStr "probe") VNone VNone VNone st in
  resolved demo_host h0 "activity-before" 0 1 plain_provider
           "before_activity_control" demo_secrets_hook
  ∧ heap_closed h0
  ∧ template_is_mapping h0 plain_provider
  ∧ value_within 0 (length h0) VNone
  ∧ truthyb h0 VNone || truthyb h0 VNone = false
  ∧ no_injection plain_provider demo_secrets_hook
  ∧ ∃ ld items1 h2,
      length h0 < ld
      ∧ h2 !! ld = Some (ODict items1)
      ∧ agree_below (length h0) h0 h2
      ∧ (∀ n, unfold n h2 (VRef ld) = template_tree n h0 plain_provider)
      ∧ map fst items1 = map fst (template_items h0 plain_provider)
      ∧ (∀ k v, assoc_get k (template_items h0 plain_provider) = Some v →
                (∀ l, v ≠ VRef l) → assoc_get k items1 = Some v)
      ∧ let tr := st_trace st ++ loaded_log "before_activity_control" demo_secrets_hook
                  ++ [EvDeepcopy (template_of h0 plain_provider) (VRef ld) h2] in
        r = (if assoc_mem "context" (template_items h0 plain_provider)
             then (Raise TypeError, State h2 tr)
             else
               let kwargs := ("context", VStr "probe") :: items1 in
               let rc := host_call demo_host demo_secrets_hook [] kwargs h2 in
               (discard (fst rc),
                State (snd rc) (tr ++ [EvCall demo_secrets_hook [] kwargs h2]))).
Proof.
  intros st h0 r.
  assert (heap_closed h0) as Hcl by (by apply heap_closedb_sound).
  assert (template_is_mapping h0 plain_provider) as Htm by (by eexists _, _).
  split; [exact plain_resolved|]. split; [exact Hcl|]. split; [exact Htm|].
  split; [exact I|]. split; [reflexivity|]. split; [exact plain_no_injection|].
  exact (plain_hook_is_called_on_context_and_copied_template demo_host
           "activity-before" 0 1 plain_provider "before_activity_control"
           demo_secrets_hook (VStr "probe") VNone VNone VNone st
           plain_resolved Hcl Htm I I eq_refl plain_no_injection).
Defined.

Lemma substitution_outcome_directs_the_call_witness :
  let h0 := st_heap demo_state in
  let r := apply_python_control demo_host "activity-before" (VRef 0) VNone VNone
             (VRef 5) (VRef 6) demo_state in
  resolved demo_host h0 "activity-before" 0 1 demo_provider
           "before_activity_control" demo_hook
  ∧ heap_closed h0
  ∧ value_within 0 (length h0) (VRef 5) ∧ value_within 0 (length h0) (VRef 6)
  ∧ truthyb h0 (VRef 5) || truthyb h0 (VRef 6) = true
  ∧ ∃ a0 h2,
      let rs := host_substitute demo_host a0 (VRef 5) (VRef 6) h2 in
      let tr := st_trace demo_state ++ loaded_log "before_activity_control" demo_hook
                ++ [EvDeepcopy (template_of h0 demo_provider) a0 h2;
                    EvSubstitute a0 (VRef 5) (VRef 6) h2] in
      (∀ k, unfold k h2 a0 = template_tree k h0 demo_provider)
      ∧ (∀ e, fst rs = Raise e → r = (Raise e, State (snd rs) tr))
      ∧ (∀ a1, fst rs = Return a1 →
           r = apply_tail demo_host (VFunc demo_hook) (VRef 1) VNone VNone
                 (VRef 5) (VRef 6) a1 (State (snd rs) tr)).
Proof.
  intros h0 r.
  assert (heap_closed h0) as Hcl by (by apply heap_closedb_sound).
  assert (value_within 0 (length h0) (VRef 5)) as H5 by (simpl; lia).
  assert (value_within 0 (length h0) (VRef 6)) as H6 by (simpl; lia).
  split; [exact demo_resolved|]. split; [exact Hcl|].
  split; [exact H5|]. split; [exact H6|]. split; [reflexivity|].
  exact (substitution_outcome_directs_the_call demo_host
           "activity-before" 0 1 demo_provider "before_activity_control" demo_hook
           VNone VNone (VRef 5) (VRef 6) demo_state demo_resolved Hcl H5 H6 eq_refl).
Defined.

Lemma plain_hook_is_called_on_the_substituted_arguments_witness :
  let st := State plain_heap [] in
  let h0 := st_heap st in
  let r := apply_python_control demo_host "activity-before" (VRef 0)
             (VStr "probe") VNone (VRef 3) VNone st in
  resolved demo_host h0 "activity-before" 0 1 plain_provider
           "before_activity_control" demo_secrets_hook
  ∧ heap_closed h0
  ∧ value_within 0 (length h0) (VRef 3) ∧ value_within 0 (length h0) VNone
  ∧ truthyb h0 (VRef 3) || truthyb h0 VNone = true
  ∧ no_injection plain_provider demo_secrets_hook
  ∧ ∃ a0 h2,
      let rs := host_substitute demo_host a0 (VRef 3) VNone h2 in
      let tr := st_trace st ++ loaded_log "before_activity_control" demo_secrets_hook
                ++ [EvDeepcopy (template_of h0 plain_provider) a0 h2;
                    EvSubstitute a0 (VRef 3) VNone h2] in
      (∀ k, unfold k h2 a0 = template_tree k h0 plain_provider)
      ∧ ∀ la items2,
          fst rs = Return (VRef la) →
          snd rs !! la = Some (ODict items2) →
          snd rs !! 1 = Some (ODict plain_provider) →
          r = (if assoc_mem "context" items2
               then (Raise TypeError, State (snd rs) tr)
               else
                 let kwargs := ("context", VStr "probe") :: items2 in
                 let rc := host_call demo_host demo_secrets_hook [] kwargs (snd rs) in
                 (discard (fst rc),
                  State (snd rc)
                        (tr ++ [EvCall demo_secrets_hook [] kwargs (snd rs)]))).
Proof.
  intros st h0 r.
  assert (heap_closed h0) as Hcl by (by apply heap_closedb_sound).
  assert (value_within 0 (length h0) (VRef 3)) as H3 by (simpl; lia).
  split; [exact plain_resolved|]. split; [exact Hcl|].
  split; [exact H3|]. split; [exact I|]. split; [reflexivity|].
  split; [exact plain_no_injection|].
  exact (plain_hook_is_called_on_the_substituted_arguments demo_host
           "activity-before" 0 1 plain_provider "before_activity_control"
           demo_secrets_hook (VStr "probe") VNone (VRef 3) VNone st
           plain_resolved Hcl H3 I eq_refl plain_no_injection).
Defined.
